(** * CLogger: the bounded, buffered text logger of [text_logger.c]

    A shallow embedding of [src/text_logger_lib/text_logger.c] and of the
    declarations of [text_logger.h], followed by the properties of the
    logger context that the specification states.

    Conventions of the embedding.
    - A C [int] is a [Z] kept in the range of 32 bits; every assignment that
      converts into [int] goes through [wrap_int], every conversion to
      [size_t] through [to_size_t] (64 bits).
    - A C string is the list of its characters before the terminating NUL;
      a pointer that may be NULL is an [option].
    - The scratch buffer is the list of the bytes of its allocation.
    - The file system, the clock and the allocator are outside the logger:
      the file is what it held before, followed by the writes made to it;
      the clock, the faults of the file layer and the answers of the
      allocator are read from the [World].  The logger is the only writer
      of its file.
    - [TextLogger_PrintCurrFileSize] only reads the length of the file and
      prints it; it is not part of the embedding. *)

From Stdlib Require Import ZArith List Bool Ascii Lia.
From Stdlib Require String DecimalString.
Import ListNotations.
Import String.StringSyntax.
Delimit Scope string_scope with string.

Local Open Scope Z_scope.

(** ** Machine integers *)

Module CInt.

Definition int_min : Z := - 2 ^ 31.
Definition int_max : Z := 2 ^ 31 - 1.

(** The values an [int] can hold. *)
Definition int_range (z : Z) : Prop := int_min <= z <= int_max.

(** Conversion to [int]: reduction modulo 2^32 into the signed range. *)
Definition wrap_int (z : Z) : Z := (z + 2 ^ 31) mod 2 ^ 32 - 2 ^ 31.

(** Conversion to [size_t]: reduction modulo 2^64. *)
Definition to_size_t (z : Z) : Z := z mod 2 ^ 64.

(** [i += n] with [i] an [int] and [n] a [size_t]: the sum is computed in
    [size_t] and converted back to [int]. *)
Definition int_add_size_t (i n : Z) : Z :=
  wrap_int (to_size_t (to_size_t i + n)).

End CInt.
Export CInt.

(** ** Bytes, C strings and memory *)

Module Mem.

Definition cstring := list ascii.

Definition NUL : ascii := Ascii.zero.

Definition lit (s : String.string) : cstring := String.list_ascii_of_string s.

(** [strlen], a [size_t]. *)
Definition strlen (s : cstring) : Z := Z.of_nat (length s).

(** Writes [bs] into the allocation [mem] from offset [pos] on.  A write that
    falls outside the allocation is not the logger's memory any more: the
    allocation keeps its size and the bytes beyond it are lost. *)
Definition store_bytes (mem : list ascii) (pos : Z) (bs : list ascii)
  : list ascii :=
  if pos <? 0 then mem
  else
    let p := Z.to_nat pos in
    firstn (length mem) (firstn p mem ++ bs ++ skipn (p + length bs) mem).

(** Reads [n] bytes from the start of the allocation; the bytes past its end
    are not the logger's and are read as NUL. *)
Definition load_bytes (mem : list ascii) (n : Z) : list ascii :=
  let k := Z.to_nat n in
  firstn k mem ++ repeat NUL (k - length mem).

(** The bytes [snprintf (dst, n, ...)] stores when the formatted text is [s]:
    nothing for [n = 0], else at most [n - 1] characters and a NUL. *)
Definition snprintf_bytes (n : Z) (s : cstring) : list ascii :=
  if n =? 0 then []
  else firstn (Z.to_nat (Z.min (strlen s) (n - 1))) s ++ [NUL].

(** [snprintf (mem + pos, n, "%s", s)]: the memory afterwards and the value
    returned, which is the length of the whole text [s], stored or not. *)
Definition snprintf (mem : list ascii) (pos n : Z) (s : cstring)
  : list ascii * Z :=
  (store_bytes mem pos (snprintf_bytes n s), wrap_int (strlen s)).

End Mem.
Export Mem.

(** ** The clock provider and the timestamp format *)

Module Clock.

(** [struct tm], the fields the logger reads. *)
Record tm : Type := mk_tm {
  tm_year : Z;  (* years since 1900 *)
  tm_mon  : Z;  (* 0 .. 11 *)
  tm_mday : Z;
  tm_hour : Z;
  tm_min  : Z;
  tm_sec  : Z
}.

Definition digits (n : Z) : cstring :=
  lit (DecimalString.NilZero.string_of_uint (N.to_uint (Z.to_N n))).

(** The conversion [%0wd]: sign first, then zeros up to the width [w]. *)
Definition fmt_0d (w : nat) (z : Z) : cstring :=
  let ds := digits (Z.abs z) in
  if z <? 0
  then "-"%char :: repeat "0"%char (w - 1 - length ds) ++ ds
  else repeat "0"%char (w - length ds) ++ ds.

Definition MAX_STR_SIZE : Z := 128.

(** The text that [snprintf] formats for [pTimeBuffer], with the conversions
    %04d-%02d-%02d | %02d:%02d:%02d between the brackets, before it is cut to
    the size of [pTimeBuffer]. *)
Definition timestamp_text (t : tm) : cstring :=
  lit "["%string ++ fmt_0d 4 (wrap_int (tm_year t + 1900)) ++ lit "-"%string
    ++ fmt_0d 2 (wrap_int (tm_mon t + 1)) ++ lit "-"%string
    ++ fmt_0d 2 (tm_mday t) ++ lit " | "%string
    ++ fmt_0d 2 (tm_hour t) ++ lit ":"%string
    ++ fmt_0d 2 (tm_min t) ++ lit ":"%string
    ++ fmt_0d 2 (tm_sec t) ++ lit "] "%string.

(** The string left in [pTimeBuffer]: at most [MAX_STR_SIZE - 1] characters. *)
Definition format_timestamp (t : tm) : cstring :=
  firstn (Z.to_nat (MAX_STR_SIZE - 1)) (timestamp_text t).

End Clock.
Export Clock.

(** ** The world outside the logger: file sink, clock, allocator *)

Module Sink.

(** What the file layer does with one [fopen] and the [fwrite] that may
    follow it. *)
Inductive FileOutcome : Type :=
| OpenFails                 (* fopen returns NULL *)
| WriteStops (k : Z)        (* fopen succeeds, fwrite takes at most k bytes *)
| Healthy.                  (* fopen succeeds, fwrite takes every byte *)

(** An open stream: how many bytes a write on it may take. *)
Inductive FILE : Type :=
| Stream (limit : option Z).

Record World : Type := mk_World {
  file_init    : list ascii;          (* the file before the logger wrote *)
  file_appends : list (list ascii);   (* the writes that reached the file *)
  clock        : nat -> tm;           (* what localtime answers, call by call *)
  ticks        : nat;                 (* calls of time so far *)
  os           : nat -> FileOutcome;  (* the file layer, fopen by fopen *)
  opens        : nat;                 (* calls of fopen so far *)
  malloc_ok    : Z -> bool            (* does malloc grant that many bytes *)
}.

(** The bytes of the file. *)
Definition file_bytes (w : World) : list ascii :=
  file_init w ++ concat (file_appends w).

(** [time] followed by [localtime]. *)
Definition localtime_now (w : World) : tm * World :=
  (clock w (ticks w),
   mk_World (file_init w) (file_appends w) (clock w) (S (ticks w))
            (os w) (opens w) (malloc_ok w)).

(** [fopen (path, "ab")]. *)
Definition fopen_ab (w : World) : option FILE * World :=
  let w' := mk_World (file_init w) (file_appends w) (clock w) (ticks w)
                     (os w) (S (opens w)) (malloc_ok w) in
  match os w (opens w) with
  | OpenFails => (None, w')
  | WriteStops k => (Some (Stream (Some k)), w')
  | Healthy => (Some (Stream None), w')
  end.

(** [fseek (f, 0, SEEK_END)] then [ftell (f)]: the length of the file.  The
    value is a [long]; files stay far below its range. *)
Definition ftell_end (w : World) : Z := Z.of_nat (length (file_bytes w)).

(** [fwrite (data, 1, n, f)] with [n] the length of [data]: the number of
    bytes taken, and the world where they are appended to the file. *)
Definition fwrite (f : FILE) (data : list ascii) (w : World) : Z * World :=
  let n := Z.of_nat (length data) in
  let k := match f with
           | Stream None => n
           | Stream (Some limit) => Z.max 0 (Z.min limit n)
           end in
  (k, mk_World (file_init w) (file_appends w ++ [firstn (Z.to_nat k) data])
               (clock w) (ticks w) (os w) (opens w) (malloc_ok w)).

End Sink.
Export Sink.

(** ** text_logger.h *)

Inductive TextLoggerStatusType : Type :=
| TEXTLOGGER_SUCCESS
| TEXTLOGGER_ERR_FILE_ERROR
| TEXTLOGGER_ERR_INVALID_INPUT
| TEXTLOGGER_ERR_INSUFFICIENT_FILE_SPACE.

Inductive LogLevelType : Type :=
| LOG_LEVEL_ERROR
| LOG_LEVEL_WARN
| LOG_LEVEL_INFO
| LOG_LEVEL_DEBUG
| LOG_LEVEL_VERBOSE.

(** The value of each enumerator. *)
Definition level_ord (l : LogLevelType) : Z :=
  match l with
  | LOG_LEVEL_ERROR => 1
  | LOG_LEVEL_WARN => 2
  | LOG_LEVEL_INFO => 3
  | LOG_LEVEL_DEBUG => 4
  | LOG_LEVEL_VERBOSE => 5
  end.

Definition is_success (s : TextLoggerStatusType) : bool :=
  match s with TEXTLOGGER_SUCCESS => true | _ => false end.

Definition is_file_error (s : TextLoggerStatusType) : bool :=
  match s with TEXTLOGGER_ERR_FILE_ERROR => true | _ => false end.

(** ** text_logger.c *)

Definition LOG_EXTRA_STR_LENGTH : Z := 6.

(** [struct LoggerContext].  [pLogFile] is left out: it is set by [fopen] and
    dead after the [fclose] of the same call. *)
Record LoggerContext : Type := mk_LoggerContext {
  pTextBuffer        : list ascii;
  pFilePath          : cstring;
  pErrMsg            : cstring;
  logLevel           : Z;
  maxBufferByteSize  : Z;
  maxFileSize        : Z;
  currBytePos        : Z;
  totalBytesStored   : Z;
  fileLimitIsReached : bool
}.

(** A [LoggerContextType*] is NULL or points to the context of the state. *)
Inductive LoggerContextPtr : Type :=
| NULL
| PTR.

Definition set_fileLimitIsReached (c : LoggerContext) (b : bool) :=
  mk_LoggerContext (pTextBuffer c) (pFilePath c) (pErrMsg c) (logLevel c)
    (maxBufferByteSize c) (maxFileSize c) (currBytePos c)
    (totalBytesStored c) b.

Definition set_currBytePos (c : LoggerContext) (pos : Z) :=
  mk_LoggerContext (pTextBuffer c) (pFilePath c) (pErrMsg c) (logLevel c)
    (maxBufferByteSize c) (maxFileSize c) pos
    (totalBytesStored c) (fileLimitIsReached c).

Definition sizeof_LoggerContext : Z := 56.

(** [TextLogger_Create].  The subtraction for [maxFileSize] is made in
    [size_t], because of [strlen], and stored in an [int]; the size asked
    for the scratch buffer is [maxBufferByteSize] converted to [size_t].
    What [malloc] leaves in the scratch buffer is not specified: the
    embedding fills it with NUL. *)
Definition TextLogger_Create (pFilePath pErrMsg : option cstring)
    (logLevel maxBufferByteSize maxFileSize : Z) (w : World)
  : option LoggerContext :=
  match pFilePath, pErrMsg with
  | Some path, Some msg =>
    if negb (malloc_ok w sizeof_LoggerContext) then None
    else
      let maxFileSize' :=
        wrap_int (to_size_t (to_size_t maxFileSize - (strlen msg + 1))) in
      if 0 >=? maxFileSize' then None
      else if negb (malloc_ok w (to_size_t (strlen path + 1))) then None
      else if negb (malloc_ok w (to_size_t maxBufferByteSize)) then None
      else if negb (malloc_ok w (to_size_t (strlen msg + 1))) then None
      else
        Some (mk_LoggerContext
                (repeat NUL (Z.to_nat (to_size_t maxBufferByteSize)))
                path msg logLevel maxBufferByteSize maxFileSize' 0 0 false)
  | _, _ => None
  end.

(** [TextLogger_FlushBufferIsNeeded]: two subtractions in [int]. *)
Definition TextLogger_FlushBufferIsNeeded (c : LoggerContext)
    (lengthOfTextToAdd : Z) : bool :=
  (wrap_int (maxFileSize c - totalBytesStored c) <=? lengthOfTextToAdd)
  || (wrap_int (maxBufferByteSize c - currBytePos c) <=? lengthOfTextToAdd).

Definition TextLogger_FlushErrMsgToFileStream (c : LoggerContext) (w : World)
  : TextLoggerStatusType * World :=
  match fopen_ab w with
  | (None, w1) => (TEXTLOGGER_ERR_FILE_ERROR, w1)
  | (Some f, w1) =>
    let '(bytesWritten, w2) := fwrite f (pErrMsg c) w1 in
    if negb (bytesWritten =? strlen (pErrMsg c))
    then (TEXTLOGGER_ERR_FILE_ERROR, w2)
    else (TEXTLOGGER_SUCCESS, w2)
  end.

(** [TextLogger_FlushTextToFileStream].  The latch is set before the
    end-marker is attempted; the overshoot test adds an [int] to the [long]
    of [ftell]; the two branches of that test share the [fclose] and the
    reset of the cursor, and the failed write returns before them. *)
Definition TextLogger_FlushTextToFileStream (p : LoggerContextPtr)
    (c : LoggerContext) (w : World)
  : TextLoggerStatusType * LoggerContext * World :=
  match p with
  | NULL => (TEXTLOGGER_ERR_INVALID_INPUT, c, w)
  | PTR =>
    if maxFileSize c <=? totalBytesStored c then
      if negb (fileLimitIsReached c) then
        let c1 := set_fileLimitIsReached c true in
        let '(status, w1) := TextLogger_FlushErrMsgToFileStream c1 w in
        if is_file_error status
        then (TEXTLOGGER_ERR_FILE_ERROR, c1, w1)
        else (TEXTLOGGER_ERR_INSUFFICIENT_FILE_SPACE, c1, w1)
      else (TEXTLOGGER_ERR_INSUFFICIENT_FILE_SPACE, c, w)
    else if 0 =? currBytePos c then (TEXTLOGGER_SUCCESS, c, w)
    else
      match fopen_ab w with
      | (None, w1) => (TEXTLOGGER_ERR_FILE_ERROR, c, w1)
      | (Some f, w1) =>
        let currFileSize := ftell_end w1 in
        if currBytePos c + currFileSize >? maxFileSize c then
          let c1 := if negb (fileLimitIsReached c)
                    then set_fileLimitIsReached c true else c in
          (TEXTLOGGER_ERR_INSUFFICIENT_FILE_SPACE, set_currBytePos c1 0, w1)
        else
          let '(bytesWritten, w2) :=
            fwrite f (load_bytes (pTextBuffer c) (to_size_t (currBytePos c))) w1 in
          if negb (bytesWritten =? to_size_t (currBytePos c))
          then (TEXTLOGGER_ERR_FILE_ERROR, c, w2)
          else (TEXTLOGGER_SUCCESS, set_currBytePos c 0, w2)
      end
  end.

(** The two statements that follow each [snprintf] into the scratch buffer:
    [currBytePos += bytesWritten; totalBytesStored += bytesWritten;]. *)
Definition advance (c : LoggerContext) (mem : list ascii) (bytesWritten : Z)
  : LoggerContext :=
  mk_LoggerContext mem (pFilePath c) (pErrMsg c) (logLevel c)
    (maxBufferByteSize c) (maxFileSize c)
    (int_add_size_t (currBytePos c) bytesWritten)
    (int_add_size_t (totalBytesStored c) bytesWritten)
    (fileLimitIsReached c).

(** [snprintf (pTextBuffer + currBytePos, maxBufferByteSize - currBytePos, ...)]
    with the formatted text [s], then the two increments.  The return value
    of [snprintf], an [int], is stored in a [size_t]. *)
Definition write_at_cursor (c : LoggerContext) (s : cstring) : LoggerContext :=
  let '(mem, ret) :=
    snprintf (pTextBuffer c) (currBytePos c)
             (to_size_t (wrap_int (maxBufferByteSize c - currBytePos c))) s in
  advance c mem (to_size_t ret).

Definition TextLogger_LogTimeStamp (p : LoggerContextPtr)
    (c : LoggerContext) (w : World)
  : TextLoggerStatusType * LoggerContext * World :=
  match p with
  | NULL => (TEXTLOGGER_ERR_INVALID_INPUT, c, w)
  | PTR =>
    let '(timeinfo, w0) := localtime_now w in
    let pTimeBuffer := format_timestamp timeinfo in
    let '(status, c1, w1) :=
      if TextLogger_FlushBufferIsNeeded c (wrap_int (strlen pTimeBuffer))
      then TextLogger_FlushTextToFileStream p c w0
      else (TEXTLOGGER_SUCCESS, c, w0) in
    if negb (is_success status) then (status, c1, w1)
    else (TEXTLOGGER_SUCCESS, write_at_cursor c1 pTimeBuffer, w1)
  end.

Definition log_tag (logLevel : LogLevelType) : cstring :=
  match logLevel with
  | LOG_LEVEL_ERROR => lit "[E]: "%string
  | LOG_LEVEL_WARN => lit "[W]: "%string
  | LOG_LEVEL_INFO => lit "[I]: "%string
  | LOG_LEVEL_DEBUG => lit "[D]: "%string
  | LOG_LEVEL_VERBOSE => lit "[V]: "%string
  end.

Definition newline : ascii := "010"%char.

Definition TextLogger_WriteToBuffer (p : LoggerContextPtr)
    (pLogText : option cstring) (logLength : Z) (logLevel : LogLevelType)
    (c : LoggerContext) (w : World)
  : TextLoggerStatusType * LoggerContext * World :=
  match p, pLogText with
  | PTR, Some text =>
    let pLogMsgTag := log_tag logLevel in
    let '(status, c1, w1) := TextLogger_LogTimeStamp p c w in
    if negb (is_success status) then (status, c1, w1)
    else
      let '(status2, c2, w2) :=
        if TextLogger_FlushBufferIsNeeded c1 logLength
        then TextLogger_FlushTextToFileStream p c1 w1
        else (TEXTLOGGER_SUCCESS, c1, w1) in
      if negb (is_success status2) then (status2, c2, w2)
      else (TEXTLOGGER_SUCCESS,
            write_at_cursor c2 (pLogMsgTag ++ text ++ [newline]), w2)
  | _, _ => (TEXTLOGGER_ERR_INVALID_INPUT, c, w)
  end.

(** The five per-severity calls.  [logLength] is a [size_t] and is passed
    to [TextLogger_WriteToBuffer] as an [int]. *)

Definition TextLogger_LogError (p : LoggerContextPtr)
    (pLogText : option cstring) (c : LoggerContext) (w : World)
  : TextLoggerStatusType * LoggerContext * World :=
  match p, pLogText with
  | PTR, Some text =>
    if level_ord LOG_LEVEL_ERROR <=? logLevel c then
      let logLength := to_size_t (strlen text + LOG_EXTRA_STR_LENGTH) in
      TextLogger_WriteToBuffer p pLogText (wrap_int logLength)
                               LOG_LEVEL_ERROR c w
    else (TEXTLOGGER_SUCCESS, c, w)
  | _, _ => (TEXTLOGGER_ERR_INVALID_INPUT, c, w)
  end.

Definition TextLogger_LogWarn (p : LoggerContextPtr)
    (pLogText : option cstring) (c : LoggerContext) (w : World)
  : TextLoggerStatusType * LoggerContext * World :=
  match p, pLogText with
  | PTR, Some text =>
    if level_ord LOG_LEVEL_WARN <=? logLevel c then
      let logLength := to_size_t (strlen text + LOG_EXTRA_STR_LENGTH) in
      TextLogger_WriteToBuffer p pLogText (wrap_int logLength)
                               LOG_LEVEL_WARN c w
    else (TEXTLOGGER_SUCCESS, c, w)
  | _, _ => (TEXTLOGGER_ERR_INVALID_INPUT, c, w)
  end.

Definition TextLogger_LogInfo (p : LoggerContextPtr)
    (pLogText : option cstring) (c : LoggerContext) (w : World)
  : TextLoggerStatusType * LoggerContext * World :=
  match p, pLogText with
  | PTR, Some text =>
    if level_ord LOG_LEVEL_INFO <=? logLevel c then
      let logLength := to_size_t (strlen text + LOG_EXTRA_STR_LENGTH) in
      TextLogger_WriteToBuffer p pLogText (wrap_int logLength)
                               LOG_LEVEL_INFO c w
    else (TEXTLOGGER_SUCCESS, c, w)
  | _, _ => (TEXTLOGGER_ERR_INVALID_INPUT, c, w)
  end.

Definition TextLogger_LogDebug (p : LoggerContextPtr)
    (pLogText : option cstring) (c : LoggerContext) (w : World)
  : TextLoggerStatusType * LoggerContext * World :=
  match p, pLogText with
  | PTR, Some text =>
    if level_ord LOG_LEVEL_DEBUG <=? logLevel c then
      let logLength := to_size_t (strlen text + LOG_EXTRA_STR_LENGTH) in
      TextLogger_WriteToBuffer p pLogText (wrap_int logLength)
                               LOG_LEVEL_DEBUG c w
    else (TEXTLOGGER_SUCCESS, c, w)
  | _, _ => (TEXTLOGGER_ERR_INVALID_INPUT, c, w)
  end.

Definition TextLogger_LogVerbose (p : LoggerContextPtr)
    (pLogText : option cstring) (c : LoggerContext) (w : World)
  : TextLoggerStatusType * LoggerContext * World :=
  match p, pLogText with
  | PTR, Some text =>
    if level_ord LOG_LEVEL_VERBOSE <=? logLevel c then
      let logLength := to_size_t (strlen text + LOG_EXTRA_STR_LENGTH) in
      TextLogger_WriteToBuffer p pLogText (wrap_int logLength)
                               LOG_LEVEL_VERBOSE c w
    else (TEXTLOGGER_SUCCESS, c, w)
  | _, _ => (TEXTLOGGER_ERR_INVALID_INPUT, c, w)
  end.

(** [TextLogger_Destroy]: the final flush, then every owned region is
    released; the context is gone ([None]) unless the pointer was NULL. *)
Definition TextLogger_Destroy (p : LoggerContextPtr)
    (c : LoggerContext) (w : World)
  : TextLoggerStatusType * option LoggerContext * World :=
  match p with
  | NULL => (TEXTLOGGER_ERR_INVALID_INPUT, Some c, w)
  | PTR =>
    let '(status, _, w1) := TextLogger_FlushTextToFileStream p c w in
    (status, None, w1)
  end.

(** *** Sequences of calls on one context *)

Inductive Call : Type :=
| CallLog (level : LogLevelType) (text : cstring)
| CallTimeStamp
| CallFlush.

(** The per-severity entry point of a level. *)
Definition log_call (level : LogLevelType) :=
  match level with
  | LOG_LEVEL_ERROR => TextLogger_LogError
  | LOG_LEVEL_WARN => TextLogger_LogWarn
  | LOG_LEVEL_INFO => TextLogger_LogInfo
  | LOG_LEVEL_DEBUG => TextLogger_LogDebug
  | LOG_LEVEL_VERBOSE => TextLogger_LogVerbose
  end.

Definition call (k : Call) (c : LoggerContext) (w : World)
  : TextLoggerStatusType * LoggerContext * World :=
  match k with
  | CallLog level text => log_call level PTR (Some text) c w
  | CallTimeStamp => TextLogger_LogTimeStamp PTR c w
  | CallFlush => TextLogger_FlushTextToFileStream PTR c w
  end.

(** Runs the calls in order; the statuses come back in the same order. *)
Fixpoint run (ks : list Call) (c : LoggerContext) (w : World)
  : list TextLoggerStatusType * LoggerContext * World :=
  match ks with
  | [] => ([], c, w)
  | k :: ks' =>
    let '(st, c1, w1) := call k c w in
    let '(sts, c2, w2) := run ks' c1 w1 in
    (st :: sts, c2, w2)
  end.

(** The bytes waiting in the scratch buffer. *)
Definition pending (c : LoggerContext) : list ascii :=
  firstn (Z.to_nat (currBytePos c)) (pTextBuffer c).

(** The number of bytes the logger's writes added to the file. *)
Definition appended (w : World) : Z :=
  Z.of_nat (length (concat (file_appends w))).

(** *** Branches and frames of a flush, for the statements below *)

(** The allocator grants the four requests of [TextLogger_Create]. *)
Definition grants (w : World) (path msg : cstring) (cap : Z) : Prop :=
  malloc_ok w sizeof_LoggerContext = true
  /\ malloc_ok w (to_size_t (strlen path + 1)) = true
  /\ malloc_ok w (to_size_t cap) = true
  /\ malloc_ok w (to_size_t (strlen msg + 1)) = true.

(** The step that [TextLogger_LogTimeStamp] and [TextLogger_WriteToBuffer]
    both make with a formatted text [s] and its length bound [len]: flush
    first if the decision says so, give up if that flush fails, then format
    at the cursor. *)
Definition flush_then_write (c : LoggerContext) (w : World) (len : Z)
    (s : cstring) : TextLoggerStatusType * LoggerContext * World :=
  if TextLogger_FlushBufferIsNeeded c len then
    let '(st, c1, w1) := TextLogger_FlushTextToFileStream PTR c w in
    if is_success st
    then (TEXTLOGGER_SUCCESS, write_at_cursor c1 s, w1)
    else (st, c1, w1)
  else (TEXTLOGGER_SUCCESS, write_at_cursor c s, w).

(** The tagged line of a record. *)
Definition tagged_line (level : LogLevelType) (text : cstring) : cstring :=
  log_tag level ++ text ++ [newline].

(** The timestamp that the next call reads from the clock. *)
Definition next_timestamp (w : World) : cstring :=
  format_timestamp (clock w (ticks w)).

(** The ledger of a context in use: cursor and accounting are counts, the
    cursor is part of the accounting, the budget is positive. *)
Definition sound (c : LoggerContext) : Prop :=
  0 <= currBytePos c
  /\ currBytePos c <= totalBytesStored c
  /\ totalBytesStored c <= int_max
  /\ 0 < maxFileSize c <= int_max.

(** What a step from [(c, w)] to [(c', w')] keeps: the ledger stays sound,
    the budget is the same, and the accounting moves with the cursor and the
    bytes appended to the file. *)
Definition balanced (c c' : LoggerContext) (w w' : World) : Prop :=
  sound c'
  /\ maxFileSize c' = maxFileSize c
  /\ totalBytesStored c' - currBytePos c' - appended w'
     = totalBytesStored c - currBytePos c - appended w.

(** The scratch buffer of a context in use: the allocation has the size of
    the capacity and the cursor is inside it. *)
Definition tidy (c : LoggerContext) : Prop :=
  length (pTextBuffer c) = Z.to_nat (maxBufferByteSize c)
  /\ 0 <= currBytePos c <= maxBufferByteSize c
  /\ maxBufferByteSize c <= int_max.

(** The texts that a call formats fit the capacity with their NUL. *)
Definition fits (k : Call) (c : LoggerContext) (w : World) : Prop :=
  match k with
  | CallLog _ text =>
    strlen (next_timestamp w) < maxBufferByteSize c
    /\ strlen text + LOG_EXTRA_STR_LENGTH < maxBufferByteSize c
  | CallTimeStamp => strlen (next_timestamp w) < maxBufferByteSize c
  | CallFlush => True
  end.

(** Every timestamp that the clock can give fits the capacity [cap] with its
    NUL. *)
Definition clock_fits (cap : Z) (w : World) : Prop :=
  forall n, strlen (format_timestamp (clock w n)) < cap.

(** The tagged line of a log call fits the capacity [cap] with its NUL. *)
Definition text_fits (cap : Z) (k : Call) : Prop :=
  match k with
  | CallLog _ text => strlen text + LOG_EXTRA_STR_LENGTH < cap
  | _ => True
  end.

(** The bytes [bs] hold the text [line] whole. *)
Definition holds (bs line : list ascii) : Prop :=
  exists pre post, bs = pre ++ line ++ post.

(** The text [line] is whole in the pending bytes of [c], or whole inside one
    of the writes [new] made to the file. *)
Definition carried (line : cstring) (c : LoggerContext)
    (new : list (list ascii)) : Prop :=
  holds (pending c) line \/ Exists (fun chunk => holds chunk line) new.

(** The most bytes a call can put in the scratch buffer at once. *)
Definition call_bound (k : Call) : Z :=
  match k with
  | CallLog _ text => Z.max (MAX_STR_SIZE - 1) (strlen text + LOG_EXTRA_STR_LENGTH)
  | CallTimeStamp => MAX_STR_SIZE - 1
  | CallFlush => 0
  end.

(** The overshoot-check branch of a flush: bytes are pending, the accounting
    is below the budget, the file opens, and its length with the pending
    bytes added exceeds the budget. *)
Definition overshoot (c : LoggerContext) (w : World) : Prop :=
  totalBytesStored c < maxFileSize c
  /\ currBytePos c <> 0
  /\ os w (opens w) <> OpenFails
  /\ currBytePos c + ftell_end w > maxFileSize c.

(** The accounting has reached the budget and the latch is set. *)
Definition exhausted (c : LoggerContext) : Prop :=
  fileLimitIsReached c = true /\ maxFileSize c <= totalBytesStored c.

(** The status of a call on an exhausted context. *)
Definition refusal (c : LoggerContext) (k : Call) : TextLoggerStatusType :=
  match k with
  | CallLog level _ =>
    if level_ord level <=? logLevel c
    then TEXTLOGGER_ERR_INSUFFICIENT_FILE_SPACE
    else TEXTLOGGER_SUCCESS
  | _ => TEXTLOGGER_ERR_INSUFFICIENT_FILE_SPACE
  end.

(** What a flush that fails with a file error leaves of the context [c]:
    buffer, cursor and accounting as they were, the latch as it was unless
    the accounting had reached the budget, where it is set before the
    end-marker is attempted. *)
Definition kept_on_file_error (c c' : LoggerContext) : Prop :=
  pTextBuffer c' = pTextBuffer c
  /\ currBytePos c' = currBytePos c
  /\ totalBytesStored c' = totalBytesStored c
  /\ fileLimitIsReached c'
     = (fileLimitIsReached c || (maxFileSize c <=? totalBytesStored c)).

(** The clock, and the number of times it was read, are the same in both
    worlds. *)
Definition same_time (w w' : World) : Prop :=
  clock w' = clock w /\ ticks w' = ticks w.

(** The file is the same in both worlds. *)
Definition same_file (w w' : World) : Prop :=
  file_init w' = file_init w /\ file_appends w' = file_appends w.

(** *** Sample worlds and texts *)

Definition noon : tm := mk_tm 124 4 7 12 0 0.

(** A world with the given file, a clock stuck at [noon], a file layer
    following [faults] and an allocator that grants everything. *)
Definition world_of (disk : list ascii) (faults : nat -> FileOutcome) : World :=
  mk_World disk [] (fun _ => noon) 0 faults 0 (fun _ => true).

Definition calm (disk : list ascii) : World :=
  world_of disk (fun _ => Healthy).

Definition test_path : cstring := lit "./TestLog.txt"%string.

(** A world like [calm []] whose allocator grants the requests of fewer than
    [limit] bytes and refuses the others. *)
Definition finite_heap (limit : Z) : World :=
  mk_World [] [] (fun _ => noon) 0 (fun _ => Healthy) 0 (fun n => n <? limit).

(** A file layer whose first [fwrite] takes at most [k] bytes and which works
    afterwards. *)
Definition stops_once (k : Z) (n : nat) : FileOutcome :=
  match n with
  | O => WriteStops k
  | S _ => Healthy
  end.

(** A context created with the end-marker [marker], level VERBOSE, and the
    calls [ks] made on it, all in the world [w]. *)
Definition session (marker : cstring) (cap budget : Z) (w : World)
    (ks : list Call)
  : option (list TextLoggerStatusType * LoggerContext * World) :=
  match TextLogger_Create (Some test_path) (Some marker) 5 cap budget w with
  | Some c => Some (run ks c w)
  | None => None
  end.

(** The context that [TextLogger_Create] returns for the capacity 64, the
    budget 2048 and the end-marker X. *)
Definition fresh : LoggerContext :=
  mk_LoggerContext (repeat NUL 64) test_path (lit "X"%string)
                   5 64 2046 0 0 false.

(** A context of capacity 64 and effective budget 198, with 50 bytes pending
    of the 150 accounted. *)
Definition half_full : LoggerContext :=
  mk_LoggerContext (repeat NUL 64) test_path (lit "X"%string)
                   5 64 198 50 150 false.

(** A context of capacity 64 whose accounting, 48, is past the effective
    budget, 28, with the latch set. *)
Definition spent : LoggerContext :=
  mk_LoggerContext (repeat NUL 64) test_path (lit "X"%string)
                   3 64 28 0 48 true.

(** The same before the end-marker was attempted. *)
Definition overdrawn : LoggerContext :=
  mk_LoggerContext (repeat NUL 64) test_path (lit "X"%string)
                   3 64 28 24 48 false.

(** A file layer whose first [fopen] succeeds and whose later ones fail. *)
Definition fails_after_first (n : nat) : FileOutcome :=
  match n with
  | O => Healthy
  | S _ => OpenFails
  end.

(** A context of capacity 256 and effective budget 296 holding 200 pending
    bytes. *)
Definition loaded : LoggerContext :=
  mk_LoggerContext (repeat "a"%char 256) test_path (lit "END"%string)
                   5 256 296 200 200 false.

(** The end-marker of the driver. *)
Definition limit_marker : cstring :=
  [newline] ++ lit "[ERR LIMIT]"%string.

Definition forty : cstring :=
  lit "0123456789012345678901234567890123456789"%string.

(** *** The diagnostic and the statements about whole sessions *)

(** [TextLogger_PrintCurrFileSize].  The file is opened and closed twice, in
    binary and in text append mode, which the file layer of the embedding
    does not tell apart; the three numbers given to [printf] come back as the
    second component, in the order printed. *)
Definition TextLogger_PrintCurrFileSize (p : LoggerContextPtr)
    (c : LoggerContext) (w : World)
  : TextLoggerStatusType * option (Z * Z * Z) * LoggerContext * World :=
  match p with
  | NULL => (TEXTLOGGER_ERR_INVALID_INPUT, None, c, w)
  | PTR =>
    match fopen_ab w with
    | (None, w1) => (TEXTLOGGER_ERR_FILE_ERROR, None, c, w1)
    | (Some _, w1) =>
      let currFileSizeAb := ftell_end w1 in
      match fopen_ab w1 with
      | (None, w2) => (TEXTLOGGER_ERR_FILE_ERROR, None, c, w2)
      | (Some _, w2) =>
        let currFileSizeA := ftell_end w2 in
        (TEXTLOGGER_SUCCESS,
         Some (currFileSizeAb, currFileSizeA, totalBytesStored c), c, w2)
      end
    end
  end.

(** The bytes that a call puts in the scratch buffer when it succeeds: the
    timestamp read from the clock and, for an admitted record, its tagged
    line. *)
Definition said (k : Call) (c : LoggerContext) (w : World) : list ascii :=
  match k with
  | CallLog level text =>
    if level_ord level <=? logLevel c
    then next_timestamp w ++ tagged_line level text
    else []
  | CallTimeStamp => next_timestamp w
  | CallFlush => []
  end.

(** The same for the calls of a session, in order. *)
Fixpoint transcript (ks : list Call) (c : LoggerContext) (w : World)
  : list ascii :=
  match ks with
  | [] => []
  | k :: ks' =>
    let '(_, c1, w1) := call k c w in
    said k c w ++ transcript ks' c1 w1
  end.

(** The file is within the budget of the context: no longer than the
    effective budget while the latch is clear, and no longer than the
    effective budget and the end-marker once it is set. *)
Definition within_budget (c : LoggerContext) (w : World) : Prop :=
  ftell_end w
  <= maxFileSize c
     + (if fileLimitIsReached c then strlen (pErrMsg c) else 0).

(** The fields of a plausible [struct tm]: a year of four digits, and the
    other fields in their calendar ranges. *)
Definition calendar (t : tm) : Prop :=
  1000 <= tm_year t + 1900 <= 9999
  /\ 0 <= tm_mon t <= 11
  /\ 1 <= tm_mday t <= 31
  /\ 0 <= tm_hour t <= 23
  /\ 0 <= tm_min t <= 59
  /\ 0 <= tm_sec t <= 60.

(** [f] holds of the [n] integers from [lo] on. *)
Fixpoint all_from (f : Z -> bool) (n : nat) (lo : Z) : bool :=
  match n with
  | O => true
  | S n' => f lo && all_from f n' (lo + 1)
  end.

(** The configuration of [c'] is that of [c]. *)
Definition same_configuration (c c' : LoggerContext) : Prop :=
  pFilePath c' = pFilePath c
  /\ pErrMsg c' = pErrMsg c
  /\ logLevel c' = logLevel c
  /\ maxBufferByteSize c' = maxBufferByteSize c
  /\ maxFileSize c' = maxFileSize c
  /\ length (pTextBuffer c') = length (pTextBuffer c).

(** The file layer never fails: every [fopen] succeeds and every [fwrite]
    takes all its bytes. *)
Definition dependable (w : World) : Prop := forall n, os w n = Healthy.

(** A status that a caller may read as "go on". *)
Definition goes_on (s : TextLoggerStatusType) : Prop :=
  s = TEXTLOGGER_SUCCESS \/ s = TEXTLOGGER_ERR_INSUFFICIENT_FILE_SPACE.

(** ** app.c *)

Module App.

Definition MAX_STR_BYTE_SIZE : Z := 1024.
Definition MAX_FILE_SIZE : Z := 2048.

Definition spFileName : cstring := lit "./TestLog.txt"%string.
Definition spFileLimitErrMsg : cstring := [newline] ++ lit "[ERR LIMIT]"%string.

(** The keys that [main] binds to a call of the logger, and the calls that
    go through the buffer. *)
Definition bound_keys : list ascii := lit "12345fo"%string.

Definition bound_calls : list Call :=
  [CallLog LOG_LEVEL_ERROR (lit "Error statement"%string);
   CallLog LOG_LEVEL_WARN (lit "Warn statement"%string);
   CallLog LOG_LEVEL_INFO (lit "Info statement"%string);
   CallLog LOG_LEVEL_DEBUG (lit "Debug statement"%string);
   CallLog LOG_LEVEL_VERBOSE (lit "Verbose statement"%string);
   CallFlush].

(** The value of a status as the [int] it is compared as. *)
Definition status_code (s : TextLoggerStatusType) : Z :=
  match s with
  | TEXTLOGGER_SUCCESS => 0
  | TEXTLOGGER_ERR_FILE_ERROR => 1
  | TEXTLOGGER_ERR_INVALID_INPUT => 2
  | TEXTLOGGER_ERR_INSUFFICIENT_FILE_SPACE => 3
  end.

(** How [main] has ended, if it has: with a return value, or still polling
    the keyboard when the keys given to the embedding are used up. *)
Inductive Exit : Type :=
| Returned (code : Z)
| Polling.

(** The body of [if (_kbhit ())] for the key read by [_getch]: whether the
    loop goes on, the value of [status], the context and the world.  A key
    that is not bound leaves [status] as it was. *)
Definition key_pressed (keypressed : ascii) (status : Z) (c : LoggerContext)
    (w : World) : bool * Z * LoggerContext * World :=
  if Ascii.eqb keypressed "q" then (false, status, c, w)
  else if Ascii.eqb keypressed "1" then
    let '(st, c1, w1) :=
      TextLogger_LogError PTR (Some (lit "Error statement"%string)) c w in
    (true, status_code st, c1, w1)
  else if Ascii.eqb keypressed "2" then
    let '(st, c1, w1) :=
      TextLogger_LogWarn PTR (Some (lit "Warn statement"%string)) c w in
    (true, status_code st, c1, w1)
  else if Ascii.eqb keypressed "3" then
    let '(st, c1, w1) :=
      TextLogger_LogInfo PTR (Some (lit "Info statement"%string)) c w in
    (true, status_code st, c1, w1)
  else if Ascii.eqb keypressed "4" then
    let '(st, c1, w1) :=
      TextLogger_LogDebug PTR (Some (lit "Debug statement"%string)) c w in
    (true, status_code st, c1, w1)
  else if Ascii.eqb keypressed "5" then
    let '(st, c1, w1) :=
      TextLogger_LogVerbose PTR (Some (lit "Verbose statement"%string)) c w in
    (true, status_code st, c1, w1)
  else if Ascii.eqb keypressed "f" then
    let '(st, c1, w1) := TextLogger_FlushTextToFileStream PTR c w in
    (true, status_code st, c1, w1)
  else if Ascii.eqb keypressed "o" then
    let '(st, _, c1, w1) := TextLogger_PrintCurrFileSize PTR c w in
    (true, status_code st, c1, w1)
  else (true, status, c, w).

(** After the loop: [TextLogger_Destroy], whose status is not looked at, and
    [return 0]. *)
Definition stopped (c : LoggerContext) (w : World)
  : Exit * option LoggerContext * World :=
  let '(_, c', w') := TextLogger_Destroy PTR c w in
  (Returned 0, c', w').

(** The loop of [main], one turn for each key pressed; the turns where no key
    was pressed do nothing.  On a file error [main] returns at once, without
    destroying the context. *)
Fixpoint polling (keys : list ascii) (status : Z) (c : LoggerContext)
    (w : World) : Exit * option LoggerContext * World :=
  match keys with
  | [] => (Polling, Some c, w)
  | keypressed :: rest =>
    let '(sAppRunning, status1, c1, w1) := key_pressed keypressed status c w in
    if status_code TEXTLOGGER_ERR_INSUFFICIENT_FILE_SPACE =? status1 then
      if sAppRunning then polling rest status1 c1 w1 else stopped c1 w1
    else if status_code TEXTLOGGER_ERR_FILE_ERROR =? status1 then
      (Returned (-1), Some c1, w1)
    else if sAppRunning then polling rest status1 c1 w1
    else stopped c1 w1
  end.

(** [main].  [status] is not initialised: [garbage] is what it holds until a
    bound key is pressed.  What [printf] writes is left out. *)
Definition main (garbage : Z) (keys : list ascii) (w : World)
  : Exit * option LoggerContext * World :=
  match TextLogger_Create (Some spFileName) (Some spFileLimitErrMsg)
                          (level_ord LOG_LEVEL_VERBOSE)
                          MAX_STR_BYTE_SIZE MAX_FILE_SIZE w with
  | None => (Returned 1, None, w)
  | Some pLogContext1 => polling keys garbage pLogContext1 w
  end.

End App.

(** * Properties *)

Arguments TextLogger_FlushTextToFileStream : simpl never.
Arguments TextLogger_FlushErrMsgToFileStream : simpl never.
Arguments TextLogger_FlushBufferIsNeeded : simpl never.
Arguments TextLogger_LogTimeStamp : simpl never.
Arguments TextLogger_WriteToBuffer : simpl never.
Arguments write_at_cursor : simpl never.
Arguments fopen_ab : simpl never.
Arguments fwrite : simpl never.
Arguments localtime_now : simpl never.

(** ** Integer conversions *)

Section Conversions.

Lemma wrap_int_id (z : Z) : int_range z -> wrap_int z = z.
Proof.
  unfold int_range, int_min, int_max, wrap_int. intros H.
  rewrite Z.mod_small; lia.
Qed.

Lemma wrap_int_range (z : Z) : int_range (wrap_int z).
Proof.
  unfold int_range, int_min, int_max, wrap_int.
  pose proof (Z.mod_pos_bound (z + 2 ^ 31) (2 ^ 32)). lia.
Qed.

Lemma to_size_t_id (z : Z) : 0 <= z < 2 ^ 64 -> to_size_t z = z.
Proof. unfold to_size_t. intros H. apply Z.mod_small. exact H. Qed.

(** Going through [size_t] on the way to [int] changes nothing: 2^32 divides
    2^64. *)
Lemma wrap_int_to_size_t (z : Z) : wrap_int (to_size_t z) = wrap_int z.
Proof.
  unfold wrap_int, to_size_t. f_equal.
  rewrite <- Z.add_mod_idemp_l by lia.
  rewrite Z.mod_mod_divide by (exists (2 ^ 32); reflexivity).
  apply Z.add_mod_idemp_l. lia.
Qed.

Lemma wrap_int_add_l (a b : Z) : wrap_int (wrap_int a + b) = wrap_int (a + b).
Proof.
  unfold wrap_int. f_equal.
  replace (((a + 2 ^ 31) mod 2 ^ 32 - 2 ^ 31) + b + 2 ^ 31)
    with ((a + 2 ^ 31) mod 2 ^ 32 + b) by lia.
  rewrite Z.add_mod_idemp_l by lia. f_equal. lia.
Qed.

Lemma to_size_t_add_l (a b : Z) :
  to_size_t (to_size_t a + b) = to_size_t (a + b).
Proof. unfold to_size_t. apply Z.add_mod_idemp_l. lia. Qed.

(** [i += n] is the sum reduced into [int]. *)
Lemma int_add_size_t_wrap (i n : Z) : int_add_size_t i n = wrap_int (i + n).
Proof.
  unfold int_add_size_t. rewrite wrap_int_to_size_t, <- wrap_int_to_size_t.
  rewrite to_size_t_add_l. apply wrap_int_to_size_t.
Qed.

Lemma int_add_size_t_exact (i n : Z) :
  int_range (i + n) -> int_add_size_t i n = i + n.
Proof. intros H. rewrite int_add_size_t_wrap. apply wrap_int_id, H. Qed.

End Conversions.

(** The limits of [int] as equations, for [lia]. *)
Ltac int_limits :=
  let Hmax := fresh "Hmax" in
  let Hmin := fresh "Hmin" in
  assert (Hmax : int_max = 2 ^ 31 - 1) by reflexivity;
  assert (Hmin : int_min = - 2 ^ 31) by reflexivity.

(** A value is in the range of [int], given the limits. *)
Ltac in_int := unfold int_range; lia.

(** ** The flush-decision predicate *)

Section FlushDecision.

Variable c : LoggerContext.
Variable len_next : Z.

(** C5.  The flush-decision predicate answers true exactly when the room left
    under the file budget, [maxFileSize - totalBytesStored], or the room left
    in the scratch buffer, [maxBufferByteSize - currBytePos], is at most
    [len_next].  The two differences are taken in [int]; the statement is for
    the states where they are values of [int], which are the states where C
    defines them. *)
Theorem flush_decision_iff :
  int_range (maxFileSize c - totalBytesStored c) ->
  int_range (maxBufferByteSize c - currBytePos c) ->
  TextLogger_FlushBufferIsNeeded c len_next = true <->
  (maxFileSize c - totalBytesStored c <= len_next
   \/ maxBufferByteSize c - currBytePos c <= len_next).
Proof.
  intros Hfile Hbuf. unfold TextLogger_FlushBufferIsNeeded.
  rewrite (wrap_int_id _ Hfile), (wrap_int_id _ Hbuf).
  rewrite orb_true_iff, !Z.leb_le. reflexivity.
Qed.

End FlushDecision.

Lemma flush_decision_iff_witness :
  TextLogger_FlushBufferIsNeeded half_full 24 = true
  <-> (maxFileSize half_full - totalBytesStored half_full <= 24
       \/ maxBufferByteSize half_full - currBytePos half_full <= 24).
Proof.
  apply (flush_decision_iff half_full 24);
    unfold int_range, int_min, int_max; simpl; lia.
Defined.

(** ** The per-severity entry points *)

(** Each per-severity entry point compares its own level with [logLevel]
    and either hands the record on or returns SUCCESS at once. *)
Lemma log_call_unfold (level : LogLevelType) (text : cstring)
    (c : LoggerContext) (w : World) :
  log_call level PTR (Some text) c w =
  if level_ord level <=? logLevel c
  then TextLogger_WriteToBuffer PTR (Some text)
         (wrap_int (to_size_t (strlen text + LOG_EXTRA_STR_LENGTH))) level c w
  else (TEXTLOGGER_SUCCESS, c, w).
Proof. destruct level; reflexivity. Qed.

(** ** Creation *)

Section Creation.

Variables path msg : cstring.
Variables level cap budget : Z.
Variable w : World.

Lemma effective_budget :
  int_range (budget - (strlen msg + 1)) ->
  wrap_int (to_size_t (to_size_t budget - (strlen msg + 1)))
  = budget - (strlen msg + 1).
Proof.
  intros H. rewrite wrap_int_to_size_t, <- wrap_int_to_size_t.
  replace (to_size_t budget - (strlen msg + 1))
    with (to_size_t budget + - (strlen msg + 1)) by lia.
  rewrite to_size_t_add_l, wrap_int_to_size_t.
  apply wrap_int_id. replace (budget + - (strlen msg + 1))
    with (budget - (strlen msg + 1)) by lia. exact H.
Qed.

Lemma create_rejects_null (p m : option cstring) :
  p = None \/ m = None ->
  TextLogger_Create p m level cap budget w = None.
Proof. intros [-> | ->]; [ | destruct p ]; reflexivity. Qed.

Lemma create_rejects_small_budget :
  int_range (budget - (strlen msg + 1)) ->
  budget - (strlen msg + 1) <= 0 ->
  TextLogger_Create (Some path) (Some msg) level cap budget w = None.
Proof.
  intros Hr Hle. unfold TextLogger_Create. rewrite (effective_budget Hr).
  destruct (negb (malloc_ok w sizeof_LoggerContext)); [reflexivity | ].
  destruct (Z.geb_spec 0 (budget - (strlen msg + 1))); [reflexivity | lia].
Qed.

Lemma create_accepts :
  int_range (budget - (strlen msg + 1)) ->
  0 < budget - (strlen msg + 1) ->
  grants w path msg cap ->
  TextLogger_Create (Some path) (Some msg) level cap budget w
  = Some (mk_LoggerContext (repeat NUL (Z.to_nat (to_size_t cap)))
            path msg level cap (budget - (strlen msg + 1)) 0 0 false).
Proof.
  intros Hr Hpos (G1 & G2 & G3 & G4). unfold TextLogger_Create.
  rewrite (effective_budget Hr), G1, G2, G3, G4. simpl.
  destruct (Z.geb_spec 0 (budget - (strlen msg + 1))); [lia | reflexivity].
Qed.

End Creation.

(** A context that [TextLogger_Create] returns for a capacity that is a
    non-negative [int] has a sound ledger and a tidy scratch buffer. *)
Lemma create_sound_and_tidy (p m : option cstring) (level cap budget : Z)
    (w : World) (c : LoggerContext) :
  0 <= cap <= int_max ->
  TextLogger_Create p m level cap budget w = Some c ->
  sound c /\ tidy c.
Proof.
  intros Hcap. int_limits. unfold TextLogger_Create.
  destruct p as [path | ]; [ | discriminate].
  destruct m as [msg | ]; [ | discriminate].
  destruct (negb (malloc_ok w sizeof_LoggerContext)); [discriminate | ].
  set (size := wrap_int _).
  pose proof (wrap_int_range (to_size_t (to_size_t budget - (strlen msg + 1))))
    as Hsize. fold size in Hsize. unfold int_range in Hsize.
  destruct (Z.geb_spec 0 size); [discriminate | ].
  destruct (negb _); [discriminate | ].
  destruct (negb _); [discriminate | ].
  destruct (negb _); [discriminate | ].
  intros Hc; inversion Hc; subst. unfold sound, tidy. simpl.
  rewrite repeat_length, to_size_t_id by lia. repeat split; lia.
Qed.

(** C9, amended.  [TextLogger_Create] returns NULL when [pFilePath] or
    [pErrMsg] is NULL, and when the budget less the end-marker and one byte,
    [maxFileSize - (strlen pErrMsg + 1)], is not positive.  Otherwise, the
    allocator permitting, it returns a context with the ledger zeroed and the
    latch false.  An empty string is a string like any other: only the NULL
    pointer is refused. *)
Theorem create_validation (p m : option cstring) (level cap budget : Z)
    (w : World) :
  (p = None \/ m = None -> TextLogger_Create p m level cap budget w = None)
  /\ (forall path msg,
        p = Some path -> m = Some msg ->
        int_range (budget - (strlen msg + 1)) ->
        (budget - (strlen msg + 1) <= 0 ->
         TextLogger_Create p m level cap budget w = None)
        /\ (0 < budget - (strlen msg + 1) ->
            grants w path msg cap ->
            exists c,
              TextLogger_Create p m level cap budget w = Some c
              /\ currBytePos c = 0
              /\ totalBytesStored c = 0
              /\ fileLimitIsReached c = false
              /\ maxFileSize c = budget - (strlen msg + 1)
              /\ pFilePath c = path /\ pErrMsg c = msg)).
Proof.
  split.
  - apply create_rejects_null.
  - intros path msg -> -> Hr. split.
    + intros Hle. apply create_rejects_small_budget; assumption.
    + intros Hpos Hg. eexists. split.
      * apply create_accepts; eassumption.
      * simpl. repeat split; reflexivity.
Qed.

Lemma create_validation_witness :
  TextLogger_Create None (Some (lit "X"%string)) 5 512 200 (calm []) = None
  /\ TextLogger_Create (Some test_path) (Some (lit "X"%string)) 5 512 2
                       (calm []) = None
  /\ exists c,
       TextLogger_Create (Some test_path) (Some (lit "X"%string)) 5 512 200
                         (calm []) = Some c
       /\ currBytePos c = 0 /\ totalBytesStored c = 0
       /\ fileLimitIsReached c = false /\ maxFileSize c = 198
       /\ pFilePath c = test_path /\ pErrMsg c = lit "X"%string.
Proof.
  assert (Hr : forall b, -100 <= b <= 5000 ->
                 int_range (b - (strlen (lit "X"%string) + 1))).
  { intros b Hb. unfold int_range, int_min, int_max. simpl. lia. }
  split; [ | split ].
  - apply (create_validation None (Some (lit "X"%string)) 5 512 200 (calm [])).
    left. reflexivity.
  - destruct (create_validation (Some test_path) (Some (lit "X"%string))
                5 512 2 (calm [])) as [_ H].
    destruct (H test_path (lit "X"%string) eq_refl eq_refl (Hr 2 ltac:(lia)))
      as [Hsmall _].
    apply Hsmall. simpl. lia.
  - destruct (create_validation (Some test_path) (Some (lit "X"%string))
                5 512 200 (calm [])) as [_ H].
    destruct (H test_path (lit "X"%string) eq_refl eq_refl (Hr 200 ltac:(lia)))
      as [_ Hbig].
    apply Hbig; [ simpl; lia | repeat split ].
Defined.

(** C9 as stated fails: a zero-byte [pFilePath], and a zero-byte [pErrMsg],
    are accepted. *)
Lemma create_accepts_empty_strings :
  TextLogger_Create (Some []) (Some (lit "X"%string)) 5 1024 2048 (calm [])
    <> None
  /\ TextLogger_Create (Some test_path) (Some []) 5 1024 2048 (calm [])
    <> None.
Proof. split; vm_compute; discriminate. Qed.

(** The budget test is made on the [int] that the [size_t] difference is
    stored in: a budget at the lower limit of [int] wraps to a positive
    effective budget and is accepted.  The statements about creation are for
    the budgets where the difference is a value of [int]. *)
Remark create_budget_wraps :
  exists c,
    TextLogger_Create (Some test_path) (Some (lit "X"%string)) 5 64 int_min
                      (calm []) = Some c
    /\ maxFileSize c = int_max - 1.
Proof. eexists. split; [ vm_compute; reflexivity | reflexivity ]. Qed.

(** The request made for the scratch buffer when the capacity is negative:
    the conversion to [size_t] adds 2^64. *)
Lemma to_size_t_negative (z : Z) :
  int_min <= z < 0 -> to_size_t z = 2 ^ 64 + z.
Proof.
  unfold int_min. intros H. unfold to_size_t.
  rewrite <- (Z_mod_plus_full z 1 (2 ^ 64)).
  rewrite Z.mod_small; lia.
Qed.

(** C10.  [TextLogger_Create] does not look at [maxBufferByteSize]: the value
    is stored as it is and converted to [size_t] for the request of the
    scratch buffer, and only the answer of [malloc] to that request decides.
    With both strings present, a budget that leaves room after the end-marker
    and one byte, and the three other requests granted: for the capacity 0
    the request is for 0 bytes, for a negative capacity it is for the
    capacity plus 2^64 bytes, which is at least 2^64 - 2^31; if the request
    is granted the context is returned with that capacity, zero or negative,
    and if it is refused the result is NULL. *)
Theorem create_ignores_capacity (path msg : cstring) (level cap budget : Z)
    (w : World) :
  int_min <= cap <= 0 ->
  int_range (budget - (strlen msg + 1)) ->
  0 < budget - (strlen msg + 1) ->
  malloc_ok w sizeof_LoggerContext = true ->
  malloc_ok w (to_size_t (strlen path + 1)) = true ->
  malloc_ok w (to_size_t (strlen msg + 1)) = true ->
  let request := if cap =? 0 then 0 else 2 ^ 64 + cap in
  (cap < 0 -> 2 ^ 64 - 2 ^ 31 <= request)
  /\ (malloc_ok w request = true ->
      exists c,
        TextLogger_Create (Some path) (Some msg) level cap budget w = Some c
        /\ maxBufferByteSize c = cap)
  /\ (malloc_ok w request = false ->
      TextLogger_Create (Some path) (Some msg) level cap budget w = None).
Proof.
  intros Hcap Hr Hpos Hctx Hpath Hmsg request.
  assert (Hrequest : to_size_t cap = request).
  { unfold request. destruct (Z.eqb_spec cap 0) as [-> | Hneg].
    - reflexivity.
    - apply to_size_t_negative. lia. }
  split; [ | split].
  - intros Hneg. unfold request, int_min in *.
    destruct (Z.eqb_spec cap 0); lia.
  - intros Hbuf. eexists. split.
    + apply create_accepts; [exact Hr | exact Hpos | ].
      unfold grants. rewrite Hrequest. repeat split; assumption.
    + reflexivity.
  - intros Hbuf. unfold TextLogger_Create.
    rewrite (effective_budget msg budget Hr), Hctx. simpl negb. cbv iota.
    destruct (Z.geb_spec 0 (budget - (strlen msg + 1))); [reflexivity | ].
    rewrite Hpath, Hrequest, Hbuf. reflexivity.
Qed.

Lemma create_ignores_capacity_witness :
  (-1 < 0 -> 2 ^ 64 - 2 ^ 31 <= 2 ^ 64 + -1)
  /\ (malloc_ok (finite_heap (2 ^ 47)) (2 ^ 64 + -1) = true ->
      exists c,
        TextLogger_Create (Some test_path) (Some (lit "X"%string)) 5 (-1) 2048
                          (finite_heap (2 ^ 47)) = Some c
        /\ maxBufferByteSize c = -1)
  /\ (malloc_ok (finite_heap (2 ^ 47)) (2 ^ 64 + -1) = false ->
      TextLogger_Create (Some test_path) (Some (lit "X"%string)) 5 (-1) 2048
                        (finite_heap (2 ^ 47)) = None).
Proof.
  apply (create_ignores_capacity test_path (lit "X"%string) 5 (-1) 2048
           (finite_heap (2 ^ 47)));
    [ unfold int_min; lia
    | unfold int_range, int_min, int_max; simpl; lia
    | simpl; lia
    | reflexivity
    | reflexivity
    | reflexivity ].
Defined.

(** C10 as stated fails for the negative capacities: an allocator that
    grants the requests below 2^47 bytes, and so the capacities 0 and 1024,
    refuses the request made for the capacity -1 and for the lowest [int],
    and [TextLogger_Create] returns NULL. *)
Lemma negative_capacity_is_refused :
  TextLogger_Create (Some test_path) (Some (lit "X"%string)) 5 (-1) 2048
                    (finite_heap (2 ^ 47)) = None
  /\ TextLogger_Create (Some test_path) (Some (lit "X"%string)) 5 int_min 2048
                       (finite_heap (2 ^ 47)) = None
  /\ TextLogger_Create (Some test_path) (Some (lit "X"%string)) 5 0 2048
                       (finite_heap (2 ^ 47)) <> None
  /\ TextLogger_Create (Some test_path) (Some (lit "X"%string)) 5 1024 2048
                       (finite_heap (2 ^ 47)) <> None.
Proof.
  split; [vm_compute; reflexivity | ].
  split; [vm_compute; reflexivity | ].
  split; vm_compute; discriminate.
Qed.

(** ** Timestamps *)

Lemma format_timestamp_length (t : tm) :
  0 <= strlen (format_timestamp t) <= 127.
Proof.
  unfold strlen, format_timestamp. split; [lia | ].
  pose proof (firstn_le_length (Z.to_nat (MAX_STR_SIZE - 1))
                (timestamp_text t)) as H.
  change (Z.to_nat (MAX_STR_SIZE - 1)) with 127%nat in *. lia.
Qed.

Lemma timestamp_length_int (t : tm) :
  wrap_int (strlen (format_timestamp t)) = strlen (format_timestamp t).
Proof.
  apply wrap_int_id. pose proof (format_timestamp_length t).
  unfold int_range, int_min, int_max. lia.
Qed.

(** The timestamp call on a context is one flush-then-write step. *)
Lemma timestamp_unfold (c : LoggerContext) (w : World) :
  TextLogger_LogTimeStamp PTR c w =
  flush_then_write c (snd (localtime_now w))
                   (strlen (next_timestamp w)) (next_timestamp w).
Proof.
  unfold TextLogger_LogTimeStamp, flush_then_write, next_timestamp, localtime_now.
  cbv zeta iota beta. rewrite timestamp_length_int. simpl snd.
  destruct (TextLogger_FlushBufferIsNeeded c _); [ | reflexivity].
  destruct (TextLogger_FlushTextToFileStream PTR c _) as [[st c1] w1].
  destruct st; reflexivity.
Qed.

(** The write of a record is the timestamp call and, if it succeeds, one more
    flush-then-write step with the tagged line. *)
Lemma write_unfold (text : cstring) (len : Z) (level : LogLevelType)
    (c : LoggerContext) (w : World) :
  TextLogger_WriteToBuffer PTR (Some text) len level c w =
  let '(st, c1, w1) := TextLogger_LogTimeStamp PTR c w in
  if is_success st
  then flush_then_write c1 w1 len (tagged_line level text)
  else (st, c1, w1).
Proof.
  unfold TextLogger_WriteToBuffer, flush_then_write, tagged_line. cbv zeta.
  destruct (TextLogger_LogTimeStamp PTR c w) as [[st c1] w1].
  destruct st; try reflexivity. simpl negb. cbv iota.
  destruct (TextLogger_FlushBufferIsNeeded c1 len); [ | reflexivity].
  destruct (TextLogger_FlushTextToFileStream PTR c1 w1) as [[st2 c2] w2].
  destruct st2; reflexivity.
Qed.

(** No call of the file layer reads or changes the clock. *)
Lemma fopen_ab_time (w : World) : same_time w (snd (fopen_ab w)).
Proof. unfold fopen_ab. destruct (os w (opens w)); split; reflexivity. Qed.

Lemma fwrite_time (f : FILE) (data : list ascii) (w : World) :
  same_time w (snd (fwrite f data w)).
Proof. split; reflexivity. Qed.

Lemma same_time_trans (w1 w2 w3 : World) :
  same_time w1 w2 -> same_time w2 w3 -> same_time w1 w3.
Proof. unfold same_time. intros [H1 H2] [H3 H4]. split; congruence. Qed.

Lemma end_marker_time (c : LoggerContext) (w : World) :
  same_time w (snd (TextLogger_FlushErrMsgToFileStream c w)).
Proof.
  unfold TextLogger_FlushErrMsgToFileStream.
  pose proof (fopen_ab_time w) as Hopen.
  destruct (fopen_ab w) as [[f | ] w1]; simpl in Hopen; [ | exact Hopen].
  pose proof (fwrite_time f (pErrMsg c) w1) as Hwrite.
  destruct (fwrite f (pErrMsg c) w1) as [n w2]. simpl in Hwrite.
  destruct (negb _); simpl; apply same_time_trans with (w2 := w1); assumption.
Qed.

Lemma flush_time (p : LoggerContextPtr) (c : LoggerContext) (w : World) :
  same_time w (snd (TextLogger_FlushTextToFileStream p c w)).
Proof.
  unfold TextLogger_FlushTextToFileStream.
  destruct p; [split; reflexivity | ].
  destruct (maxFileSize c <=? totalBytesStored c).
  - destruct (fileLimitIsReached c); simpl; [split; reflexivity | ].
    pose proof (end_marker_time (set_fileLimitIsReached c true) w) as Hmark.
    destruct (TextLogger_FlushErrMsgToFileStream _ w) as [st w1].
    destruct (is_file_error st); exact Hmark.
  - destruct (0 =? currBytePos c); [split; reflexivity | ].
    pose proof (fopen_ab_time w) as Hopen.
    destruct (fopen_ab w) as [[f | ] w1]; simpl in Hopen; [ | exact Hopen].
    destruct (_ >? _); [exact Hopen | ].
    pose proof (fwrite_time f (load_bytes (pTextBuffer c)
                                 (to_size_t (currBytePos c))) w1) as Hwrite.
    destruct (fwrite f _ w1) as [n w2]. simpl in Hwrite.
    destruct (negb _); simpl; apply same_time_trans with (w2 := w1); assumption.
Qed.

Lemma flush_then_write_time (c : LoggerContext) (w : World) (len : Z)
    (s : cstring) :
  same_time w (snd (flush_then_write c w len s)).
Proof.
  unfold flush_then_write.
  destruct (TextLogger_FlushBufferIsNeeded c len); [ | split; reflexivity].
  pose proof (flush_time PTR c w) as Hflush.
  destruct (TextLogger_FlushTextToFileStream PTR c w) as [[st c1] w1].
  destruct (is_success st); exact Hflush.
Qed.

(** The write of a record reads the clock once, whatever its status. *)
Lemma write_reads_clock (text : cstring) (len : Z) (level : LogLevelType)
    (c : LoggerContext) (w : World) :
  ticks (snd (TextLogger_WriteToBuffer PTR (Some text) len level c w))
  = S (ticks w).
Proof.
  rewrite write_unfold, timestamp_unfold.
  pose proof (flush_then_write_time c (snd (localtime_now w))
                (strlen (next_timestamp w)) (next_timestamp w)) as [_ Hstamp].
  destruct (flush_then_write c _ _ _) as [[st c1] w1]. simpl in Hstamp.
  destruct st; simpl; try exact Hstamp.
  pose proof (flush_then_write_time c1 w1 len (tagged_line level text))
    as [_ Hline].
  rewrite Hline. exact Hstamp.
Qed.

Lemma flush_clock (p : LoggerContextPtr) (c : LoggerContext) (w : World) :
  clock (snd (TextLogger_FlushTextToFileStream p c w)) = clock w.
Proof. apply flush_time. Qed.

(** ** Admission by level *)

(** C8.  A per-severity call on a non-null context with a non-null text
    admits the record exactly when the ordinal of its level is at most
    [logLevel] of the context.  Admitted, the record is handed to
    [TextLogger_WriteToBuffer] with the length bound [strlen text + 6], which
    reads the clock for its timestamp.  Otherwise the record is dropped: the
    call returns SUCCESS and leaves the context (buffer and ledger) and the
    world (file, clock) as they were. *)
Theorem admission_by_level (level : LogLevelType) (text : cstring)
    (c : LoggerContext) (w : World) :
  (level_ord level <= logLevel c ->
   log_call level PTR (Some text) c w
   = TextLogger_WriteToBuffer PTR (Some text)
       (wrap_int (to_size_t (strlen text + LOG_EXTRA_STR_LENGTH))) level c w
   /\ ticks (snd (log_call level PTR (Some text) c w)) = S (ticks w))
  /\ (logLevel c < level_ord level ->
      log_call level PTR (Some text) c w = (TEXTLOGGER_SUCCESS, c, w)).
Proof.
  rewrite log_call_unfold. split; intros Hlevel.
  - destruct (Z.leb_spec (level_ord level) (logLevel c)); [ | lia].
    split; [reflexivity | apply write_reads_clock].
  - destruct (Z.leb_spec (level_ord level) (logLevel c)); [lia | reflexivity].
Qed.

Lemma admission_by_level_witness :
  (log_call LOG_LEVEL_INFO PTR (Some forty) fresh (calm [])
   = TextLogger_WriteToBuffer PTR (Some forty)
       (wrap_int (to_size_t (strlen forty + LOG_EXTRA_STR_LENGTH)))
       LOG_LEVEL_INFO fresh (calm [])
   /\ ticks (snd (log_call LOG_LEVEL_INFO PTR (Some forty) fresh (calm [])))
      = 1%nat)
  /\ log_call LOG_LEVEL_DEBUG PTR (Some forty) spent (calm [])
     = (TEXTLOGGER_SUCCESS, spent, calm []).
Proof.
  split.
  - apply (proj1 (admission_by_level LOG_LEVEL_INFO forty fresh (calm []))).
    simpl. lia.
  - apply (proj2 (admission_by_level LOG_LEVEL_DEBUG forty spent (calm []))).
    simpl. lia.
Defined.

(** ** Flush *)

Section Flush.

Variable c : LoggerContext.
Variable w : World.

(** A flush leaves the configuration, the accounting and the memory of the
    scratch buffer alone: it only moves the cursor and sets the latch. *)
Lemma flush_frame (p : LoggerContextPtr) :
  let '(_, c', _) := TextLogger_FlushTextToFileStream p c w in
  pTextBuffer c' = pTextBuffer c
  /\ pFilePath c' = pFilePath c /\ pErrMsg c' = pErrMsg c
  /\ logLevel c' = logLevel c
  /\ maxBufferByteSize c' = maxBufferByteSize c
  /\ maxFileSize c' = maxFileSize c
  /\ totalBytesStored c' = totalBytesStored c.
Proof.
  unfold TextLogger_FlushTextToFileStream, TextLogger_FlushErrMsgToFileStream.
  destruct p; [ repeat split | ].
  destruct (maxFileSize c <=? totalBytesStored c).
  - destruct (fileLimitIsReached c); simpl; [ repeat split | ].
    destruct (fopen_ab w) as [[f | ] w1]; simpl; [ | repeat split ].
    destruct (fwrite f (pErrMsg c) w1) as [n w2].
    destruct (negb _); simpl; repeat split.
  - destruct (0 =? currBytePos c); [ repeat split | ].
    destruct (fopen_ab w) as [[f | ] w1]; [ | repeat split ].
    destruct (_ >? _); [ destruct (fileLimitIsReached c); repeat split | ].
    destruct (fwrite f _ w1) as [n w2].
    destruct (negb _); repeat split.
Qed.

Lemma fopen_ab_file : same_file w (snd (fopen_ab w)).
Proof. unfold fopen_ab. destruct (os w (opens w)); split; reflexivity. Qed.

Lemma fopen_ab_opens :
  fst (fopen_ab w) = None <-> os w (opens w) = OpenFails.
Proof.
  unfold fopen_ab. destruct (os w (opens w)); simpl; split;
    intros H; try discriminate; reflexivity.
Qed.

(** C3, amended.  In the overshoot-check branch the flush sets the latch,
    writes nothing to the file, returns INSUFFICIENT_FILE_SPACE and resets
    the cursor: [currBytePos] is 0 afterwards, so the pending bytes are
    dropped, while [totalBytesStored] keeps counting them. *)
Theorem flush_overshoot_resets :
  overshoot c w ->
  exists c' w',
    TextLogger_FlushTextToFileStream PTR c w
    = (TEXTLOGGER_ERR_INSUFFICIENT_FILE_SPACE, c', w')
    /\ fileLimitIsReached c' = true
    /\ same_file w w'
    /\ currBytePos c' = 0
    /\ totalBytesStored c' = totalBytesStored c
    /\ pTextBuffer c' = pTextBuffer c.
Proof.
  intros (Hbudget & Hpend & Hopen & Hover).
  unfold TextLogger_FlushTextToFileStream.
  destruct (Z.leb_spec (maxFileSize c) (totalBytesStored c)); [lia | ].
  destruct (Z.eqb_spec 0 (currBytePos c)); [lia | ].
  pose proof fopen_ab_file as Hfile. pose proof fopen_ab_opens as Hnone.
  destruct (fopen_ab w) as [[f | ] w1]; simpl in *.
  - assert (Hlen : ftell_end w1 = ftell_end w).
    { unfold ftell_end, file_bytes. destruct Hfile as [-> ->]. reflexivity. }
    rewrite Hlen.
    destruct (Z.gtb_spec (currBytePos c + ftell_end w) (maxFileSize c)); [ | lia].
    do 2 eexists. split; [reflexivity | ].
    destruct (fileLimitIsReached c) eqn:Hlatch; simpl; auto.
  - exfalso. apply Hopen, Hnone. reflexivity.
Qed.

End Flush.

Lemma flush_overshoot_resets_witness :
  exists c' w',
    TextLogger_FlushTextToFileStream PTR loaded (calm (repeat "x"%char 120))
    = (TEXTLOGGER_ERR_INSUFFICIENT_FILE_SPACE, c', w')
    /\ fileLimitIsReached c' = true
    /\ same_file (calm (repeat "x"%char 120)) w'
    /\ currBytePos c' = 0
    /\ totalBytesStored c' = totalBytesStored loaded
    /\ pTextBuffer c' = pTextBuffer loaded.
Proof.
  apply (flush_overshoot_resets loaded (calm (repeat "x"%char 120))).
  unfold overshoot. vm_compute. repeat split; discriminate.
Defined.

(** C3 as stated fails.  One record of 200 bytes is buffered while the file
    holds 120 bytes and the effective budget is 296: the flush is in the
    overshoot-check branch and the cursor is not what it was. *)
Lemma overshoot_drops_pending :
  exists c w,
    session (lit "END"%string) 256 300 (calm (repeat "x"%char 120))
            [CallLog LOG_LEVEL_INFO (repeat "a"%char 170)]
    = Some ([TEXTLOGGER_SUCCESS], c, w)
    /\ overshoot c w
    /\ currBytePos c = 200
    /\ currBytePos (snd (fst (TextLogger_FlushTextToFileStream PTR c w)))
       <> currBytePos c.
Proof.
  do 2 eexists. split; [ vm_compute; reflexivity | ].
  unfold overshoot. vm_compute. repeat split; discriminate.
Qed.

(** ** After the budget is spent *)

Section Exhausted.

Variable c : LoggerContext.
Hypothesis Hspent : exhausted c.
Hypothesis Hroom : int_range (maxFileSize c - totalBytesStored c).

Lemma flush_exhausted (w : World) :
  TextLogger_FlushTextToFileStream PTR c w
  = (TEXTLOGGER_ERR_INSUFFICIENT_FILE_SPACE, c, w).
Proof.
  destruct Hspent as [Hlatch Hle]. unfold TextLogger_FlushTextToFileStream.
  destruct (Z.leb_spec (maxFileSize c) (totalBytesStored c)); [ | lia].
  rewrite Hlatch. reflexivity.
Qed.

Lemma decision_exhausted (len : Z) :
  0 <= len -> TextLogger_FlushBufferIsNeeded c len = true.
Proof.
  intros Hlen. destruct Hspent as [_ Hle].
  unfold TextLogger_FlushBufferIsNeeded. rewrite (wrap_int_id _ Hroom).
  apply orb_true_iff. left. apply Z.leb_le. lia.
Qed.

Lemma timestamp_exhausted (w : World) :
  TextLogger_LogTimeStamp PTR c w
  = (TEXTLOGGER_ERR_INSUFFICIENT_FILE_SPACE, c, snd (localtime_now w)).
Proof.
  rewrite timestamp_unfold. unfold flush_then_write.
  rewrite decision_exhausted by apply format_timestamp_length.
  rewrite flush_exhausted. reflexivity.
Qed.

Lemma write_exhausted (text : cstring) (len : Z) (level : LogLevelType)
    (w : World) :
  TextLogger_WriteToBuffer PTR (Some text) len level c w
  = (TEXTLOGGER_ERR_INSUFFICIENT_FILE_SPACE, c, snd (localtime_now w)).
Proof.
  rewrite write_unfold, timestamp_exhausted. reflexivity.
Qed.

Lemma call_exhausted (k : Call) (w : World) :
  exists w',
    call k c w = (refusal c k, c, w')
    /\ same_file w w' /\ opens w' = opens w.
Proof.
  destruct k as [level text | | ]; unfold call.
  - rewrite log_call_unfold. unfold refusal.
    destruct (level_ord level <=? logLevel c).
    + rewrite write_exhausted. eexists. repeat split.
    + eexists. repeat split.
  - rewrite timestamp_exhausted. eexists. repeat split.
  - rewrite flush_exhausted. eexists. repeat split.
Qed.

End Exhausted.

(** C2, amended.  Once the latch is set and [totalBytesStored] has reached
    [maxFileSize], every later flush, timestamp call and admitted log call
    returns INSUFFICIENT_FILE_SPACE (a log call that the level filter drops
    returns SUCCESS), and none of them changes the context, opens the file or
    appends to it, however many calls follow.  The latch alone does not stop
    the calls. *)
Theorem exhausted_stays (ks : list Call) (c : LoggerContext) (w : World) :
  exhausted c ->
  int_range (maxFileSize c - totalBytesStored c) ->
  exists w',
    run ks c w = (map (refusal c) ks, c, w')
    /\ same_file w w' /\ opens w' = opens w.
Proof.
  intros Hspent Hroom. revert w.
  induction ks as [ | k ks IH]; intros w; simpl.
  - exists w. repeat split.
  - destruct (call_exhausted c Hspent Hroom k w) as (w1 & -> & [Hi Ha] & Ho).
    destruct (IH w1) as (w2 & -> & [Hi2 Ha2] & Ho2).
    exists w2. repeat split; congruence.
Qed.

Lemma exhausted_stays_witness :
  exists w',
    run [CallFlush; CallTimeStamp; CallLog LOG_LEVEL_ERROR forty;
         CallLog LOG_LEVEL_DEBUG forty; CallFlush] spent (calm [])
    = ([TEXTLOGGER_ERR_INSUFFICIENT_FILE_SPACE;
        TEXTLOGGER_ERR_INSUFFICIENT_FILE_SPACE;
        TEXTLOGGER_ERR_INSUFFICIENT_FILE_SPACE;
        TEXTLOGGER_SUCCESS;
        TEXTLOGGER_ERR_INSUFFICIENT_FILE_SPACE], spent, w')
    /\ same_file (calm []) w' /\ opens w' = opens (calm []).
Proof.
  apply (exhausted_stays
           [CallFlush; CallTimeStamp; CallLog LOG_LEVEL_ERROR forty;
            CallLog LOG_LEVEL_DEBUG forty; CallFlush] spent (calm [])).
  - split; [ reflexivity | simpl; lia ].
  - unfold int_range, int_min, int_max. simpl. lia.
Defined.

(** C2 as stated fails.  After the overshoot-check branch has set the latch
    with the accounting below the budget, a flush returns SUCCESS, a
    timestamp call moves the cursor and the accounting, and the flush after
    it appends to the file. *)
Lemma latch_alone_does_not_stop :
  exists c w,
    session (lit "END"%string) 256 300 (calm (repeat "x"%char 120))
            [CallLog LOG_LEVEL_INFO (repeat "a"%char 170); CallFlush]
    = Some ([TEXTLOGGER_SUCCESS; TEXTLOGGER_ERR_INSUFFICIENT_FILE_SPACE], c, w)
    /\ fileLimitIsReached c = true
    /\ fst (fst (TextLogger_FlushTextToFileStream PTR c w)) = TEXTLOGGER_SUCCESS
    /\ (let '(st, c', _) := TextLogger_LogTimeStamp PTR c w in
        st = TEXTLOGGER_SUCCESS
        /\ currBytePos c' <> currBytePos c
        /\ totalBytesStored c' <> totalBytesStored c)
    /\ (let '(sts, _, w') := run [CallTimeStamp; CallFlush] c w in
        sts = [TEXTLOGGER_SUCCESS; TEXTLOGGER_SUCCESS]
        /\ file_appends w' <> file_appends w).
Proof.
  do 2 eexists. split; [ vm_compute; reflexivity | ].
  vm_compute. repeat split; discriminate.
Qed.

(** ** File errors *)

Section FileError.

Variables c c' : LoggerContext.
Variables w w' : World.

Lemma flush_file_error :
  TextLogger_FlushTextToFileStream PTR c w = (TEXTLOGGER_ERR_FILE_ERROR, c', w') ->
  kept_on_file_error c c'.
Proof.
  unfold TextLogger_FlushTextToFileStream, kept_on_file_error.
  destruct (maxFileSize c <=? totalBytesStored c) eqn:Hspent.
  - destruct (fileLimitIsReached c) eqn:Hlatch; simpl; [discriminate | ].
    destruct (TextLogger_FlushErrMsgToFileStream _ w) as [st w1].
    destruct (is_file_error st); intros H; inversion H; subst; simpl.
    repeat split.
  - destruct (0 =? currBytePos c); [discriminate | ].
    destruct (fopen_ab w) as [[f | ] w1].
    + destruct (_ >? _); [discriminate | ].
      destruct (fwrite f _ w1) as [n w2].
      destruct (negb _); intros H; inversion H; subst.
      rewrite orb_false_r. repeat split.
    + intros H; inversion H; subst. rewrite orb_false_r. repeat split.
Qed.

Lemma timestamp_file_error :
  TextLogger_LogTimeStamp PTR c w = (TEXTLOGGER_ERR_FILE_ERROR, c', w') ->
  exists w0,
    TextLogger_FlushTextToFileStream PTR c w0
    = (TEXTLOGGER_ERR_FILE_ERROR, c', w').
Proof.
  rewrite timestamp_unfold. unfold flush_then_write.
  destruct (TextLogger_FlushBufferIsNeeded c _); [ | discriminate].
  destruct (TextLogger_FlushTextToFileStream PTR c _) as [[st c1] w1] eqn:Hflush.
  destruct st; simpl; intros H; inversion H; subst.
  eexists. exact Hflush.
Qed.

End FileError.

Lemma write_file_error (text : cstring) (len : Z) (level : LogLevelType)
    (c c' : LoggerContext) (w w' : World) :
  TextLogger_WriteToBuffer PTR (Some text) len level c w
  = (TEXTLOGGER_ERR_FILE_ERROR, c', w') ->
  kept_on_file_error c c'
  \/ exists c1 w1,
       TextLogger_LogTimeStamp PTR c w = (TEXTLOGGER_SUCCESS, c1, w1)
       /\ kept_on_file_error c1 c'.
Proof.
  rewrite write_unfold.
  destruct (TextLogger_LogTimeStamp PTR c w) as [[st c1] w1] eqn:Hstamp.
  destruct st; simpl.
  - unfold flush_then_write.
    destruct (TextLogger_FlushBufferIsNeeded c1 len); [ | discriminate].
    destruct (TextLogger_FlushTextToFileStream PTR c1 w1)
      as [[st2 c2] w2] eqn:Hflush.
    destruct st2; simpl; intros H; inversion H; subst.
    right. exists c1, w1. split; [reflexivity | ].
    eapply flush_file_error. exact Hflush.
  - intros H; inversion H; subst. left.
    destruct (timestamp_file_error _ _ _ _ Hstamp) as [w0 Hflush].
    eapply flush_file_error. exact Hflush.
  - discriminate.
  - discriminate.
Qed.

(** C7, amended.  When a flush or a timestamp call returns FILE_ERROR, the
    memory of the scratch buffer, [currBytePos] and [totalBytesStored] are
    what they were before the call; the latch is what it was when the failure
    is on the way of the buffer to the file, and is set when the accounting
    had reached the budget, since it is set before the end-marker is
    attempted.  A per-severity call that returns FILE_ERROR has failed either
    in the flush of its timestamp step, with the same guarantee, or in the
    flush before its tagged line, with the same guarantee counted from the
    context that already holds the timestamp. *)
Theorem file_error_keeps (k : Call) (c c' : LoggerContext) (w w' : World) :
  call k c w = (TEXTLOGGER_ERR_FILE_ERROR, c', w') ->
  kept_on_file_error c c'
  \/ exists level text c1 w1,
       k = CallLog level text
       /\ TextLogger_LogTimeStamp PTR c w = (TEXTLOGGER_SUCCESS, c1, w1)
       /\ kept_on_file_error c1 c'.
Proof.
  destruct k as [level text | | ]; unfold call.
  - rewrite log_call_unfold.
    destruct (level_ord level <=? logLevel c); [ | discriminate].
    intros H. destruct (write_file_error _ _ _ _ _ _ _ H)
      as [Hkept | (c1 & w1 & Hstamp & Hkept)].
    + left. exact Hkept.
    + right. exists level, text, c1, w1.
      split; [reflexivity | split; assumption].
  - intros H. left.
    destruct (timestamp_file_error _ _ _ _ H) as [w0 Hflush].
    eapply flush_file_error. exact Hflush.
  - intros H. left. eapply flush_file_error. exact H.
Qed.

Lemma file_error_keeps_witness :
  let w := world_of [] (fun _ => OpenFails) in
  let c' := snd (fst (call CallFlush overdrawn w)) in
  kept_on_file_error overdrawn c'
  \/ exists level text c1 w1,
       CallFlush = CallLog level text
       /\ TextLogger_LogTimeStamp PTR overdrawn w = (TEXTLOGGER_SUCCESS, c1, w1)
       /\ kept_on_file_error c1 c'.
Proof.
  intros w c'.
  apply (file_error_keeps CallFlush overdrawn c' w
           (snd (call CallFlush overdrawn w))).
  vm_compute. reflexivity.
Defined.

(** C7 as stated fails.  With the accounting past the budget and the latch
    clear, a flush whose [fopen] fails returns FILE_ERROR with the latch set;
    and a log call whose second flush fails returns FILE_ERROR with the
    timestamp counted. *)
Lemma file_error_moves_latch_and_ledger :
  (exists c w,
     session (lit "X"%string) 512 30 (world_of [] fails_after_first)
             [CallTimeStamp; CallTimeStamp]
     = Some ([TEXTLOGGER_SUCCESS; TEXTLOGGER_SUCCESS], c, w)
     /\ fileLimitIsReached c = false
     /\ let '(st, c', _) := TextLogger_FlushTextToFileStream PTR c w in
        st = TEXTLOGGER_ERR_FILE_ERROR
        /\ fileLimitIsReached c' <> fileLimitIsReached c)
  /\ (exists c,
        TextLogger_Create (Some test_path) (Some (lit "X"%string)) 5 64 2048
                          (calm []) = Some c
        /\ let '(st, c', _) :=
             TextLogger_LogInfo PTR (Some forty) c
                                (world_of [] (fun _ => OpenFails)) in
           st = TEXTLOGGER_ERR_FILE_ERROR
           /\ currBytePos c' <> currBytePos c
           /\ totalBytesStored c' <> totalBytesStored c).
Proof.
  split.
  - do 2 eexists. split; [ vm_compute; reflexivity | ].
    vm_compute. repeat split; discriminate.
  - eexists. split; [ vm_compute; reflexivity | ].
    vm_compute. repeat split; discriminate.
Qed.

(** ** Memory *)

Section Memory.

Variable mem : list ascii.

Lemma load_bytes_length (n : Z) : length (load_bytes mem n) = Z.to_nat n.
Proof.
  unfold load_bytes. rewrite length_app, length_firstn, repeat_length. lia.
Qed.

Lemma load_bytes_inside (n : Z) :
  (Z.to_nat n <= length mem)%nat -> load_bytes mem n = firstn (Z.to_nat n) mem.
Proof.
  intros H. unfold load_bytes.
  replace (Z.to_nat n - length mem)%nat with 0%nat by lia.
  apply app_nil_r.
Qed.

Lemma store_bytes_length (pos : Z) (bs : list ascii) :
  length (store_bytes mem pos bs) = length mem.
Proof.
  unfold store_bytes. destruct (pos <? 0); [reflexivity | ].
  rewrite length_firstn, !length_app, length_firstn, length_skipn. lia.
Qed.

Lemma firstn_exact (a b : list ascii) (n : nat) :
  length a = n -> firstn n (a ++ b) = a.
Proof.
  intros <-. rewrite firstn_app, firstn_all, Nat.sub_diag. simpl.
  apply app_nil_r.
Qed.

(** A text stored with its NUL inside the allocation: the bytes up to the end
    of the text are the bytes before the cursor, then the text. *)
Lemma store_bytes_prefix (pos : Z) (s : list ascii) :
  0 <= pos ->
  (Z.to_nat pos + length s + 1 <= length mem)%nat ->
  firstn (Z.to_nat pos + length s) (store_bytes mem pos (s ++ [NUL]))
  = firstn (Z.to_nat pos) mem ++ s.
Proof.
  intros Hpos Hfit. unfold store_bytes.
  destruct (Z.ltb_spec pos 0); [lia | ].
  rewrite firstn_firstn.
  replace (Init.Nat.min (Z.to_nat pos + length s) (length mem))
    with (Z.to_nat pos + length s)%nat by lia.
  rewrite <- (app_assoc s), (app_assoc (firstn _ mem) s).
  apply firstn_exact. rewrite length_app, length_firstn. lia.
Qed.

(** [snprintf] with room for the text and its NUL stores them whole. *)
Lemma snprintf_bytes_whole (n : Z) (s : cstring) :
  strlen s < n -> snprintf_bytes n s = s ++ [NUL].
Proof.
  intros H. unfold snprintf_bytes, strlen in *.
  destruct (Z.eqb_spec n 0); [lia | ].
  rewrite firstn_all2; [reflexivity | lia].
Qed.

End Memory.

(** ** A flush that succeeds *)

Lemma fwrite_whole (f : FILE) (data : list ascii) (w : World) :
  fst (fwrite f data w) = Z.of_nat (length data) ->
  file_init (snd (fwrite f data w)) = file_init w
  /\ file_appends (snd (fwrite f data w)) = file_appends w ++ [data].
Proof.
  unfold fwrite. simpl. intros ->. rewrite Nat2Z.id, firstn_all.
  split; reflexivity.
Qed.

(** A flush that returns SUCCESS found the accounting below the budget; it
    leaves the cursor at 0 and the latch alone, and the file has grown by one
    write, of the bytes below the cursor, unless the cursor was at 0. *)
Lemma flush_success (c c' : LoggerContext) (w w' : World) :
  TextLogger_FlushTextToFileStream PTR c w = (TEXTLOGGER_SUCCESS, c', w') ->
  totalBytesStored c < maxFileSize c
  /\ currBytePos c' = 0
  /\ fileLimitIsReached c' = fileLimitIsReached c
  /\ file_init w' = file_init w
  /\ file_appends w' =
     file_appends w
     ++ (if 0 =? currBytePos c then []
         else [load_bytes (pTextBuffer c) (to_size_t (currBytePos c))]).
Proof.
  unfold TextLogger_FlushTextToFileStream.
  destruct (Z.leb_spec (maxFileSize c) (totalBytesStored c)) as [Hle | Hlt].
  - destruct (fileLimitIsReached c); simpl; [discriminate | ].
    destruct (TextLogger_FlushErrMsgToFileStream _ w) as [st w1].
    destruct (is_file_error st); discriminate.
  - destruct (Z.eqb_spec 0 (currBytePos c)) as [Hzero | Hpend].
    + intros H; inversion H; subst. rewrite app_nil_r. auto.
    + pose proof (fopen_ab_file w) as [Hi Ha].
      destruct (fopen_ab w) as [[f | ] w1]; [ | discriminate].
      simpl in Hi, Ha.
      destruct (_ >? _); [discriminate | ].
      set (data := load_bytes (pTextBuffer c) (to_size_t (currBytePos c))).
      pose proof (fwrite_whole f data w1) as Hwhole.
      destruct (fwrite f data w1) as [n w2]. simpl in Hwhole.
      destruct (Z.eqb_spec n (to_size_t (currBytePos c))) as [Hn | Hn];
        simpl; intros H; inversion H; subst.
      destruct Hwhole as [Hi2 Ha2].
      { unfold data. rewrite load_bytes_length.
        symmetry. apply Z2Nat.id. unfold to_size_t.
        apply Z.mod_pos_bound. lia. }
      rewrite Hi2, Ha2, Hi, Ha. auto.
Qed.

(** ** Formatting at the cursor *)

Section AtCursor.

Variable c : LoggerContext.
Variable s : cstring.

Lemma write_at_cursor_frame :
  pFilePath (write_at_cursor c s) = pFilePath c
  /\ pErrMsg (write_at_cursor c s) = pErrMsg c
  /\ logLevel (write_at_cursor c s) = logLevel c
  /\ maxBufferByteSize (write_at_cursor c s) = maxBufferByteSize c
  /\ maxFileSize (write_at_cursor c s) = maxFileSize c
  /\ fileLimitIsReached (write_at_cursor c s) = fileLimitIsReached c
  /\ length (pTextBuffer (write_at_cursor c s)) = length (pTextBuffer c).
Proof.
  unfold write_at_cursor, snprintf, advance. simpl.
  repeat split. apply store_bytes_length.
Qed.

(** Both counters move by what [snprintf] returns, the length of the text,
    when the sums are values of [int]. *)
Lemma write_at_cursor_counts :
  0 <= currBytePos c <= totalBytesStored c ->
  totalBytesStored c + strlen s <= int_max ->
  currBytePos (write_at_cursor c s) = currBytePos c + strlen s
  /\ totalBytesStored (write_at_cursor c s) = totalBytesStored c + strlen s.
Proof.
  intros Hc Hsum. unfold write_at_cursor, snprintf, advance. simpl.
  assert (Hlen : 0 <= strlen s) by (unfold strlen; lia).
  int_limits.
  rewrite (wrap_int_id (strlen s)) by in_int.
  rewrite (to_size_t_id (strlen s)) by lia.
  rewrite !int_add_size_t_exact by in_int.
  split; reflexivity.
Qed.

(** With room for the text and its NUL between the cursor and the end of the
    allocation, the pending bytes grow by the text, whole. *)
Lemma write_at_cursor_pending :
  tidy c ->
  currBytePos c + strlen s < maxBufferByteSize c ->
  pending (write_at_cursor c s) = pending c ++ s
  /\ currBytePos (write_at_cursor c s) = currBytePos c + strlen s.
Proof.
  intros (Hmem & Hcur & Hcap) Hfit.
  assert (Hlen : 0 <= strlen s) by (unfold strlen; lia).
  int_limits.
  unfold pending, write_at_cursor, snprintf, advance. simpl.
  rewrite (wrap_int_id (strlen s)) by in_int.
  rewrite (to_size_t_id (strlen s)) by lia.
  rewrite int_add_size_t_exact by in_int.
  rewrite (wrap_int_id (maxBufferByteSize c - currBytePos c))
    by in_int.
  rewrite to_size_t_id by lia.
  rewrite snprintf_bytes_whole by lia.
  split; [ | reflexivity].
  replace (Z.to_nat (currBytePos c + strlen s))
    with (Z.to_nat (currBytePos c) + length s)%nat by (unfold strlen; lia).
  apply store_bytes_prefix; [lia | ]. unfold strlen in *. lia.
Qed.

End AtCursor.

(** ** The accounting *)

Lemma tagged_line_length (level : LogLevelType) (text : cstring) :
  strlen (tagged_line level text) = strlen text + LOG_EXTRA_STR_LENGTH.
Proof.
  unfold tagged_line, strlen, LOG_EXTRA_STR_LENGTH.
  rewrite !length_app. destruct level; simpl; lia.
Qed.

Lemma appended_after_flush (c c' : LoggerContext) (w w' : World) :
  0 <= currBytePos c <= int_max ->
  TextLogger_FlushTextToFileStream PTR c w = (TEXTLOGGER_SUCCESS, c', w') ->
  appended w' = appended w + currBytePos c.
Proof.
  intros Hcur Hflush.
  destruct (flush_success _ _ _ _ Hflush) as (_ & _ & _ & _ & Ha).
  unfold appended. rewrite Ha, concat_app, length_app.
  destruct (Z.eqb_spec 0 (currBytePos c)) as [Hzero | Hpend]; simpl.
  - lia.
  - rewrite app_nil_r, load_bytes_length.
    int_limits.
    rewrite to_size_t_id by lia. lia.
Qed.

Section Ledger.

Variables c c' : LoggerContext.
Variables w w' : World.
Hypothesis Hsound : sound c.

Lemma flush_ledger :
  TextLogger_FlushTextToFileStream PTR c w = (TEXTLOGGER_SUCCESS, c', w') ->
  balanced c c' w w' /\ currBytePos c' = 0
  /\ totalBytesStored c' < maxFileSize c.
Proof.
  intros Hflush. destruct Hsound as (H0 & Hle & Hmax & Hbudget).
  pose proof (flush_frame c w PTR) as Hframe. rewrite Hflush in Hframe.
  destruct Hframe as (_ & _ & _ & _ & _ & Hsize & Htotal).
  assert (Hcount : 0 <= currBytePos c <= int_max) by lia.
  pose proof (appended_after_flush c c' w w' Hcount Hflush) as Happ.
  destruct (flush_success _ _ _ _ Hflush) as (Hlt & Hcur & _).
  unfold balanced, sound. rewrite Hsize, Htotal, Hcur, Happ.
  repeat split; lia.
Qed.

End Ledger.

Lemma flush_then_write_ledger (c c' : LoggerContext) (w w' : World)
    (len : Z) (s : cstring) :
  sound c ->
  0 <= len ->
  strlen s + maxFileSize c <= int_max ->
  flush_then_write c w len s = (TEXTLOGGER_SUCCESS, c', w') ->
  balanced c c' w w'.
Proof.
  intros Hsound Hlen Hbound. unfold flush_then_write.
  assert (Hs : 0 <= strlen s) by (unfold strlen; lia).
  int_limits.
  destruct (TextLogger_FlushBufferIsNeeded c len) eqn:Hneed.
  - destruct (TextLogger_FlushTextToFileStream PTR c w)
      as [[st c1] w1] eqn:Hflush.
    destruct st; simpl; intros H; inversion H; subst.
    destruct (flush_ledger _ _ _ _ Hsound Hflush)
      as ((Hsound1 & Hsize & Hbal) & Hcur & Hlt).
    destruct Hsound1 as (H0 & Hle & Htop & Hbudget).
    destruct (write_at_cursor_counts c1 s) as [Hc Ht]; [lia | lia | ].
    destruct (write_at_cursor_frame c1 s) as (_ & _ & _ & _ & Hsize' & _).
    unfold balanced, sound. rewrite Hc, Ht, Hsize'. repeat split; lia.
  - intros H; inversion H; subst.
    destruct Hsound as (H0 & Hle & Htop & Hbudget).
    unfold TextLogger_FlushBufferIsNeeded in Hneed.
    apply orb_false_iff in Hneed. destruct Hneed as [Hfile _].
    rewrite wrap_int_id in Hfile by in_int.
    apply Z.leb_gt in Hfile.
    destruct (write_at_cursor_counts c s) as [Hc Ht]; [lia | lia | ].
    destruct (write_at_cursor_frame c s) as (_ & _ & _ & _ & Hsize' & _).
    unfold balanced, sound. rewrite Hc, Ht, Hsize'. repeat split; lia.
Qed.

Lemma balanced_trans (c c1 c2 : LoggerContext) (w w1 w2 : World) :
  balanced c c1 w w1 -> balanced c1 c2 w1 w2 -> balanced c c2 w w2.
Proof.
  unfold balanced. intros (_ & Hs1 & Hb1) (Hs2 & Hs3 & Hb2).
  repeat split; try apply Hs2; lia.
Qed.

Lemma timestamp_ledger (c c' : LoggerContext) (w w' : World) :
  sound c ->
  MAX_STR_SIZE - 1 + maxFileSize c <= int_max ->
  TextLogger_LogTimeStamp PTR c w = (TEXTLOGGER_SUCCESS, c', w') ->
  balanced c c' w w'.
Proof.
  intros Hsound Hbound. rewrite timestamp_unfold. intros Hstep.
  pose proof (format_timestamp_length (clock w (ticks w))) as Hlen.
  fold (next_timestamp w) in Hlen.
  change (MAX_STR_SIZE - 1) with 127 in Hbound.
  apply flush_then_write_ledger in Hstep; [ exact Hstep | exact Hsound | lia | lia ].
Qed.

Lemma call_ledger (k : Call) (c c' : LoggerContext) (w w' : World) :
  sound c ->
  call_bound k + maxFileSize c <= int_max ->
  call k c w = (TEXTLOGGER_SUCCESS, c', w') ->
  balanced c c' w w'.
Proof.
  intros Hsound Hbound.
  int_limits.
  destruct k as [level text | | ]; unfold call, call_bound in *.
  - rewrite log_call_unfold.
    destruct (level_ord level <=? logLevel c).
    + rewrite write_unfold.
      destruct (TextLogger_LogTimeStamp PTR c w) as [[st c1] w1] eqn:Hstamp.
      destruct st; simpl; try discriminate. intros Hline.
      apply timestamp_ledger in Hstamp; [ | exact Hsound | lia ].
      apply balanced_trans with (c1 := c1) (w1 := w1); [exact Hstamp | ].
      destruct Hstamp as (Hsound1 & Hsize & _).
      assert (Htext : 0 <= strlen text) by (unfold strlen; lia).
      destruct Hsound as (_ & _ & _ & Hbudget).
      unfold LOG_EXTRA_STR_LENGTH in *.
      apply flush_then_write_ledger in Hline; [ exact Hline | exact Hsound1 | | ].
      * rewrite wrap_int_to_size_t, wrap_int_id by in_int. lia.
      * rewrite tagged_line_length, Hsize. unfold LOG_EXTRA_STR_LENGTH. lia.
    + intros H; inversion H; subst. unfold balanced. repeat split; try apply Hsound.
  - apply timestamp_ledger; assumption.
  - intros Hflush. apply (flush_ledger _ _ _ _ Hsound Hflush).
Qed.

(** C4, amended.  [totalBytesStored] counts the bytes when they are put in
    the scratch buffer, not when they reach the file.  Over any calls that
    all return SUCCESS, on a context whose budget leaves room in [int] for
    the texts, it grows by the bytes appended to the file plus the growth of
    [currBytePos]: the accounting is the bytes committed to the file and the
    bytes pending in the scratch buffer together. *)
Theorem accounting_counts_buffered (ks : list Call) (c c' : LoggerContext)
    (w w' : World) (sts : list TextLoggerStatusType) :
  sound c ->
  Forall (fun k => call_bound k + maxFileSize c <= int_max) ks ->
  run ks c w = (sts, c', w') ->
  Forall (fun st => st = TEXTLOGGER_SUCCESS) sts ->
  totalBytesStored c' - totalBytesStored c
  = (appended w' - appended w) + (currBytePos c' - currBytePos c).
Proof.
  intros Hsound Hbound Hrun Hok.
  enough (balanced c c' w w') as (_ & _ & Hbal) by lia.
  revert c w sts Hsound Hbound Hrun Hok.
  induction ks as [ | k ks IH]; intros c w sts Hsound Hbound Hrun Hok;
    simpl in Hrun.
  - inversion Hrun; subst. unfold balanced. repeat split; try apply Hsound.
  - destruct (call k c w) as [[st c1] w1] eqn:Hcall.
    destruct (run ks c1 w1) as [[sts' c2] w2] eqn:Hrest.
    inversion Hrun; subst.
    apply Forall_cons_iff in Hok. destruct Hok as [-> Hok].
    apply Forall_cons_iff in Hbound. destruct Hbound as [Hk Hks].
    pose proof (call_ledger _ _ _ _ _ Hsound Hk Hcall) as Hstep.
    apply balanced_trans with (c1 := c1) (w1 := w1); [exact Hstep | ].
    destruct Hstep as (Hsound1 & Hsize & _).
    apply (IH c1 w1 sts'); try assumption.
    rewrite Hsize. assumption.
Qed.

Lemma accounting_counts_buffered_witness :
  let ks := [CallLog LOG_LEVEL_INFO forty; CallTimeStamp; CallFlush;
             CallLog LOG_LEVEL_ERROR forty] in
  let r := run ks fresh (calm []) in
  totalBytesStored (snd (fst r)) - totalBytesStored fresh
  = (appended (snd r) - appended (calm []))
    + (currBytePos (snd (fst r)) - currBytePos fresh).
Proof.
  intros ks r.
  apply (accounting_counts_buffered ks fresh (snd (fst r)) (calm []) (snd r)
           (fst (fst r))).
  - unfold sound, int_max. simpl. lia.
  - unfold ks, int_max. repeat constructor; simpl; lia.
  - vm_compute. reflexivity.
  - vm_compute. repeat constructor.
Defined.

(** C4 as stated fails.  After one timestamp call the accounting is 24 and
    nothing has reached the file; and after the overshoot-check branch has
    dropped 200 pending bytes the accounting is still 200 with nothing in the
    file and nothing pending. *)
Lemma accounting_includes_pending_and_dropped :
  (exists c w,
     session (lit "X"%string) 512 2048 (calm []) [CallTimeStamp]
     = Some ([TEXTLOGGER_SUCCESS], c, w)
     /\ totalBytesStored c = 24
     /\ appended w = 0
     /\ totalBytesStored c <> appended w)
  /\ (exists c w,
        session (lit "END"%string) 256 300 (calm (repeat "x"%char 120))
                [CallLog LOG_LEVEL_INFO (repeat "a"%char 170); CallFlush]
        = Some ([TEXTLOGGER_SUCCESS; TEXTLOGGER_ERR_INSUFFICIENT_FILE_SPACE],
                c, w)
        /\ totalBytesStored c = 200
        /\ currBytePos c = 0
        /\ appended w = 0
        /\ totalBytesStored c <> appended w).
Proof.
  split.
  - do 2 eexists. split; [ vm_compute; reflexivity | ].
    vm_compute. repeat split; discriminate.
  - do 2 eexists. split; [ vm_compute; reflexivity | ].
    vm_compute. repeat split; discriminate.
Qed.

(** ** The cursor and the capacity *)

(** C1 fails on the code.  On a context of capacity 32 an INFO record of 40
    characters is logged: the tagged line is formatted into the flushed
    buffer, [snprintf] returns its whole length, 46, and the cursor ends
    past the capacity. *)
Theorem cursor_passes_capacity :
  exists c c' w',
    TextLogger_Create (Some test_path) (Some (lit "X"%string)) 5 32 2048
                      (calm []) = Some c
    /\ TextLogger_LogInfo PTR (Some forty) c (calm [])
       = (TEXTLOGGER_SUCCESS, c', w')
    /\ maxBufferByteSize c' = 32
    /\ currBytePos c' = 46
    /\ ~ currBytePos c' <= maxBufferByteSize c'.
Proof.
  do 3 eexists. split; [ vm_compute; reflexivity | ].
  split; [ vm_compute; reflexivity | ].
  simpl. repeat split. lia.
Qed.

(** ** Records and the writes that carry them *)

Lemma file_bytes_after_clock (w : World) :
  file_bytes (snd (localtime_now w)) = file_bytes w.
Proof. reflexivity. Qed.

Section Carried.

Variables c c' : LoggerContext.
Variables w w' : World.
Hypothesis Htidy : tidy c.

(** A flush that succeeds on a tidy context appends the pending bytes, in one
    write, and leaves a tidy context with nothing pending. *)
Lemma flush_carries_pending :
  TextLogger_FlushTextToFileStream PTR c w = (TEXTLOGGER_SUCCESS, c', w') ->
  tidy c'
  /\ currBytePos c' = 0
  /\ file_init w' = file_init w
  /\ file_appends w' =
     file_appends w ++ (if 0 =? currBytePos c then [] else [pending c]).
Proof.
  intros Hflush. destruct Htidy as (Hmem & Hcur & Hcap).
  int_limits.
  pose proof (flush_frame c w PTR) as Hframe. rewrite Hflush in Hframe.
  destruct Hframe as (Hbuf & _ & _ & _ & Hsize & _).
  destruct (flush_success _ _ _ _ Hflush) as (_ & Hzero & _ & Hi & Ha).
  assert (Hload : load_bytes (pTextBuffer c) (to_size_t (currBytePos c))
                  = pending c).
  { rewrite to_size_t_id by lia. apply load_bytes_inside. lia. }
  rewrite Hload in Ha.
  split; [ | split; [exact Hzero | split; [exact Hi | exact Ha] ] ].
  unfold tidy. rewrite Hbuf, Hsize, Hzero. repeat split; lia.
Qed.

Variable s : cstring.

Lemma write_at_cursor_tidy :
  currBytePos c + strlen s < maxBufferByteSize c ->
  tidy (write_at_cursor c s)
  /\ pending (write_at_cursor c s) = pending c ++ s.
Proof.
  intros Hfit. destruct (write_at_cursor_pending c s Htidy Hfit) as [Hpend Hcur].
  destruct (write_at_cursor_frame c s) as (_ & _ & _ & Hcap & _ & _ & Hmem).
  destruct Htidy as (Hmem0 & Hcur0 & Hcap0).
  assert (Hs : 0 <= strlen s) by (unfold strlen; lia).
  split; [ | exact Hpend].
  unfold tidy. rewrite Hmem, Hcap, Hcur. repeat split; lia.
Qed.

End Carried.

(** One flush-then-write step with a text that fits the capacity.  Either
    nothing is written to the file and the text joins the pending bytes, or
    the pending bytes go to the file in one write and the text is all that is
    pending. *)
Lemma flush_then_write_carries (c c' : LoggerContext) (w w' : World)
    (len : Z) (s : cstring) :
  tidy c ->
  strlen s <= len ->
  len < maxBufferByteSize c ->
  flush_then_write c w len s = (TEXTLOGGER_SUCCESS, c', w') ->
  tidy c'
  /\ maxBufferByteSize c' = maxBufferByteSize c
  /\ clock w' = clock w
  /\ file_init w' = file_init w
  /\ ((file_appends w' = file_appends w /\ pending c' = pending c ++ s)
      \/ (file_appends w' = file_appends w ++ [pending c] /\ pending c' = s)).
Proof.
  intros Htidy Hlen Hfit. unfold flush_then_write.
  assert (Hs : 0 <= strlen s) by (unfold strlen; lia).
  int_limits.
  destruct (TextLogger_FlushBufferIsNeeded c len) eqn:Hneed.
  - pose proof (flush_clock PTR c w) as Hclock.
    destruct (TextLogger_FlushTextToFileStream PTR c w)
      as [[st c1] w1] eqn:Hflush.
    destruct st; simpl; intros H; inversion H; subst.
    destruct (flush_carries_pending _ _ _ _ Htidy Hflush)
      as (Htidy1 & Hzero & Hi & Ha).
    pose proof (flush_frame c w PTR) as Hframe. rewrite Hflush in Hframe.
    destruct Hframe as (_ & _ & _ & _ & Hcap & _).
    destruct (write_at_cursor_tidy c1 Htidy1 s) as [Htidy2 Hpend]; [lia | ].
    destruct (write_at_cursor_frame c1 s) as (_ & _ & _ & Hcap' & _).
    assert (Hnone : pending c1 = []).
    { unfold pending. rewrite Hzero. reflexivity. }
    rewrite Hnone in Hpend. simpl in Hpend.
    split; [exact Htidy2 | split; [congruence | ] ].
    split; [exact Hclock | split; [exact Hi | ] ].
    destruct (Z.eqb_spec 0 (currBytePos c)) as [Hzero0 | Hsome].
    + left. rewrite app_nil_r in Ha. split; [exact Ha | ].
      rewrite Hpend. unfold pending. rewrite <- Hzero0. reflexivity.
    + right. split; assumption.
  - intros H; inversion H; subst.
    unfold TextLogger_FlushBufferIsNeeded in Hneed.
    apply orb_false_iff in Hneed. destruct Hneed as [_ Hbuf].
    pose proof Htidy as (_ & Hcur & Hcap).
    rewrite wrap_int_id in Hbuf by in_int.
    apply Z.leb_gt in Hbuf.
    destruct (write_at_cursor_tidy c Htidy s) as [Htidy2 Hpend]; [lia | ].
    destruct (write_at_cursor_frame c s) as (_ & _ & _ & Hcap' & _).
    split; [exact Htidy2 | split; [exact Hcap' | ] ].
    split; [reflexivity | split; [reflexivity | ] ].
    left. split; [reflexivity | exact Hpend].
Qed.

(** In both cases the file followed by the pending bytes grows by the text. *)
Lemma carried_stream (c c' : LoggerContext) (w w' : World) (s : cstring) :
  file_init w' = file_init w ->
  (file_appends w' = file_appends w /\ pending c' = pending c ++ s)
  \/ (file_appends w' = file_appends w ++ [pending c] /\ pending c' = s) ->
  file_bytes w' ++ pending c' = file_bytes w ++ pending c ++ s.
Proof.
  unfold file_bytes. intros -> [[-> ->] | [-> ->]].
  - reflexivity.
  - rewrite concat_app. simpl. rewrite app_nil_r, <- !app_assoc. reflexivity.
Qed.

(** In both cases a line that was whole in the pending bytes is still whole
    there, or whole in the write. *)
Lemma carried_on (c c' : LoggerContext) (w w' : World) (s line : cstring) :
  (file_appends w' = file_appends w /\ pending c' = pending c ++ s)
  \/ (file_appends w' = file_appends w ++ [pending c] /\ pending c' = s) ->
  exists new,
    file_appends w' = file_appends w ++ new
    /\ (holds (pending c) line -> carried line c' new).
Proof.
  intros [[Ha Hp] | [Ha Hp]].
  - exists []. rewrite app_nil_r. split; [exact Ha | ].
    intros (pre & post & Hline). left. exists pre, (post ++ s).
    rewrite Hp, Hline, <- !app_assoc. reflexivity.
  - exists [pending c]. split; [exact Ha | ].
    intros Hline. right. constructor. exact Hline.
Qed.

Lemma carried_step (line : cstring) (c1 c2 : LoggerContext)
    (new1 new2 : list (list ascii)) :
  carried line c1 new1 ->
  (holds (pending c1) line -> carried line c2 new2) ->
  carried line c2 (new1 ++ new2).
Proof.
  unfold carried. intros [Hpend | Hfile] Hnext.
  - destruct (Hnext Hpend) as [Hpend2 | Hfile2].
    + left. exact Hpend2.
    + right. apply Exists_app. right. exact Hfile2.
  - right. apply Exists_app. left. exact Hfile.
Qed.

Section CallCarries.

Variable line : cstring.

(** A call that returns SUCCESS, with texts that fit: the file grows by
    whole writes, and a line that was whole in the pending bytes is whole in
    the pending bytes or in one of these writes. *)
Lemma call_carries (k : Call) (c c' : LoggerContext) (w w' : World) :
  tidy c ->
  clock_fits (maxBufferByteSize c) w ->
  text_fits (maxBufferByteSize c) k ->
  call k c w = (TEXTLOGGER_SUCCESS, c', w') ->
  tidy c'
  /\ maxBufferByteSize c' = maxBufferByteSize c
  /\ clock w' = clock w
  /\ exists new,
       file_appends w' = file_appends w ++ new
       /\ (holds (pending c) line -> carried line c' new).
Proof.
  intros Htidy Hclock Htext. int_limits.
  pose proof (Hclock (ticks w)) as Hstamp_fits. fold (next_timestamp w) in Hstamp_fits.
  destruct k as [level text | | ]; unfold call, text_fits in *.
  - rewrite log_call_unfold.
    destruct (level_ord level <=? logLevel c).
    + rewrite write_unfold.
      destruct (TextLogger_LogTimeStamp PTR c w) as [[st c1] w1] eqn:Hstamp.
      destruct st; simpl; try discriminate. intros Hline.
      rewrite timestamp_unfold in Hstamp.
      apply flush_then_write_carries in Hstamp; [ | exact Htidy | lia | lia ].
      destruct Hstamp as (Htidy1 & Hcap1 & Hclock1 & _ & Hcase1).
      assert (Hlen : 0 <= strlen text) by (unfold strlen; lia).
      pose proof Htidy as (_ & _ & Hcap).
      unfold LOG_EXTRA_STR_LENGTH in *.
      rewrite wrap_int_to_size_t, wrap_int_id in Hline by in_int.
      apply flush_then_write_carries in Hline;
        [ | exact Htidy1
          | rewrite tagged_line_length; unfold LOG_EXTRA_STR_LENGTH; lia
          | lia ].
      destruct Hline as (Htidy2 & Hcap2 & Hclock2 & _ & Hcase2).
      split; [exact Htidy2 | split; [congruence | ] ].
      split; [rewrite Hclock2, Hclock1; reflexivity | ].
      destruct (carried_on c c1 _ w1 _ line Hcase1) as (new1 & Ha1 & Hkeep1).
      destruct (carried_on c1 c' w1 w' _ line Hcase2) as (new2 & Ha2 & Hkeep2).
      exists (new1 ++ new2). split.
      * rewrite Ha2, Ha1, <- app_assoc. reflexivity.
      * intros Hpend. apply carried_step with (c1 := c1); auto.
    + intros H; inversion H; subst.
      split; [exact Htidy | split; [reflexivity | split; [reflexivity | ] ] ].
      exists []. rewrite app_nil_r. split; [reflexivity | ].
      intros Hpend. left. exact Hpend.
  - rewrite timestamp_unfold. intros Hstamp.
    apply flush_then_write_carries in Hstamp; [ | exact Htidy | lia | lia ].
    destruct Hstamp as (Htidy1 & Hcap1 & Hclock1 & _ & Hcase1).
    split; [exact Htidy1 | split; [exact Hcap1 | split; [exact Hclock1 | ] ] ].
    apply (carried_on c c' _ w' _ line Hcase1).
  - intros Hflush. pose proof (flush_clock PTR c w) as Hclock1.
    rewrite Hflush in Hclock1. simpl in Hclock1.
    pose proof (flush_frame c w PTR) as Hframe. rewrite Hflush in Hframe.
    destruct Hframe as (_ & _ & _ & _ & Hcap1 & _).
    destruct (flush_carries_pending _ _ _ _ Htidy Hflush)
      as (Htidy1 & Hzero & _ & Ha).
    split; [exact Htidy1 | split; [exact Hcap1 | split; [exact Hclock1 | ] ] ].
    eexists. split; [exact Ha | ].
    intros Hpend. destruct (Z.eqb_spec 0 (currBytePos c)) as [Hnone | Hsome].
    + left. unfold pending in *. rewrite Hzero. rewrite <- Hnone in Hpend.
      exact Hpend.
    + right. constructor. exact Hpend.
Qed.

Lemma run_carries (ks : list Call) :
  forall (c c' : LoggerContext) (w w' : World)
         (sts : list TextLoggerStatusType) (new0 : list (list ascii)),
    tidy c ->
    clock_fits (maxBufferByteSize c) w ->
    Forall (text_fits (maxBufferByteSize c)) ks ->
    run ks c w = (sts, c', w') ->
    Forall (fun st => st = TEXTLOGGER_SUCCESS) sts ->
    carried line c new0 ->
    exists new,
      file_appends w' = file_appends w ++ new
      /\ carried line c' (new0 ++ new).
Proof.
  induction ks as [ | k ks IH];
    intros c c' w w' sts new0 Htidy Hclock Htexts Hrun Hok Hline;
    simpl in Hrun.
  - inversion Hrun; subst. exists []. rewrite !app_nil_r. auto.
  - destruct (call k c w) as [[st c1] w1] eqn:Hcall.
    destruct (run ks c1 w1) as [[sts' c2] w2] eqn:Hrest.
    inversion Hrun; subst.
    apply Forall_cons_iff in Hok. destruct Hok as [-> Hok].
    apply Forall_cons_iff in Htexts. destruct Htexts as [Hk Hks].
    destruct (call_carries _ _ _ _ _ Htidy Hclock Hk Hcall)
      as (Htidy1 & Hcap1 & Hclock1 & new1 & Ha1 & Hkeep1).
    assert (Hline1 : carried line c1 (new0 ++ new1)).
    { apply carried_step with (c1 := c); assumption. }
    destruct (IH c1 c' w1 w' sts' (new0 ++ new1)) as (new2 & Ha2 & Hline2);
      try assumption.
    + rewrite Hcap1. unfold clock_fits. rewrite Hclock1. exact Hclock.
    + rewrite Hcap1. exact Hks.
    + exists (new1 ++ new2). split.
      * rewrite Ha2, Ha1, <- app_assoc. reflexivity.
      * rewrite app_assoc. exact Hline2.
Qed.

End CallCarries.

(** C6, amended.  For an admitted record logged with SUCCESS on a tidy
    context, where every timestamp and the tagged line (tag, payload,
    newline) fit the capacity with their NUL: the tagged line is whole at the
    end of the pending bytes, and the file followed by the pending bytes has
    grown by the timestamp followed by the tagged line.  Through any later
    calls that return SUCCESS and whose texts fit, the tagged line stays
    whole: it is in the pending bytes or inside one of the writes made to the
    file since, each write being the whole of the bytes pending at a flush.
    The timestamp is buffered by a step of its own and may have gone to the
    file in the write of an earlier flush than the tagged line. *)
Theorem tagged_line_is_whole (level : LogLevelType) (text : cstring)
    (ks : list Call) (c c1 c2 : LoggerContext) (w w1 w2 : World)
    (sts : list TextLoggerStatusType) :
  tidy c ->
  clock_fits (maxBufferByteSize c) w ->
  Forall (text_fits (maxBufferByteSize c)) (CallLog level text :: ks) ->
  level_ord level <= logLevel c ->
  log_call level PTR (Some text) c w = (TEXTLOGGER_SUCCESS, c1, w1) ->
  run ks c1 w1 = (sts, c2, w2) ->
  Forall (fun st => st = TEXTLOGGER_SUCCESS) sts ->
  (exists pre, pending c1 = pre ++ tagged_line level text)
  /\ file_bytes w1 ++ pending c1
     = file_bytes w ++ pending c ++ next_timestamp w ++ tagged_line level text
  /\ exists new,
       file_appends w2 = file_appends w1 ++ new
       /\ carried (tagged_line level text) c2 new.
Proof.
  intros Htidy Hclock Htexts Hlevel Hlog Hrun Hok. int_limits.
  apply Forall_cons_iff in Htexts. destruct Htexts as [Hline_fits Hks].
  pose proof (Hclock (ticks w)) as Hstamp_fits.
  fold (next_timestamp w) in Hstamp_fits. unfold text_fits in Hline_fits.
  pose proof (call_carries (tagged_line level text) (CallLog level text)
                c c1 w w1 Htidy Hclock Hline_fits Hlog)
    as (Htidy1 & Hcap1 & Hclock1 & _).
  rewrite log_call_unfold in Hlog.
  destruct (Z.leb_spec (level_ord level) (logLevel c)); [ | lia].
  rewrite write_unfold in Hlog.
  destruct (TextLogger_LogTimeStamp PTR c w) as [[st c0] w0] eqn:Hstamp.
  destruct st; simpl in Hlog; try discriminate.
  rewrite timestamp_unfold in Hstamp.
  apply flush_then_write_carries in Hstamp; [ | exact Htidy | lia | lia ].
  destruct Hstamp as (Htidy0 & Hcap0 & _ & Hi0 & Hcase0).
  assert (Htext : 0 <= strlen text) by (unfold strlen; lia).
  pose proof Htidy as (_ & _ & Hcap).
  unfold LOG_EXTRA_STR_LENGTH in *.
  rewrite wrap_int_to_size_t, wrap_int_id in Hlog by in_int.
  apply flush_then_write_carries in Hlog;
    [ | exact Htidy0
      | rewrite tagged_line_length; unfold LOG_EXTRA_STR_LENGTH; lia
      | lia ].
  destruct Hlog as (_ & _ & _ & Hi1 & Hcase1).
  assert (Hend : exists pre, pending c1 = pre ++ tagged_line level text).
  { destruct Hcase1 as [[_ Hp] | [_ Hp]].
    - exists (pending c0). exact Hp.
    - exists []. exact Hp. }
  split; [exact Hend | split].
  - rewrite (carried_stream c0 c1 w0 w1 _ Hi1 Hcase1).
    rewrite (app_assoc (file_bytes w0)).
    rewrite (carried_stream c c0 _ w0 _ Hi0 Hcase0).
    rewrite file_bytes_after_clock, <- !app_assoc. reflexivity.
  - destruct Hend as [pre Hpre].
    destruct (run_carries (tagged_line level text) ks c1 c2 w1 w2 sts [])
      as (new & Ha & Hline); try assumption.
    + rewrite Hcap1. unfold clock_fits. rewrite Hclock1. exact Hclock.
    + rewrite Hcap1. exact Hks.
    + left. exists pre, []. rewrite app_nil_r. exact Hpre.
    + exists new. split; [exact Ha | exact Hline].
Qed.

Lemma tagged_line_is_whole_witness :
  let ks := [CallTimeStamp; CallLog LOG_LEVEL_WARN forty; CallFlush] in
  let r1 := log_call LOG_LEVEL_INFO PTR (Some forty) fresh (calm []) in
  let c1 := snd (fst r1) in
  let w1 := snd r1 in
  let r2 := run ks c1 w1 in
  (exists pre, pending c1 = pre ++ tagged_line LOG_LEVEL_INFO forty)
  /\ file_bytes w1 ++ pending c1
     = file_bytes (calm []) ++ pending fresh
       ++ next_timestamp (calm []) ++ tagged_line LOG_LEVEL_INFO forty
  /\ exists new,
       file_appends (snd r2) = file_appends w1 ++ new
       /\ carried (tagged_line LOG_LEVEL_INFO forty) (snd (fst r2)) new.
Proof.
  intros ks r1 c1 w1 r2.
  apply (tagged_line_is_whole LOG_LEVEL_INFO forty ks fresh c1 (snd (fst r2))
           (calm []) w1 (snd r2) (fst (fst r2))).
  - unfold tidy, int_max. simpl. repeat split; lia.
  - intros n. vm_compute. reflexivity.
  - unfold ks. repeat constructor; vm_compute; reflexivity.
  - simpl. lia.
  - vm_compute. reflexivity.
  - vm_compute. reflexivity.
  - vm_compute. repeat constructor.
Defined.

(** C6 as stated fails.  On a context of capacity 64 an INFO record of 40
    characters is logged and then flushed: the timestamp goes to the file in
    the write of the flush inside the call, the tagged line in the write of
    the flush after it, and neither write is long enough for the record. *)
Lemma timestamp_flushed_apart :
  exists c0 c w,
    TextLogger_Create (Some test_path) (Some (lit "X"%string)) 5 64 2048
                      (calm []) = Some c0
    /\ TextLogger_LogInfo PTR (Some forty) c0 (calm [])
       = (TEXTLOGGER_SUCCESS, c, w)
    /\ file_appends w = [next_timestamp (calm [])]
    /\ pending c = tagged_line LOG_LEVEL_INFO forty
    /\ let '(st, _, w2) := TextLogger_FlushTextToFileStream PTR c w in
       st = TEXTLOGGER_SUCCESS
       /\ file_appends w2
          = [next_timestamp (calm []); tagged_line LOG_LEVEL_INFO forty]
       /\ Forall (fun chunk =>
                    (length chunk
                     < length (next_timestamp (calm [])
                               ++ tagged_line LOG_LEVEL_INFO forty))%nat)
                 (file_appends w2).
Proof.
  do 3 eexists. split; [ vm_compute; reflexivity | ].
  split; [ vm_compute; reflexivity | ].
  split; [ vm_compute; reflexivity | ].
  split; [ vm_compute; reflexivity | ].
  vm_compute. repeat split. repeat constructor.
Qed.

(** ** The cursor stays inside the capacity when the texts fit *)

Lemma flush_keeps_tidy (c : LoggerContext) (w : World) :
  tidy c -> tidy (snd (fst (TextLogger_FlushTextToFileStream PTR c w))).
Proof.
  intros (Hmem & Hcur & Hcap).
  pose proof (flush_frame c w PTR) as Hframe.
  assert (Hpos : let '(_, c', _) := TextLogger_FlushTextToFileStream PTR c w in
                 currBytePos c' = currBytePos c \/ currBytePos c' = 0).
  { unfold TextLogger_FlushTextToFileStream.
    destruct (maxFileSize c <=? totalBytesStored c).
    - destruct (fileLimitIsReached c); simpl; [left; reflexivity | ].
      destruct (TextLogger_FlushErrMsgToFileStream _ w) as [st w1].
      destruct (is_file_error st); left; reflexivity.
    - destruct (0 =? currBytePos c); [left; reflexivity | ].
      destruct (fopen_ab w) as [[f | ] w1]; [ | left; reflexivity].
      destruct (_ >? _); [right; reflexivity | ].
      destruct (fwrite f _ w1) as [n w2].
      destruct (negb _); [left | right]; reflexivity. }
  destruct (TextLogger_FlushTextToFileStream PTR c w) as [[st c1] w1].
  destruct Hframe as (Hbuf & _ & _ & _ & Hsize & _). simpl.
  unfold tidy. rewrite Hbuf, Hsize. destruct Hpos as [-> | ->];
    repeat split; lia.
Qed.

Lemma flush_then_write_keeps_tidy (c : LoggerContext) (w : World) (len : Z)
    (s : cstring) :
  tidy c ->
  strlen s <= len ->
  len < maxBufferByteSize c ->
  tidy (snd (fst (flush_then_write c w len s)))
  /\ maxBufferByteSize (snd (fst (flush_then_write c w len s)))
     = maxBufferByteSize c.
Proof.
  intros Htidy Hlen Hfit.
  destruct (flush_then_write c w len s) as [[st c'] w'] eqn:Hstep.
  destruct st;
    [ apply flush_then_write_carries in Hstep; try assumption;
      destruct Hstep as (H1 & H2 & _); split; assumption | | | ];
    unfold flush_then_write in Hstep;
    (destruct (TextLogger_FlushBufferIsNeeded c len); [ | discriminate]);
    pose proof (flush_keeps_tidy c w Htidy) as Hkeep;
    pose proof (flush_frame c w PTR) as Hframe;
    destruct (TextLogger_FlushTextToFileStream PTR c w) as [[st1 c1] w1];
    destruct st1; simpl in Hstep; inversion Hstep; subst;
    destruct Hframe as (_ & _ & _ & _ & Hsize & _);
    split; assumption.
Qed.

(** Every call keeps a tidy context tidy, whatever its status, when the texts
    it formats fit the capacity. *)
Lemma call_keeps_tidy (k : Call) (c : LoggerContext) (w : World) :
  tidy c -> fits k c w -> tidy (snd (fst (call k c w))).
Proof.
  intros Htidy Hfits.
  int_limits.
  destruct k as [level text | | ]; unfold call, fits in *.
  - destruct Hfits as [Hstamp Hline].
    rewrite log_call_unfold.
    destruct (level_ord level <=? logLevel c); [ | exact Htidy].
    rewrite write_unfold, timestamp_unfold.
    destruct (flush_then_write_keeps_tidy c (snd (localtime_now w))
                (strlen (next_timestamp w)) (next_timestamp w) Htidy)
      as [Htidy1 Hcap1]; [lia | lia | ].
    destruct (flush_then_write c _ _ _) as [[st c1] w1]. simpl in Htidy1, Hcap1.
    destruct st; simpl; try exact Htidy1.
    assert (Htext : 0 <= strlen text) by (unfold strlen; lia).
    pose proof Htidy as (_ & _ & Hcap).
    unfold LOG_EXTRA_STR_LENGTH in *.
    rewrite wrap_int_to_size_t, wrap_int_id by in_int.
    apply flush_then_write_keeps_tidy; [ exact Htidy1 | | lia ].
    rewrite tagged_line_length. unfold LOG_EXTRA_STR_LENGTH. lia.
  - rewrite timestamp_unfold.
    apply flush_then_write_keeps_tidy; [exact Htidy | lia | lia].
  - apply flush_keeps_tidy, Htidy.
Qed.

(** ** Scenarios of the specification, run on the embedding *)

(** S1: one INFO record, then a flush; the file holds the timestamp and the
    tagged line, and nothing is pending. *)
Example scenario_basic :
  exists c w,
    session limit_marker 1024 2048 (calm [])
            [CallLog LOG_LEVEL_INFO (lit "hello"%string); CallFlush]
    = Some ([TEXTLOGGER_SUCCESS; TEXTLOGGER_SUCCESS], c, w)
    /\ file_bytes w
       = lit "[2024-05-07 | 12:00:00] [I]: hello"%string ++ [newline]
    /\ currBytePos c = 0.
Proof.
  do 2 eexists. split; [ vm_compute; reflexivity | ].
  split; vm_compute; reflexivity.
Qed.

(** S2: with the level WARN only the ERROR record of three reaches the
    file. *)
Example scenario_filter :
  let c := mk_LoggerContext (repeat NUL 1024) test_path limit_marker
                            2 1024 2035 0 0 false in
  let '(sts, _, w) :=
    run [CallLog LOG_LEVEL_ERROR (lit "e"%string);
         CallLog LOG_LEVEL_INFO (lit "i"%string);
         CallLog LOG_LEVEL_DEBUG (lit "d"%string); CallFlush] c (calm []) in
  sts = [TEXTLOGGER_SUCCESS; TEXTLOGGER_SUCCESS; TEXTLOGGER_SUCCESS;
         TEXTLOGGER_SUCCESS]
  /\ file_bytes w = lit "[2024-05-07 | 12:00:00] [E]: e"%string ++ [newline].
Proof. vm_compute. split; reflexivity. Qed.

(** S4: the accounting passes the budget of 198; the next flush writes the
    end-marker once and returns INSUFFICIENT_FILE_SPACE, and so does the one
    after it, without writing. *)
Example scenario_budget :
  exists c w,
    session (lit "X"%string) 512 200 (calm [])
            [CallLog LOG_LEVEL_INFO forty; CallLog LOG_LEVEL_INFO forty;
             CallLog LOG_LEVEL_INFO forty; CallFlush; CallFlush]
    = Some ([TEXTLOGGER_SUCCESS; TEXTLOGGER_SUCCESS; TEXTLOGGER_SUCCESS;
             TEXTLOGGER_ERR_INSUFFICIENT_FILE_SPACE;
             TEXTLOGGER_ERR_INSUFFICIENT_FILE_SPACE], c, w)
    /\ totalBytesStored c = 210
    /\ fileLimitIsReached c = true
    /\ length (file_appends w) = 2%nat
    /\ last (file_appends w) [] = lit "X"%string.
Proof.
  do 2 eexists. split; [ vm_compute; reflexivity | ].
  repeat split; vm_compute; reflexivity.
Qed.

(** * Further properties of the logger *)

(** ** What a flush does, branch by branch *)

Lemma fopen_ab_healthy (w : World) :
  os w (opens w) = Healthy ->
  exists w1,
    fopen_ab w = (Some (Stream None), w1)
    /\ same_file w w1 /\ same_time w w1
    /\ opens w1 = S (opens w) /\ os w1 = os w.
Proof.
  intros H. unfold fopen_ab. rewrite H. eexists.
  split; [reflexivity | repeat split].
Qed.

Lemma ftell_same_file (w w1 : World) :
  same_file w w1 -> ftell_end w1 = ftell_end w.
Proof. intros [Hi Ha]. unfold ftell_end, file_bytes. congruence. Qed.

Lemma file_bytes_appended (w w' : World) (chunk : list ascii) :
  file_init w' = file_init w ->
  file_appends w' = file_appends w ++ [chunk] ->
  file_bytes w' = file_bytes w ++ chunk.
Proof.
  intros Hi Ha. unfold file_bytes.
  rewrite Hi, Ha, concat_app. simpl. rewrite app_nil_r, app_assoc. reflexivity.
Qed.

Lemma pending_of_empty (c : LoggerContext) : currBytePos c = 0 -> pending c = [].
Proof. intros H. unfold pending. rewrite H. reflexivity. Qed.

Section FlushBranches.

Variable c : LoggerContext.
Variable w : World.

Lemma flush_with_room :
  tidy c ->
  totalBytesStored c < maxFileSize c ->
  os w (opens w) = Healthy ->
  currBytePos c + ftell_end w <= maxFileSize c ->
  exists c' w',
    TextLogger_FlushTextToFileStream PTR c w = (TEXTLOGGER_SUCCESS, c', w')
    /\ currBytePos c' = 0
    /\ file_bytes w' = file_bytes w ++ pending c
    /\ totalBytesStored c' = totalBytesStored c
    /\ fileLimitIsReached c' = fileLimitIsReached c.
Proof.
  intros Htidy Hbudget Hos Hroom.
  assert (Hstatus : fst (fst (TextLogger_FlushTextToFileStream PTR c w))
                    = TEXTLOGGER_SUCCESS).
  { unfold TextLogger_FlushTextToFileStream.
    destruct (Z.leb_spec (maxFileSize c) (totalBytesStored c)); [lia | ].
    destruct (0 =? currBytePos c); [reflexivity | ].
    destruct (fopen_ab_healthy w Hos) as (w1 & -> & Hfile & _).
    rewrite (ftell_same_file _ _ Hfile).
    destruct (Z.gtb_spec (currBytePos c + ftell_end w) (maxFileSize c));
      [lia | ].
    unfold fwrite. rewrite load_bytes_length, Z2Nat.id, Z.eqb_refl;
      [reflexivity | ].
    unfold to_size_t. apply Z.mod_pos_bound. lia. }
  pose proof (flush_frame c w PTR) as Hframe.
  destruct (TextLogger_FlushTextToFileStream PTR c w) as [[st c'] w'] eqn:Hflush.
  simpl in Hstatus. subst st.
  destruct Hframe as (_ & _ & _ & _ & _ & _ & Htotal).
  destruct (flush_carries_pending _ _ _ _ Htidy Hflush) as (_ & Hzero & Hi & Ha).
  destruct (flush_success _ _ _ _ Hflush) as (_ & _ & Hlatch & _).
  exists c', w'. split; [reflexivity | ].
  split; [exact Hzero | split; [ | split; assumption] ].
  destruct (Z.eqb_spec 0 (currBytePos c)) as [Hnone | Hsome].
  - rewrite app_nil_r in Ha. rewrite pending_of_empty, app_nil_r by lia.
    unfold file_bytes. congruence.
  - apply file_bytes_appended; assumption.
Qed.

(** X1.  With the accounting below the budget, a file layer that works and
    room in the file for the pending bytes, a flush on a tidy context returns
    SUCCESS, appends exactly the pending bytes to the file, leaves the cursor
    at 0 and keeps the accounting and the latch. *)
Theorem flush_commits_pending :
  tidy c ->
  totalBytesStored c < maxFileSize c ->
  os w (opens w) = Healthy ->
  currBytePos c + ftell_end w <= maxFileSize c ->
  exists c' w',
    TextLogger_FlushTextToFileStream PTR c w = (TEXTLOGGER_SUCCESS, c', w')
    /\ currBytePos c' = 0
    /\ file_bytes w' = file_bytes w ++ pending c
    /\ totalBytesStored c' = totalBytesStored c
    /\ fileLimitIsReached c' = fileLimitIsReached c.
Proof. exact flush_with_room. Qed.

(** X2.  [TextLogger_Destroy] loses nothing when there is room: with the
    accounting below the budget, a file layer that works and room in the file
    for the pending bytes, it returns SUCCESS, the file ends with the bytes
    that were pending, and the context is released. *)
Theorem destroy_commits_pending :
  tidy c ->
  totalBytesStored c < maxFileSize c ->
  os w (opens w) = Healthy ->
  currBytePos c + ftell_end w <= maxFileSize c ->
  exists w',
    TextLogger_Destroy PTR c w = (TEXTLOGGER_SUCCESS, None, w')
    /\ file_bytes w' = file_bytes w ++ pending c.
Proof.
  intros Htidy Hbudget Hos Hroom. unfold TextLogger_Destroy.
  destruct (flush_with_room Htidy Hbudget Hos Hroom)
    as (c' & w' & -> & _ & Hbytes & _).
  exists w'. split; [reflexivity | exact Hbytes].
Qed.

(** X3.  When the file cannot be opened, a flush with bytes pending and the
    accounting below the budget returns FILE_ERROR and leaves the context
    and the file as they were. *)
Theorem flush_open_failure :
  totalBytesStored c < maxFileSize c ->
  currBytePos c <> 0 ->
  os w (opens w) = OpenFails ->
  exists w',
    TextLogger_FlushTextToFileStream PTR c w = (TEXTLOGGER_ERR_FILE_ERROR, c, w')
    /\ same_file w w'.
Proof.
  intros Hbudget Hpend Hos. unfold TextLogger_FlushTextToFileStream.
  destruct (Z.leb_spec (maxFileSize c) (totalBytesStored c)); [lia | ].
  destruct (Z.eqb_spec 0 (currBytePos c)); [lia | ].
  unfold fopen_ab. rewrite Hos. eexists. split; [reflexivity | split; reflexivity].
Qed.

(** The world after a short write: the bytes taken are in the file and one
    more [fopen] is counted. *)
Lemma flush_short_write_world (k : Z) :
  tidy c ->
  totalBytesStored c < maxFileSize c ->
  os w (opens w) = WriteStops k ->
  0 <= k < currBytePos c ->
  currBytePos c + ftell_end w <= maxFileSize c ->
  TextLogger_FlushTextToFileStream PTR c w
  = (TEXTLOGGER_ERR_FILE_ERROR, c,
     mk_World (file_init w)
              (file_appends w ++ [firstn (Z.to_nat k) (pending c)])
              (clock w) (ticks w) (os w) (S (opens w)) (malloc_ok w)).
Proof.
  intros (Hmem & Hcur & Hcap) Hbudget Hos Hk Hroom. int_limits.
  unfold TextLogger_FlushTextToFileStream.
  destruct (Z.leb_spec (maxFileSize c) (totalBytesStored c)); [lia | ].
  destruct (Z.eqb_spec 0 (currBytePos c)); [lia | ].
  unfold fopen_ab. rewrite Hos.
  set (w1 := mk_World _ _ _ _ _ _ _).
  assert (Hfile : same_file w w1) by (split; reflexivity).
  rewrite (ftell_same_file _ _ Hfile).
  destruct (Z.gtb_spec (currBytePos c + ftell_end w) (maxFileSize c)); [lia | ].
  assert (Hload : load_bytes (pTextBuffer c) (to_size_t (currBytePos c))
                  = pending c).
  { rewrite to_size_t_id by lia. apply load_bytes_inside. lia. }
  rewrite Hload. unfold fwrite.
  assert (Hlen : Z.of_nat (length (pending c)) = currBytePos c).
  { unfold pending. rewrite length_firstn. lia. }
  rewrite Hlen, to_size_t_id by lia.
  replace (Z.max 0 (Z.min k (currBytePos c))) with k by lia.
  destruct (Z.eqb_spec k (currBytePos c)); [lia | ]. reflexivity.
Qed.

(** A flush that finds no room for the pending bytes in the file writes
    nothing and empties the buffer. *)
Lemma flush_without_room :
  totalBytesStored c < maxFileSize c ->
  currBytePos c <> 0 ->
  os w (opens w) = Healthy ->
  currBytePos c + ftell_end w > maxFileSize c ->
  exists c' w',
    TextLogger_FlushTextToFileStream PTR c w
    = (TEXTLOGGER_ERR_INSUFFICIENT_FILE_SPACE, c', w')
    /\ currBytePos c' = 0
    /\ same_file w w'.
Proof.
  intros Hbudget Hpend Hos Hover.
  unfold TextLogger_FlushTextToFileStream.
  destruct (Z.leb_spec (maxFileSize c) (totalBytesStored c)); [lia | ].
  destruct (Z.eqb_spec 0 (currBytePos c)); [lia | ].
  unfold fopen_ab. rewrite Hos.
  set (w1 := mk_World _ _ _ _ _ _ _).
  assert (Hfile : same_file w w1) by (split; reflexivity).
  rewrite (ftell_same_file _ _ Hfile).
  destruct (Z.gtb_spec (currBytePos c + ftell_end w) (maxFileSize c)); [ | lia].
  do 2 eexists. split; [reflexivity | ]. split; [reflexivity | exact Hfile].
Qed.

End FlushBranches.

(** X4.  When [fwrite] takes only [k] of the pending bytes, fewer than the
    cursor counts, the flush returns FILE_ERROR and leaves the context as it
    was, cursor included, but the file has grown by these [k] bytes.  What a
    retry of the flush does, when the file layer works again, depends on the
    room left: if the pending bytes still fit the budget behind the [k]
    bytes, it returns SUCCESS and appends all of them, so the first [k] are
    in the file twice; if they do not, it returns INSUFFICIENT_FILE_SPACE,
    writes nothing and empties the buffer, so only the first [k] of them are
    in the file. *)
Theorem flush_short_write (c : LoggerContext) (w : World) (k : Z) :
  tidy c ->
  totalBytesStored c < maxFileSize c ->
  os w (opens w) = WriteStops k ->
  0 <= k < currBytePos c ->
  currBytePos c + ftell_end w <= maxFileSize c ->
  exists w',
    TextLogger_FlushTextToFileStream PTR c w = (TEXTLOGGER_ERR_FILE_ERROR, c, w')
    /\ file_bytes w' = file_bytes w ++ firstn (Z.to_nat k) (pending c)
    /\ (os w (S (opens w)) = Healthy ->
        currBytePos c + (ftell_end w + k) <= maxFileSize c ->
        exists c'' w'',
          TextLogger_FlushTextToFileStream PTR c w'
          = (TEXTLOGGER_SUCCESS, c'', w'')
          /\ currBytePos c'' = 0
          /\ file_bytes w''
             = file_bytes w ++ firstn (Z.to_nat k) (pending c) ++ pending c)
    /\ (os w (S (opens w)) = Healthy ->
        currBytePos c + (ftell_end w + k) > maxFileSize c ->
        exists c'' w'',
          TextLogger_FlushTextToFileStream PTR c w'
          = (TEXTLOGGER_ERR_INSUFFICIENT_FILE_SPACE, c'', w'')
          /\ currBytePos c'' = 0
          /\ file_bytes w''
             = file_bytes w ++ firstn (Z.to_nat k) (pending c)).
Proof.
  intros Htidy Hbudget Hos Hk Hroom.
  rewrite (flush_short_write_world c w k Htidy Hbudget Hos Hk Hroom).
  set (w' := mk_World _ _ _ _ _ _ _).
  assert (Hbytes : file_bytes w'
                   = file_bytes w ++ firstn (Z.to_nat k) (pending c))
    by (apply file_bytes_appended; reflexivity).
  assert (Hlen : ftell_end w' = ftell_end w + k).
  { unfold ftell_end. rewrite Hbytes, length_app, length_firstn.
    unfold pending. rewrite length_firstn.
    destruct Htidy as (Hmem & Hcur & Hcap). lia. }
  exists w'. split; [reflexivity | ]. split; [exact Hbytes | ]. split.
  - intros Hnext Hfits.
    destruct (flush_with_room c w' Htidy Hbudget Hnext
                ltac:(rewrite Hlen; exact Hfits))
      as (c'' & w'' & Hflush & Hzero & Hfile & _).
    exists c'', w''. split; [exact Hflush | ]. split; [exact Hzero | ].
    rewrite Hfile, Hbytes, <- app_assoc. reflexivity.
  - intros Hnext Hover.
    destruct (flush_without_room c w' Hbudget ltac:(lia) Hnext
                ltac:(rewrite Hlen; exact Hover))
      as (c'' & w'' & Hflush & Hzero & Hsame).
    exists c'', w''. split; [exact Hflush | ]. split; [exact Hzero | ].
    rewrite <- Hbytes. unfold file_bytes.
    destruct Hsame as [-> ->]. reflexivity.
Qed.

Lemma flush_commits_pending_witness :
  exists c' w',
    TextLogger_FlushTextToFileStream PTR loaded (calm [])
    = (TEXTLOGGER_SUCCESS, c', w')
    /\ currBytePos c' = 0
    /\ file_bytes w' = file_bytes (calm []) ++ pending loaded
    /\ totalBytesStored c' = totalBytesStored loaded
    /\ fileLimitIsReached c' = fileLimitIsReached loaded.
Proof.
  apply (flush_commits_pending loaded (calm [])).
  - unfold tidy, int_max. simpl. repeat split; lia.
  - simpl. lia.
  - reflexivity.
  - vm_compute. discriminate.
Defined.

Lemma destroy_commits_pending_witness :
  exists w',
    TextLogger_Destroy PTR loaded (calm []) = (TEXTLOGGER_SUCCESS, None, w')
    /\ file_bytes w' = file_bytes (calm []) ++ pending loaded.
Proof.
  apply (destroy_commits_pending loaded (calm [])).
  - unfold tidy, int_max. simpl. repeat split; lia.
  - simpl. lia.
  - reflexivity.
  - vm_compute. discriminate.
Defined.

Lemma flush_open_failure_witness :
  exists w',
    TextLogger_FlushTextToFileStream PTR loaded (world_of [] (fun _ => OpenFails))
    = (TEXTLOGGER_ERR_FILE_ERROR, loaded, w')
    /\ same_file (world_of [] (fun _ => OpenFails)) w'.
Proof.
  apply (flush_open_failure loaded (world_of [] (fun _ => OpenFails))).
  - simpl. lia.
  - simpl. lia.
  - reflexivity.
Defined.

Lemma flush_short_write_witness :
  exists w',
    TextLogger_FlushTextToFileStream PTR loaded (world_of [] (stops_once 50))
    = (TEXTLOGGER_ERR_FILE_ERROR, loaded, w')
    /\ file_bytes w'
       = file_bytes (world_of [] (stops_once 50))
         ++ firstn (Z.to_nat 50) (pending loaded)
    /\ (os (world_of [] (stops_once 50))
           (S (opens (world_of [] (stops_once 50)))) = Healthy ->
        currBytePos loaded + (ftell_end (world_of [] (stops_once 50)) + 50)
        <= maxFileSize loaded ->
        exists c'' w'',
          TextLogger_FlushTextToFileStream PTR loaded w'
          = (TEXTLOGGER_SUCCESS, c'', w'')
          /\ currBytePos c'' = 0
          /\ file_bytes w''
             = file_bytes (world_of [] (stops_once 50))
               ++ firstn (Z.to_nat 50) (pending loaded) ++ pending loaded)
    /\ (os (world_of [] (stops_once 50))
           (S (opens (world_of [] (stops_once 50)))) = Healthy ->
        currBytePos loaded + (ftell_end (world_of [] (stops_once 50)) + 50)
        > maxFileSize loaded ->
        exists c'' w'',
          TextLogger_FlushTextToFileStream PTR loaded w'
          = (TEXTLOGGER_ERR_INSUFFICIENT_FILE_SPACE, c'', w'')
          /\ currBytePos c'' = 0
          /\ file_bytes w''
             = file_bytes (world_of [] (stops_once 50))
               ++ firstn (Z.to_nat 50) (pending loaded)).
Proof.
  apply (flush_short_write loaded (world_of [] (stops_once 50)) 50).
  - unfold tidy, int_max. simpl. repeat split; lia.
  - simpl. lia.
  - reflexivity.
  - simpl. lia.
  - vm_compute. discriminate.
Defined.

(** X5.  A flush that has succeeded leaves nothing to do: the flush after it
    returns SUCCESS and changes neither the context nor the world. *)
Theorem flush_twice (c c' : LoggerContext) (w w' : World) :
  TextLogger_FlushTextToFileStream PTR c w = (TEXTLOGGER_SUCCESS, c', w') ->
  TextLogger_FlushTextToFileStream PTR c' w' = (TEXTLOGGER_SUCCESS, c', w').
Proof.
  intros Hflush.
  pose proof (flush_frame c w PTR) as Hframe. rewrite Hflush in Hframe.
  destruct Hframe as (_ & _ & _ & _ & _ & Hsize & Htotal).
  destruct (flush_success _ _ _ _ Hflush) as (Hlt & Hzero & _).
  unfold TextLogger_FlushTextToFileStream. rewrite Hsize, Htotal, Hzero.
  destruct (Z.leb_spec (maxFileSize c) (totalBytesStored c)); [lia | ].
  reflexivity.
Qed.

Lemma flush_twice_witness :
  let r := TextLogger_FlushTextToFileStream PTR loaded (calm []) in
  TextLogger_FlushTextToFileStream PTR (snd (fst r)) (snd r)
  = (TEXTLOGGER_SUCCESS, snd (fst r), snd r).
Proof.
  intros r. apply (flush_twice loaded (snd (fst r)) (calm []) (snd r)).
  vm_compute. reflexivity.
Defined.

(** ** The end-marker *)

Lemma decision_spent (c : LoggerContext) (len : Z) :
  maxFileSize c <= totalBytesStored c ->
  int_range (maxFileSize c - totalBytesStored c) ->
  0 <= len ->
  TextLogger_FlushBufferIsNeeded c len = true.
Proof.
  intros Hle Hroom Hlen. unfold TextLogger_FlushBufferIsNeeded.
  rewrite (wrap_int_id _ Hroom). apply orb_true_iff. left.
  apply Z.leb_le. lia.
Qed.

(** The first flush after the accounting has reached the budget, with a file
    layer that works: the latch is set and the end-marker is appended. *)
Lemma flush_writes_end_marker (c : LoggerContext) (w : World) :
  maxFileSize c <= totalBytesStored c ->
  fileLimitIsReached c = false ->
  os w (opens w) = Healthy ->
  exists w',
    TextLogger_FlushTextToFileStream PTR c w
    = (TEXTLOGGER_ERR_INSUFFICIENT_FILE_SPACE, set_fileLimitIsReached c true, w')
    /\ file_init w' = file_init w
    /\ file_appends w' = file_appends w ++ [pErrMsg c].
Proof.
  intros Hle Hlatch Hos.
  unfold TextLogger_FlushTextToFileStream, TextLogger_FlushErrMsgToFileStream.
  destruct (Z.leb_spec (maxFileSize c) (totalBytesStored c)); [ | lia].
  rewrite Hlatch. simpl negb. cbv iota.
  destruct (fopen_ab_healthy w Hos) as (w1 & -> & [Hi Ha] & _).
  unfold fwrite, strlen. simpl pErrMsg. rewrite Z.eqb_refl. simpl.
  eexists. split; [reflexivity | ]. simpl.
  rewrite Nat2Z.id, firstn_all, Hi, Ha. split; reflexivity.
Qed.

Lemma call_writes_end_marker (k : Call) (c : LoggerContext) (w : World) :
  maxFileSize c <= totalBytesStored c ->
  fileLimitIsReached c = false ->
  int_range (maxFileSize c - totalBytesStored c) ->
  os w (opens w) = Healthy ->
  refusal c k = TEXTLOGGER_ERR_INSUFFICIENT_FILE_SPACE ->
  exists w',
    call k c w
    = (TEXTLOGGER_ERR_INSUFFICIENT_FILE_SPACE, set_fileLimitIsReached c true, w')
    /\ file_init w' = file_init w
    /\ file_appends w' = file_appends w ++ [pErrMsg c].
Proof.
  intros Hle Hlatch Hroom Hos Hrefused.
  assert (Hstamp : forall w0, os w0 (opens w0) = Healthy ->
            exists w',
              TextLogger_LogTimeStamp PTR c w0
              = (TEXTLOGGER_ERR_INSUFFICIENT_FILE_SPACE,
                 set_fileLimitIsReached c true, w')
              /\ file_init w' = file_init w0
              /\ file_appends w' = file_appends w0 ++ [pErrMsg c]).
  { intros w0 Hos0. rewrite timestamp_unfold. unfold flush_then_write.
    rewrite decision_spent; try assumption;
      [ | apply format_timestamp_length ].
    destruct (flush_writes_end_marker c (snd (localtime_now w0)) Hle Hlatch Hos0)
      as (w' & -> & Hi & Ha).
    exists w'. split; [reflexivity | split; assumption]. }
  destruct k as [level text | | ]; unfold call.
  - rewrite log_call_unfold. unfold refusal in Hrefused.
    destruct (level_ord level <=? logLevel c); [ | discriminate].
    rewrite write_unfold.
    destruct (Hstamp w Hos) as (w' & -> & Hi & Ha).
    exists w'. split; [reflexivity | split; assumption].
  - apply Hstamp, Hos.
  - apply flush_writes_end_marker; assumption.
Qed.

(** Calls on an exhausted context, as many as wanted. *)
Lemma run_exhausted (ks : list Call) (c : LoggerContext) (w : World) :
  exhausted c ->
  int_range (maxFileSize c - totalBytesStored c) ->
  exists w',
    run ks c w = (map (refusal c) ks, c, w')
    /\ same_file w w' /\ opens w' = opens w.
Proof.
  intros Hspent Hroom. revert w.
  induction ks as [ | k ks IH]; intros w; simpl.
  - exists w. repeat split.
  - destruct (call_exhausted c Hspent Hroom k w) as (w1 & -> & [Hi Ha] & Ho).
    destruct (IH w1) as (w2 & -> & [Hi2 Ha2] & Ho2).
    exists w2. repeat split; congruence.
Qed.

(** X6.  When the accounting has reached the budget with the latch clear and
    the file layer works, the first call that is not dropped by the level
    filter writes the end-marker, and nothing is written after it: whatever
    calls follow, the file is the file of before with the end-marker added
    once, and every call that is not dropped returns
    INSUFFICIENT_FILE_SPACE. *)
Theorem end_marker_written_once (k : Call) (ks : list Call)
    (c : LoggerContext) (w : World) :
  maxFileSize c <= totalBytesStored c ->
  fileLimitIsReached c = false ->
  int_range (maxFileSize c - totalBytesStored c) ->
  os w (opens w) = Healthy ->
  refusal c k = TEXTLOGGER_ERR_INSUFFICIENT_FILE_SPACE ->
  exists w',
    run (k :: ks) c w
    = (map (refusal c) (k :: ks), set_fileLimitIsReached c true, w')
    /\ file_bytes w' = file_bytes w ++ pErrMsg c.
Proof.
  intros Hle Hlatch Hroom Hos Hrefused. simpl run.
  destruct (call_writes_end_marker k c w Hle Hlatch Hroom Hos Hrefused)
    as (w1 & -> & Hi & Ha).
  destruct (run_exhausted ks (set_fileLimitIsReached c true) w1)
    as (w2 & -> & [Hi2 Ha2] & _).
  - split; [reflexivity | exact Hle].
  - exact Hroom.
  - exists w2. simpl map. rewrite Hrefused. split; [reflexivity | ].
    apply file_bytes_appended.
    + rewrite Hi2. exact Hi.
    + rewrite Ha2. exact Ha.
Qed.

Lemma end_marker_written_once_witness :
  exists w',
    run [CallLog LOG_LEVEL_ERROR forty; CallFlush; CallTimeStamp;
         CallLog LOG_LEVEL_DEBUG forty] overdrawn (calm [])
    = (map (refusal overdrawn)
           [CallLog LOG_LEVEL_ERROR forty; CallFlush; CallTimeStamp;
            CallLog LOG_LEVEL_DEBUG forty],
       set_fileLimitIsReached overdrawn true, w')
    /\ file_bytes w' = file_bytes (calm []) ++ pErrMsg overdrawn.
Proof.
  apply (end_marker_written_once (CallLog LOG_LEVEL_ERROR forty)
           [CallFlush; CallTimeStamp; CallLog LOG_LEVEL_DEBUG forty]
           overdrawn (calm [])).
  - simpl. lia.
  - reflexivity.
  - unfold int_range, int_min, int_max. simpl. lia.
  - reflexivity.
  - reflexivity.
Defined.

(** ** What no call changes *)

Lemma same_configuration_refl (c : LoggerContext) : same_configuration c c.
Proof. unfold same_configuration. repeat split. Qed.

Lemma same_configuration_trans (c1 c2 c3 : LoggerContext) :
  same_configuration c1 c2 -> same_configuration c2 c3 ->
  same_configuration c1 c3.
Proof.
  unfold same_configuration.
  intros (A1 & A2 & A3 & A4 & A5 & A6) (B1 & B2 & B3 & B4 & B5 & B6).
  repeat split; etransitivity; eassumption.
Qed.

Lemma implb_trans (a b d : bool) :
  implb a b = true -> implb b d = true -> implb a d = true.
Proof. destruct a, b, d; simpl; auto. Qed.

(** A flush keeps the configuration and never clears the latch, whatever its
    status. *)
Lemma flush_configuration (p : LoggerContextPtr) (c : LoggerContext)
    (w : World) :
  let c' := snd (fst (TextLogger_FlushTextToFileStream p c w)) in
  same_configuration c c'
  /\ implb (fileLimitIsReached c) (fileLimitIsReached c') = true.
Proof.
  pose proof (flush_frame c w p) as Hframe.
  assert (Hlatch : implb (fileLimitIsReached c)
            (fileLimitIsReached
               (snd (fst (TextLogger_FlushTextToFileStream p c w)))) = true).
  { destruct (fileLimitIsReached c) eqn:Hl; [ | reflexivity]. simpl.
    unfold TextLogger_FlushTextToFileStream.
    destruct p; [exact Hl | ].
    destruct (maxFileSize c <=? totalBytesStored c).
    - rewrite Hl. exact Hl.
    - destruct (0 =? currBytePos c); [exact Hl | ].
      destruct (fopen_ab w) as [[f | ] w1]; [ | exact Hl].
      destruct (_ >? _); [rewrite Hl; exact Hl | ].
      destruct (fwrite f _ w1) as [n w2].
      destruct (negb _); exact Hl. }
  destruct (TextLogger_FlushTextToFileStream p c w) as [[st c'] w'].
  simpl in *. destruct Hframe as (Hbuf & H1 & H2 & H3 & H4 & H5 & _).
  split; [ | exact Hlatch].
  unfold same_configuration. rewrite Hbuf. repeat split; assumption.
Qed.

Lemma write_at_cursor_configuration (c : LoggerContext) (s : cstring) :
  same_configuration c (write_at_cursor c s)
  /\ fileLimitIsReached (write_at_cursor c s) = fileLimitIsReached c.
Proof.
  destruct (write_at_cursor_frame c s) as (H1 & H2 & H3 & H4 & H5 & H6 & H7).
  unfold same_configuration. repeat split; assumption.
Qed.

Lemma flush_then_write_configuration (c : LoggerContext) (w : World)
    (len : Z) (s : cstring) :
  let c' := snd (fst (flush_then_write c w len s)) in
  same_configuration c c'
  /\ implb (fileLimitIsReached c) (fileLimitIsReached c') = true.
Proof.
  unfold flush_then_write.
  destruct (TextLogger_FlushBufferIsNeeded c len).
  - pose proof (flush_configuration PTR c w) as [Hconf Hlatch].
    destruct (TextLogger_FlushTextToFileStream PTR c w) as [[st c1] w1].
    simpl in Hconf, Hlatch.
    destruct (is_success st); simpl; [ | split; assumption].
    destruct (write_at_cursor_configuration c1 s) as [Hconf2 Hlatch2].
    split; [eapply same_configuration_trans; eassumption | ].
    try rewrite Hlatch2. exact Hlatch.
  - simpl. destruct (write_at_cursor_configuration c s) as [Hconf Hlatch].
    split; [exact Hconf | ]. try rewrite Hlatch.
    destruct (fileLimitIsReached c); reflexivity.
Qed.

Lemma call_configuration (k : Call) (c : LoggerContext) (w : World) :
  let c' := snd (fst (call k c w)) in
  same_configuration c c'
  /\ implb (fileLimitIsReached c) (fileLimitIsReached c') = true.
Proof.
  assert (Hstamp : forall w0,
            let c' := snd (fst (TextLogger_LogTimeStamp PTR c w0)) in
            same_configuration c c'
            /\ implb (fileLimitIsReached c) (fileLimitIsReached c') = true).
  { intros w0. rewrite timestamp_unfold. apply flush_then_write_configuration. }
  destruct k as [level text | | ]; unfold call.
  - rewrite log_call_unfold.
    destruct (level_ord level <=? logLevel c).
    + rewrite write_unfold. specialize (Hstamp w).
      destruct (TextLogger_LogTimeStamp PTR c w) as [[st c1] w1].
      simpl in Hstamp. destruct Hstamp as [Hconf Hlatch].
      destruct (is_success st); simpl; [ | split; assumption].
      pose proof (flush_then_write_configuration c1 w1
                    (wrap_int (to_size_t (strlen text + LOG_EXTRA_STR_LENGTH)))
                    (tagged_line level text)) as [Hconf2 Hlatch2].
      split; [eapply same_configuration_trans; eassumption | ].
      eapply implb_trans; eassumption.
    + simpl. split; [apply same_configuration_refl | ].
      destruct (fileLimitIsReached c); reflexivity.
  - apply Hstamp.
  - apply flush_configuration.
Qed.

Lemma session_configuration_aux (ks : list Call) (c : LoggerContext)
    (w : World) :
  same_configuration c (snd (fst (run ks c w))).
Proof.
  revert c w. induction ks as [ | k ks IH]; intros c w; simpl.
  - apply same_configuration_refl.
  - pose proof (call_configuration k c w) as [Hconf _].
    destruct (call k c w) as [[st c1] w1]. simpl in Hconf.
    specialize (IH c1 w1).
    destruct (run ks c1 w1) as [[sts c2] w2]. simpl in *.
    eapply same_configuration_trans; eassumption.
Qed.

(** X7.  Through any sequence of calls the configuration of the context is
    what it was: the file path, the end-marker, the level, the capacity, the
    effective budget and the size of the scratch buffer do not change; and
    the latch, once set, is never cleared. *)
Theorem session_keeps_configuration (ks : list Call) (c : LoggerContext)
    (w : World) :
  let c' := snd (fst (run ks c w)) in
  same_configuration c c'
  /\ implb (fileLimitIsReached c) (fileLimitIsReached c') = true.
Proof.
  revert c w. induction ks as [ | k ks IH]; intros c w; simpl.
  - split; [apply same_configuration_refl | ].
    destruct (fileLimitIsReached c); reflexivity.
  - pose proof (call_configuration k c w) as [Hconf Hlatch].
    destruct (call k c w) as [[st c1] w1]. simpl in Hconf, Hlatch.
    specialize (IH c1 w1).
    destruct (run ks c1 w1) as [[sts c2] w2]. simpl in *.
    destruct IH as [Hconf2 Hlatch2].
    split; [eapply same_configuration_trans; eassumption | ].
    eapply implb_trans; eassumption.
Qed.

(** No call changes what the clock answers; only the calls that take a
    timestamp advance it. *)
Lemma call_clock (k : Call) (c : LoggerContext) (w : World) :
  clock (snd (call k c w)) = clock w.
Proof.
  assert (Hstamp : forall w0,
            clock (snd (TextLogger_LogTimeStamp PTR c w0)) = clock w0).
  { intros w0. rewrite timestamp_unfold.
    apply (flush_then_write_time c (snd (localtime_now w0))). }
  destruct k as [level text | | ]; unfold call.
  - rewrite log_call_unfold.
    destruct (level_ord level <=? logLevel c); [ | reflexivity].
    rewrite write_unfold. specialize (Hstamp w).
    destruct (TextLogger_LogTimeStamp PTR c w) as [[st c1] w1].
    simpl in Hstamp. destruct (is_success st); simpl; [ | exact Hstamp].
    rewrite <- Hstamp. apply flush_then_write_time.
  - apply Hstamp.
  - apply flush_time.
Qed.

(** ** The cursor and the capacity, when the texts fit *)

(** X8.  On a tidy context, when every timestamp of the clock and the
    tagged line of every log call fit the capacity with their NUL, the
    context stays tidy through any sequence of calls, whatever their
    statuses: the cursor stays between 0 and the capacity. *)
Theorem cursor_stays_within_capacity (ks : list Call) (c : LoggerContext)
    (w : World) :
  tidy c ->
  clock_fits (maxBufferByteSize c) w ->
  Forall (text_fits (maxBufferByteSize c)) ks ->
  let c' := snd (fst (run ks c w)) in
  tidy c' /\ 0 <= currBytePos c' <= maxBufferByteSize c.
Proof.
  revert c w. induction ks as [ | k ks IH]; intros c w Htidy Hclock Htexts;
    simpl.
  - split; [exact Htidy | apply Htidy].
  - apply Forall_cons_iff in Htexts. destruct Htexts as [Hk Hks].
    assert (Hfits : fits k c w).
    { pose proof (Hclock (ticks w)) as Hstamp.
      fold (next_timestamp w) in Hstamp.
      destruct k; simpl in *; auto. }
    pose proof (call_keeps_tidy k c w Htidy Hfits) as Htidy1.
    pose proof (call_configuration k c w) as [(_ & _ & _ & Hcap & _) _].
    pose proof (call_clock k c w) as Hclock1.
    destruct (call k c w) as [[st c1] w1]. simpl in Htidy1, Hcap, Hclock1.
    specialize (IH c1 w1 Htidy1).
    destruct (run ks c1 w1) as [[sts c2] w2]. simpl in *.
    rewrite <- Hcap. apply IH.
    + rewrite Hcap. unfold clock_fits. rewrite Hclock1. exact Hclock.
    + rewrite Hcap. exact Hks.
Qed.

Lemma cursor_stays_within_capacity_witness :
  let ks := [CallLog LOG_LEVEL_INFO forty; CallTimeStamp; CallFlush;
             CallLog LOG_LEVEL_ERROR forty; CallLog LOG_LEVEL_WARN forty] in
  let c' := snd (fst (run ks fresh (world_of [] fails_after_first))) in
  tidy c' /\ 0 <= currBytePos c' <= maxBufferByteSize fresh.
Proof.
  intros ks.
  apply (cursor_stays_within_capacity ks fresh (world_of [] fails_after_first)).
  - unfold tidy, int_max. simpl. repeat split; lia.
  - intros n. vm_compute. reflexivity.
  - unfold ks. repeat constructor; vm_compute; reflexivity.
Defined.

(** ** The ledger, whatever the statuses *)

Lemma flush_cursor (c : LoggerContext) (w : World) :
  let c' := snd (fst (TextLogger_FlushTextToFileStream PTR c w)) in
  currBytePos c' = currBytePos c \/ currBytePos c' = 0.
Proof.
  unfold TextLogger_FlushTextToFileStream.
  destruct (maxFileSize c <=? totalBytesStored c).
  - destruct (fileLimitIsReached c); simpl; [left; reflexivity | ].
    destruct (TextLogger_FlushErrMsgToFileStream
                (set_fileLimitIsReached c true) w) as [st w1].
    destruct (is_file_error st); left; reflexivity.
  - destruct (0 =? currBytePos c); [left; reflexivity | ].
    destruct (fopen_ab w) as [[f | ] w1]; [ | left; reflexivity].
    destruct (_ >? _); [right; reflexivity | ].
    destruct (fwrite f _ w1) as [n w2].
    destruct (negb _); [left | right]; reflexivity.
Qed.

Lemma flush_keeps_sound (c : LoggerContext) (w : World) :
  sound c -> sound (snd (fst (TextLogger_FlushTextToFileStream PTR c w))).
Proof.
  intros (H0 & Hle & Htop & Hbudget).
  pose proof (flush_frame c w PTR) as Hframe.
  pose proof (flush_cursor c w) as Hpos.
  destruct (TextLogger_FlushTextToFileStream PTR c w) as [[st c'] w'].
  simpl in *. destruct Hframe as (_ & _ & _ & _ & _ & Hsize & Htotal).
  unfold sound. rewrite Hsize, Htotal. destruct Hpos as [-> | ->];
    repeat split; lia.
Qed.

Lemma flush_then_write_keeps_sound (c : LoggerContext) (w : World) (len : Z)
    (s : cstring) :
  sound c ->
  0 <= len ->
  strlen s + maxFileSize c <= int_max ->
  sound (snd (fst (flush_then_write c w len s))).
Proof.
  intros Hsound Hlen Hbound.
  destruct (flush_then_write c w len s) as [[st c'] w'] eqn:Hstep.
  destruct st;
    [ apply flush_then_write_ledger in Hstep; try assumption; apply Hstep
    | | | ];
    unfold flush_then_write in Hstep;
    (destruct (TextLogger_FlushBufferIsNeeded c len); [ | discriminate]);
    pose proof (flush_keeps_sound c w Hsound) as Hkeep;
    destruct (TextLogger_FlushTextToFileStream PTR c w) as [[st1 c1] w1];
    destruct st1; simpl in Hstep; inversion Hstep; subst; exact Hkeep.
Qed.

Lemma call_keeps_sound (k : Call) (c : LoggerContext) (w : World) :
  sound c ->
  call_bound k + maxFileSize c <= int_max ->
  sound (snd (fst (call k c w))).
Proof.
  intros Hsound Hbound. int_limits.
  pose proof (format_timestamp_length (clock w (ticks w))) as Hlen.
  fold (next_timestamp w) in Hlen.
  destruct k as [level text | | ]; unfold call, call_bound in *;
    change (MAX_STR_SIZE - 1) with 127 in *.
  - rewrite log_call_unfold.
    destruct (level_ord level <=? logLevel c); [ | exact Hsound].
    rewrite write_unfold, timestamp_unfold.
    assert (Hs1 : sound (snd (fst (flush_then_write c (snd (localtime_now w))
                  (strlen (next_timestamp w)) (next_timestamp w))))).
    { apply flush_then_write_keeps_sound; [exact Hsound | lia | lia]. }
    pose proof (flush_then_write_configuration c (snd (localtime_now w))
                  (strlen (next_timestamp w)) (next_timestamp w))
      as [(_ & _ & _ & _ & Hsize & _) _].
    destruct (flush_then_write c _ _ _) as [[st c1] w1].
    simpl in Hs1, Hsize.
    destruct (is_success st); simpl; [ | exact Hs1].
    assert (Htext : 0 <= strlen text) by (unfold strlen; lia).
    destruct Hsound as (_ & _ & _ & Hbudget).
    unfold LOG_EXTRA_STR_LENGTH in *.
    apply flush_then_write_keeps_sound; [exact Hs1 | | ].
    + rewrite wrap_int_to_size_t, wrap_int_id by in_int. lia.
    + rewrite tagged_line_length, Hsize. unfold LOG_EXTRA_STR_LENGTH. lia.
  - rewrite timestamp_unfold.
    apply flush_then_write_keeps_sound; [exact Hsound | lia | lia].
  - apply flush_keeps_sound, Hsound.
Qed.

(** ** The file and the budget *)

Lemma ftell_appended (w w' : World) (chunk : list ascii) :
  file_init w' = file_init w ->
  file_appends w' = file_appends w ++ [chunk] ->
  ftell_end w' = ftell_end w + Z.of_nat (length chunk).
Proof.
  intros Hi Ha. unfold ftell_end.
  rewrite (file_bytes_appended w w' chunk Hi Ha), length_app. lia.
Qed.

Lemma fwrite_grows (f : FILE) (data : list ascii) (w : World) :
  ftell_end w <= ftell_end (snd (fwrite f data w))
               <= ftell_end w + Z.of_nat (length data).
Proof.
  unfold fwrite. simpl snd.
  set (k := match f with
            | Stream (Some limit) =>
              Z.max 0 (Z.min limit (Z.of_nat (length data)))
            | Stream None => Z.of_nat (length data)
            end).
  set (w' := mk_World _ _ _ _ _ _ _).
  rewrite (ftell_appended w w' (firstn (Z.to_nat k) data))
    by reflexivity.
  rewrite length_firstn. lia.
Qed.

Lemma end_marker_grows (c : LoggerContext) (w : World) :
  ftell_end (snd (TextLogger_FlushErrMsgToFileStream c w))
  <= ftell_end w + strlen (pErrMsg c).
Proof.
  unfold TextLogger_FlushErrMsgToFileStream.
  pose proof (fopen_ab_file w) as Hfile.
  apply ftell_same_file in Hfile.
  assert (Hs : 0 <= strlen (pErrMsg c)) by (unfold strlen; lia).
  destruct (fopen_ab w) as [[f | ] w1]; simpl in Hfile; [ | simpl; lia].
  pose proof (fwrite_grows f (pErrMsg c) w1) as Hgrow.
  destruct (fwrite f (pErrMsg c) w1) as [n w2]. simpl in Hgrow.
  unfold strlen in *. destruct (negb _); simpl; lia.
Qed.

(** A flush keeps the file within the budget. *)
Lemma flush_within_budget (c : LoggerContext) (w : World) :
  sound c ->
  within_budget c w ->
  within_budget (snd (fst (TextLogger_FlushTextToFileStream PTR c w)))
                (snd (TextLogger_FlushTextToFileStream PTR c w)).
Proof.
  intros (H0 & Hle & Htop & Hbudget) Hin. int_limits.
  assert (Hs : 0 <= strlen (pErrMsg c)) by (unfold strlen; lia).
  unfold within_budget in *. unfold TextLogger_FlushTextToFileStream.
  destruct (maxFileSize c <=? totalBytesStored c).
  - destruct (fileLimitIsReached c) eqn:Hlatch; simpl; [rewrite Hlatch; exact Hin | ].
    pose proof (end_marker_grows (set_fileLimitIsReached c true) w) as Hgrow.
    destruct (TextLogger_FlushErrMsgToFileStream
                (set_fileLimitIsReached c true) w) as [st w1].
    simpl in Hgrow. destruct (is_file_error st); simpl; lia.
  - destruct (0 =? currBytePos c); [exact Hin | ].
    pose proof (fopen_ab_file w) as Hfile. apply ftell_same_file in Hfile.
    destruct (fopen_ab w) as [[f | ] w1]; simpl in Hfile;
      [ | simpl; rewrite Hfile; exact Hin].
    destruct (Z.gtb_spec (currBytePos c + ftell_end w1) (maxFileSize c)).
    + simpl. rewrite Hfile.
      destruct (fileLimitIsReached c) eqn:Hl; simpl; try rewrite Hl; lia.
    + pose proof (fwrite_grows f (load_bytes (pTextBuffer c)
                                    (to_size_t (currBytePos c))) w1) as Hgrow.
      rewrite load_bytes_length in Hgrow.
      destruct (fwrite f _ w1) as [n w2]. simpl in Hgrow.
      rewrite to_size_t_id, Z2Nat.id in Hgrow by lia.
      destruct (negb (n =? to_size_t (currBytePos c))); simpl;
        destruct (fileLimitIsReached c); lia.
Qed.

Lemma flush_then_write_within_budget (c : LoggerContext) (w : World)
    (len : Z) (s : cstring) :
  sound c ->
  within_budget c w ->
  within_budget (snd (fst (flush_then_write c w len s)))
                (snd (flush_then_write c w len s)).
Proof.
  intros Hsound Hin. unfold flush_then_write.
  assert (Hwrite : forall c0 w0, within_budget c0 w0 ->
                     within_budget (write_at_cursor c0 s) w0).
  { intros c0 w0 H0. unfold within_budget in *.
    destruct (write_at_cursor_frame c0 s) as (_ & -> & _ & _ & -> & -> & _).
    exact H0. }
  destruct (TextLogger_FlushBufferIsNeeded c len); [ | apply Hwrite, Hin].
  pose proof (flush_within_budget c w Hsound Hin) as Hflush.
  destruct (TextLogger_FlushTextToFileStream PTR c w) as [[st c1] w1].
  simpl in Hflush. destruct (is_success st); simpl; [apply Hwrite | ]; exact Hflush.
Qed.

Lemma call_within_budget (k : Call) (c : LoggerContext) (w : World) :
  sound c ->
  call_bound k + maxFileSize c <= int_max ->
  within_budget c w ->
  within_budget (snd (fst (call k c w))) (snd (call k c w)).
Proof.
  intros Hsound Hbound Hin. int_limits.
  pose proof (format_timestamp_length (clock w (ticks w))) as Hlen.
  fold (next_timestamp w) in Hlen.
  assert (Hin0 : within_budget c (snd (localtime_now w))) by exact Hin.
  destruct k as [level text | | ]; unfold call, call_bound in *;
    change (MAX_STR_SIZE - 1) with 127 in *.
  - rewrite log_call_unfold.
    destruct (level_ord level <=? logLevel c); [ | exact Hin].
    rewrite write_unfold, timestamp_unfold.
    assert (Hs1 : sound (snd (fst (flush_then_write c (snd (localtime_now w))
                  (strlen (next_timestamp w)) (next_timestamp w))))).
    { apply flush_then_write_keeps_sound; [exact Hsound | lia | lia]. }
    pose proof (flush_then_write_within_budget c (snd (localtime_now w))
                  (strlen (next_timestamp w)) (next_timestamp w) Hsound Hin0)
      as Hin1.
    destruct (flush_then_write c _ _ _) as [[st c1] w1].
    simpl in Hs1, Hin1.
    destruct (is_success st); simpl; [ | exact Hin1].
    apply flush_then_write_within_budget; [exact Hs1 | exact Hin1].
  - rewrite timestamp_unfold.
    apply flush_then_write_within_budget; assumption.
  - apply flush_within_budget; assumption.
Qed.

Lemma run_within_budget (ks : list Call) (c : LoggerContext) (w : World) :
  sound c ->
  Forall (fun k => call_bound k + maxFileSize c <= int_max) ks ->
  within_budget c w ->
  within_budget (snd (fst (run ks c w))) (snd (run ks c w)).
Proof.
  revert c w.
  induction ks as [ | k ks IH]; intros c w Hsound Hbound Hin; simpl.
  - exact Hin.
  - apply Forall_cons_iff in Hbound. destruct Hbound as [Hk Hks].
    pose proof (call_keeps_sound k c w Hsound Hk) as Hsound1.
    pose proof (call_within_budget k c w Hsound Hk Hin) as Hin1.
    pose proof (call_configuration k c w) as [(_ & _ & _ & _ & Hsize & _) _].
    destruct (call k c w) as [[st c1] w1]. simpl in Hsound1, Hin1, Hsize.
    specialize (IH c1 w1 Hsound1).
    destruct (run ks c1 w1) as [[sts c2] w2]. simpl in *.
    apply IH; [ | exact Hin1]. rewrite Hsize. exact Hks.
Qed.

Lemma within_budget_bound (c c' : LoggerContext) (w' : World) :
  same_configuration c c' ->
  within_budget c' w' ->
  ftell_end w' <= maxFileSize c + strlen (pErrMsg c).
Proof.
  intros (_ & Hmsg & _ & _ & Hsize & _) Hin.
  unfold within_budget in Hin. rewrite Hmsg, Hsize in Hin.
  assert (Hs : 0 <= strlen (pErrMsg c)) by (unfold strlen; lia).
  destruct (fileLimitIsReached c'); lia.
Qed.

(** X9.  The file stays within the budget.  On a context with a sound
    ledger, whose budget leaves room in [int] for the texts, if the file is
    within the budget before a sequence of calls then it is within the budget
    after it, whatever the statuses and the faults of the file layer: no
    longer than the effective budget while the latch is clear, and never
    longer than the effective budget and the end-marker. *)
Theorem file_stays_within_budget (ks : list Call) (c : LoggerContext)
    (w : World) :
  sound c ->
  Forall (fun k => call_bound k + maxFileSize c <= int_max) ks ->
  within_budget c w ->
  let c' := snd (fst (run ks c w)) in
  let w' := snd (run ks c w) in
  within_budget c' w'
  /\ ftell_end w' <= maxFileSize c + strlen (pErrMsg c).
Proof.
  intros Hsound Hbound Hin. cbv zeta.
  pose proof (run_within_budget ks c w Hsound Hbound Hin) as Hgoal.
  split; [exact Hgoal | ].
  apply within_budget_bound with (c' := snd (fst (run ks c w)));
    [apply session_configuration_aux | exact Hgoal].
Qed.

Lemma file_stays_within_budget_witness :
  let ks := [CallLog LOG_LEVEL_INFO forty; CallLog LOG_LEVEL_INFO forty;
             CallLog LOG_LEVEL_INFO forty; CallFlush; CallFlush] in
  let c := mk_LoggerContext (repeat NUL 512) test_path (lit "X"%string)
                            5 512 198 0 0 false in
  let c' := snd (fst (run ks c (calm []))) in
  let w' := snd (run ks c (calm [])) in
  within_budget c' w'
  /\ ftell_end w' <= maxFileSize c + strlen (pErrMsg c).
Proof.
  intros ks c.
  apply (file_stays_within_budget ks c (calm [])).
  - unfold sound, int_max. simpl. lia.
  - unfold ks, int_max. repeat constructor; simpl; lia.
  - unfold within_budget. vm_compute. discriminate.
Defined.

(** X10.  The file never reaches the budget given to [TextLogger_Create].
    For a context created with a budget whose effective part is a value of
    [int], on a file that is within the effective budget when the context is
    created, after any sequence of calls the file is shorter than the budget
    of the caller, end-marker included, whatever the statuses and the faults
    of the file layer. *)
Theorem file_below_caller_budget (path msg : cstring) (level cap budget : Z)
    (w : World) (c : LoggerContext) (ks : list Call) :
  int_range (budget - (strlen msg + 1)) ->
  TextLogger_Create (Some path) (Some msg) level cap budget w = Some c ->
  ftell_end w <= budget - (strlen msg + 1) ->
  Forall (fun k => call_bound k + budget <= int_max) ks ->
  ftell_end (snd (run ks c w)) < budget.
Proof.
  intros Hr Hcreate Hfile Hbound. int_limits.
  assert (Hs : 0 <= strlen msg) by (unfold strlen; lia).
  assert (Hc : sound c /\ maxFileSize c = budget - (strlen msg + 1)
               /\ pErrMsg c = msg /\ fileLimitIsReached c = false).
  { unfold TextLogger_Create in Hcreate.
    rewrite (effective_budget msg budget Hr) in Hcreate.
    destruct (negb (malloc_ok w sizeof_LoggerContext)); [discriminate | ].
    destruct (Z.geb_spec 0 (budget - (strlen msg + 1))); [discriminate | ].
    destruct (negb _); [discriminate | ].
    destruct (negb _); [discriminate | ].
    destruct (negb _); [discriminate | ].
    inversion Hcreate; subst. unfold sound, int_range in *. simpl.
    repeat split; lia. }
  destruct Hc as (Hsound & Hsize & Hmsg & Hlatch).
  assert (Hin : within_budget c w).
  { unfold within_budget. rewrite Hlatch, Hsize. lia. }
  assert (Hks : Forall (fun k => call_bound k + maxFileSize c <= int_max) ks).
  { eapply Forall_impl; [ | exact Hbound]. simpl. intros k Hk.
    rewrite Hsize. lia. }
  pose proof (run_within_budget ks c w Hsound Hks Hin) as Hgoal.
  apply within_budget_bound with (c := c) in Hgoal;
    [ | apply session_configuration_aux ].
  rewrite Hsize, Hmsg in Hgoal. lia.
Qed.

Lemma file_below_caller_budget_witness :
  let ks := [CallLog LOG_LEVEL_INFO forty; CallLog LOG_LEVEL_INFO forty;
             CallLog LOG_LEVEL_INFO forty; CallFlush; CallFlush] in
  let c := mk_LoggerContext (repeat NUL 512) test_path (lit "X"%string)
                            5 512 198 0 0 false in
  ftell_end (snd (run ks c (calm []))) < 200.
Proof.
  intros ks c.
  apply (file_below_caller_budget test_path (lit "X"%string) 5 512 200
           (calm []) c ks).
  - unfold int_range, int_min, int_max. simpl. lia.
  - vm_compute. reflexivity.
  - vm_compute. discriminate.
  - unfold ks, int_max. repeat constructor; simpl; lia.
Defined.

(** ** What reaches the file, in order *)

Lemma call_stream (k : Call) (c c' : LoggerContext) (w w' : World) :
  tidy c ->
  clock_fits (maxBufferByteSize c) w ->
  text_fits (maxBufferByteSize c) k ->
  call k c w = (TEXTLOGGER_SUCCESS, c', w') ->
  file_bytes w' ++ pending c' = file_bytes w ++ pending c ++ said k c w.
Proof.
  intros Htidy Hclock Htext. int_limits.
  pose proof (Hclock (ticks w)) as Hstamp_fits.
  fold (next_timestamp w) in Hstamp_fits.
  destruct k as [level text | | ]; unfold call, said, text_fits in *.
  - rewrite log_call_unfold.
    destruct (level_ord level <=? logLevel c).
    + rewrite write_unfold.
      destruct (TextLogger_LogTimeStamp PTR c w) as [[st c1] w1] eqn:Hstamp.
      destruct st; simpl; try discriminate. intros Hline.
      rewrite timestamp_unfold in Hstamp.
      apply flush_then_write_carries in Hstamp; [ | exact Htidy | lia | lia ].
      destruct Hstamp as (Htidy1 & Hcap1 & _ & Hi1 & Hcase1).
      assert (Hlen : 0 <= strlen text) by (unfold strlen; lia).
      pose proof Htidy as (_ & _ & Hcap).
      unfold LOG_EXTRA_STR_LENGTH in *.
      rewrite wrap_int_to_size_t, wrap_int_id in Hline by in_int.
      apply flush_then_write_carries in Hline;
        [ | exact Htidy1
          | rewrite tagged_line_length; unfold LOG_EXTRA_STR_LENGTH; lia
          | lia ].
      destruct Hline as (_ & _ & _ & Hi2 & Hcase2).
      rewrite (carried_stream c1 c' w1 w' _ Hi2 Hcase2).
      rewrite (app_assoc (file_bytes w1)).
      rewrite (carried_stream c c1 _ w1 _ Hi1 Hcase1).
      rewrite file_bytes_after_clock, <- !app_assoc. reflexivity.
    + intros H; inversion H; subst. rewrite !app_nil_r. reflexivity.
  - rewrite timestamp_unfold. intros Hstamp.
    apply flush_then_write_carries in Hstamp; [ | exact Htidy | lia | lia ].
    destruct Hstamp as (_ & _ & _ & Hi1 & Hcase1).
    rewrite (carried_stream c c' _ w' _ Hi1 Hcase1).
    rewrite file_bytes_after_clock. reflexivity.
  - intros Hflush.
    destruct (flush_carries_pending _ _ _ _ Htidy Hflush)
      as (_ & Hzero & Hi & Ha).
    rewrite (pending_of_empty c' Hzero), !app_nil_r.
    destruct (Z.eqb_spec 0 (currBytePos c)) as [Hnone | Hsome].
    + rewrite app_nil_r in Ha. rewrite pending_of_empty, app_nil_r by lia.
      unfold file_bytes. rewrite Hi, Ha. reflexivity.
    + apply file_bytes_appended; assumption.
Qed.

(** X11.  Nothing is lost and nothing is reordered while the calls succeed.
    On a tidy context, with timestamps and tagged lines that fit the
    capacity, after any sequence of calls that all return SUCCESS the bytes
    of the file followed by the bytes pending in the scratch buffer are those
    of before followed by the timestamps and tagged lines of the calls, in
    the order of the calls. *)
Theorem session_transcript (ks : list Call) (c c' : LoggerContext)
    (w w' : World) (sts : list TextLoggerStatusType) :
  tidy c ->
  clock_fits (maxBufferByteSize c) w ->
  Forall (text_fits (maxBufferByteSize c)) ks ->
  run ks c w = (sts, c', w') ->
  Forall (fun st => st = TEXTLOGGER_SUCCESS) sts ->
  file_bytes w' ++ pending c'
  = file_bytes w ++ pending c ++ transcript ks c w.
Proof.
  revert c w sts.
  induction ks as [ | k ks IH]; intros c w sts Htidy Hclock Htexts Hrun Hok;
    simpl in Hrun |- *.
  - inversion Hrun; subst. rewrite app_nil_r. reflexivity.
  - destruct (call k c w) as [[st c1] w1] eqn:Hcall.
    destruct (run ks c1 w1) as [[sts' c2] w2] eqn:Hrest.
    inversion Hrun; subst.
    apply Forall_cons_iff in Hok. destruct Hok as [-> Hok].
    apply Forall_cons_iff in Htexts. destruct Htexts as [Hk Hks].
    destruct (call_carries [] _ _ _ _ _ Htidy Hclock Hk Hcall)
      as (Htidy1 & Hcap1 & Hclock1 & _).
    pose proof (call_stream _ _ _ _ _ Htidy Hclock Hk Hcall) as Hstep.
    rewrite (IH c1 w1 sts' Htidy1); try assumption.
    + rewrite (app_assoc (file_bytes w1)), Hstep, <- !app_assoc. reflexivity.
    + rewrite Hcap1. unfold clock_fits. rewrite Hclock1. exact Hclock.
    + rewrite Hcap1. exact Hks.
Qed.

Lemma session_transcript_witness :
  let ks := [CallLog LOG_LEVEL_INFO forty; CallTimeStamp;
             CallLog LOG_LEVEL_WARN forty; CallFlush] in
  let r := run ks fresh (calm []) in
  file_bytes (snd r) ++ pending (snd (fst r))
  = file_bytes (calm []) ++ pending fresh ++ transcript ks fresh (calm []).
Proof.
  intros ks r.
  apply (session_transcript ks fresh (snd (fst r)) (calm []) (snd r)
           (fst (fst r))).
  - unfold tidy, int_max. simpl. repeat split; lia.
  - intros n. vm_compute. reflexivity.
  - unfold ks. repeat constructor; vm_compute; reflexivity.
  - vm_compute. reflexivity.
  - vm_compute. repeat constructor.
Defined.

(** ** The timestamp *)

Lemma all_from_spec (f : Z -> bool) (n : nat) :
  forall lo, all_from f n lo = true ->
             forall z, lo <= z < lo + Z.of_nat n -> f z = true.
Proof.
  induction n as [ | n IH]; intros lo Hall z Hz; simpl in Hall.
  - lia.
  - apply andb_true_iff in Hall. destruct Hall as [Hlo Hrest].
    destruct (Z.eq_dec z lo) as [-> | Hne]; [exact Hlo | ].
    apply (IH (lo + 1) Hrest). lia.
Qed.

(** The conversions of the format on the numbers they are made for: two
    characters for a number of at most two digits, four for a year of four
    digits. *)
Lemma two_digits (z : Z) : 0 <= z <= 99 -> length (fmt_0d 2 z) = 2%nat.
Proof.
  intros Hz.
  assert (Hall : all_from (fun z => (length (fmt_0d 2 z) =? 2)%nat)
                          (Z.to_nat 100) 0 = true) by (vm_compute; reflexivity).
  apply Nat.eqb_eq. apply (all_from_spec _ _ _ Hall).
  rewrite Z2Nat.id; lia.
Qed.

Lemma four_digits (z : Z) : 1000 <= z <= 9999 -> length (fmt_0d 4 z) = 4%nat.
Proof.
  intros Hz.
  assert (Hall : all_from (fun z => (length (fmt_0d 4 z) =? 4)%nat)
                          (Z.to_nat 9000) 1000 = true)
    by (vm_compute; reflexivity).
  apply Nat.eqb_eq. apply (all_from_spec _ _ _ Hall).
  rewrite Z2Nat.id; lia.
Qed.

Lemma calendar_timestamp (t : tm) :
  calendar t ->
  format_timestamp t = timestamp_text t /\ strlen (timestamp_text t) = 24.
Proof.
  intros (Hy & Hmo & Hd & Hh & Hmi & Hs). int_limits.
  assert (Hlen : length (timestamp_text t) = 24%nat).
  { unfold timestamp_text.
    rewrite (wrap_int_id (tm_year t + 1900)) by in_int.
    rewrite (wrap_int_id (tm_mon t + 1)) by in_int.
    rewrite !length_app.
    rewrite four_digits by lia. rewrite !two_digits by lia. reflexivity. }
  split.
  - unfold format_timestamp. apply firstn_all2. rewrite Hlen.
    change (Z.to_nat (MAX_STR_SIZE - 1)) with 127%nat. lia.
  - unfold strlen. rewrite Hlen. reflexivity.
Qed.

(** X12.  For a time with a year of four digits and the other fields in
    their calendar ranges, the timestamp is exactly 24 characters long and
    is not cut by the size of [pTimeBuffer]. *)
Theorem timestamp_is_24_bytes (t : tm) :
  calendar t ->
  strlen (format_timestamp t) = 24
  /\ format_timestamp t = timestamp_text t.
Proof.
  intros Hcal. destruct (calendar_timestamp t Hcal) as [Heq Hlen].
  rewrite Heq. split; [exact Hlen | reflexivity].
Qed.

Lemma timestamp_is_24_bytes_witness :
  strlen (format_timestamp noon) = 24
  /\ format_timestamp noon = timestamp_text noon.
Proof.
  apply (timestamp_is_24_bytes noon). unfold calendar. simpl. lia.
Defined.

(** ** What a record costs *)

Lemma flush_then_write_total (c c' : LoggerContext) (w w' : World)
    (len : Z) (s : cstring) :
  sound c ->
  0 <= len ->
  strlen s + maxFileSize c <= int_max ->
  flush_then_write c w len s = (TEXTLOGGER_SUCCESS, c', w') ->
  totalBytesStored c' = totalBytesStored c + strlen s.
Proof.
  intros Hsound Hlen Hbound. unfold flush_then_write.
  assert (Hs : 0 <= strlen s) by (unfold strlen; lia).
  int_limits.
  destruct (TextLogger_FlushBufferIsNeeded c len) eqn:Hneed.
  - destruct (TextLogger_FlushTextToFileStream PTR c w)
      as [[st c1] w1] eqn:Hflush.
    destruct st; simpl; intros H; inversion H; subst.
    pose proof (flush_frame c w PTR) as Hframe. rewrite Hflush in Hframe.
    destruct Hframe as (_ & _ & _ & _ & _ & Hsize & Htotal).
    destruct (flush_ledger _ _ _ _ Hsound Hflush)
      as ((Hsound1 & _ & _) & Hcur & Hlt).
    destruct Hsound1 as (H0 & Hle & Htop & Hbudget).
    destruct (write_at_cursor_counts c1 s) as [_ Ht]; [lia | lia | ].
    rewrite Ht, Htotal. reflexivity.
  - intros H; inversion H; subst.
    destruct Hsound as (H0 & Hle & Htop & Hbudget).
    unfold TextLogger_FlushBufferIsNeeded in Hneed.
    apply orb_false_iff in Hneed. destruct Hneed as [Hfile _].
    rewrite wrap_int_id in Hfile by in_int.
    apply Z.leb_gt in Hfile.
    destruct (write_at_cursor_counts c s) as [_ Ht]; [lia | lia | ].
    exact Ht.
Qed.

(** X13.  An admitted record that is logged with SUCCESS at a calendar time
    adds exactly [30 + strlen text] to the accounting: 24 for the timestamp,
    5 for the tag, the text, and 1 for the newline.  This holds whether or
    not the call flushed, and whether or not the text fitted the buffer. *)
Theorem record_costs_30_and_text (level : LogLevelType) (text : cstring)
    (c c' : LoggerContext) (w w' : World) :
  sound c ->
  calendar (clock w (ticks w)) ->
  strlen text + LOG_EXTRA_STR_LENGTH + maxFileSize c <= int_max ->
  MAX_STR_SIZE - 1 + maxFileSize c <= int_max ->
  level_ord level <= logLevel c ->
  log_call level PTR (Some text) c w = (TEXTLOGGER_SUCCESS, c', w') ->
  totalBytesStored c' = totalBytesStored c + 30 + strlen text.
Proof.
  intros Hsound Hcal Hline Hstamp_bound Hlevel. int_limits.
  destruct (calendar_timestamp _ Hcal) as [Heq Hlen].
  assert (Hts : strlen (next_timestamp w) = 24).
  { unfold next_timestamp. rewrite Heq. exact Hlen. }
  change (MAX_STR_SIZE - 1) with 127 in Hstamp_bound.
  unfold LOG_EXTRA_STR_LENGTH in *.
  assert (Htext : 0 <= strlen text) by (unfold strlen; lia).
  rewrite log_call_unfold.
  destruct (Z.leb_spec (level_ord level) (logLevel c)); [ | lia].
  rewrite write_unfold.
  destruct (TextLogger_LogTimeStamp PTR c w) as [[st c1] w1] eqn:Hstamp.
  destruct st; simpl; try discriminate. intros Hlog.
  rewrite timestamp_unfold in Hstamp.
  assert (Hts0 : 0 <= strlen (next_timestamp w)) by lia.
  assert (Hts1 : strlen (next_timestamp w) + maxFileSize c <= int_max) by lia.
  pose proof (flush_then_write_ledger _ _ _ _ _ _ Hsound Hts0 Hts1 Hstamp)
    as (Hsound1 & Hsize & _).
  apply flush_then_write_total in Hstamp; [ | exact Hsound | lia | lia ].
  destruct Hsound as (_ & _ & _ & Hbudget).
  unfold LOG_EXTRA_STR_LENGTH in Hlog.
  rewrite wrap_int_to_size_t, wrap_int_id in Hlog by in_int.
  apply flush_then_write_total in Hlog;
    [ | exact Hsound1 | lia
      | rewrite tagged_line_length, Hsize; unfold LOG_EXTRA_STR_LENGTH; lia ].
  rewrite Hlog, Hstamp, Hts, tagged_line_length.
  unfold LOG_EXTRA_STR_LENGTH. lia.
Qed.

Lemma record_costs_30_and_text_witness :
  let r := log_call LOG_LEVEL_INFO PTR (Some forty) fresh (calm []) in
  totalBytesStored (snd (fst r)) = totalBytesStored fresh + 30 + strlen forty.
Proof.
  intros r.
  apply (record_costs_30_and_text LOG_LEVEL_INFO forty fresh (snd (fst r))
           (calm []) (snd r)).
  - unfold sound, int_max. simpl. lia.
  - unfold calendar. simpl. lia.
  - unfold int_max. simpl. lia.
  - unfold int_max. simpl. lia.
  - simpl. lia.
  - vm_compute. reflexivity.
Defined.

(** ** Creation and the allocator *)

(** X14.  With both strings present and a budget whose effective part is a
    value of [int], [TextLogger_Create] returns a context exactly when the
    effective budget is positive and the allocator grants the four requests:
    a refused allocation, of the context, of the copy of the path, of the
    scratch buffer or of the copy of the end-marker, gives NULL. *)
Theorem create_succeeds_iff (path msg : cstring) (level cap budget : Z)
    (w : World) :
  int_range (budget - (strlen msg + 1)) ->
  (exists c, TextLogger_Create (Some path) (Some msg) level cap budget w
             = Some c)
  <-> (0 < budget - (strlen msg + 1) /\ grants w path msg cap).
Proof.
  intros Hr. split.
  - intros [c Hcreate]. unfold TextLogger_Create in Hcreate.
    rewrite (effective_budget msg budget Hr) in Hcreate. unfold grants.
    destruct (malloc_ok w sizeof_LoggerContext); [ | discriminate].
    simpl in Hcreate.
    destruct (Z.geb_spec 0 (budget - (strlen msg + 1))); [discriminate | ].
    destruct (malloc_ok w (to_size_t (strlen path + 1))); [ | discriminate].
    destruct (malloc_ok w (to_size_t cap)); [ | discriminate].
    destruct (malloc_ok w (to_size_t (strlen msg + 1))); [ | discriminate].
    repeat split. lia.
  - intros [Hpos Hgrants]. eexists.
    apply create_accepts; eassumption.
Qed.

Lemma create_succeeds_iff_witness :
  (exists c, TextLogger_Create (Some test_path) (Some (lit "X"%string))
                               5 64 2048 (calm []) = Some c)
  <-> (0 < 2048 - (strlen (lit "X"%string) + 1)
       /\ grants (calm []) test_path (lit "X"%string) 64).
Proof.
  apply (create_succeeds_iff test_path (lit "X"%string) 5 64 2048 (calm [])).
  unfold int_range, int_min, int_max. simpl. lia.
Defined.

(** ** The diagnostic *)

(** X15.  [TextLogger_PrintCurrFileSize] only observes.  Whatever it
    returns, the context, the file and the clock are what they were.  It
    returns SUCCESS exactly when the file opens twice in a row, and then the
    two lengths it prints are the length of the file and the third number is
    the accounting; if an open fails it returns FILE_ERROR and prints
    nothing. *)
Theorem diagnostic_only_observes (c : LoggerContext) (w : World) :
  let '(st, out, c', w') := TextLogger_PrintCurrFileSize PTR c w in
  c' = c
  /\ same_file w w' /\ same_time w w'
  /\ (os w (opens w) <> OpenFails /\ os w (S (opens w)) <> OpenFails ->
      st = TEXTLOGGER_SUCCESS
      /\ out = Some (ftell_end w, ftell_end w, totalBytesStored c))
  /\ (os w (opens w) = OpenFails \/ os w (S (opens w)) = OpenFails ->
      st = TEXTLOGGER_ERR_FILE_ERROR /\ out = None).
Proof.
  unfold TextLogger_PrintCurrFileSize, fopen_ab, ftell_end, file_bytes.
  destruct (os w (opens w)) eqn:H1; simpl;
    try destruct (os w (S (opens w))) eqn:H2; simpl;
    (split; [reflexivity | ]);
    (split; [split; reflexivity | ]);
    (split; [split; reflexivity | ]);
    (split; intros H;
     [ try (split; reflexivity); destruct H; congruence
     | try (split; reflexivity); destruct H; congruence ]).
Qed.

(** ** A file layer that never fails *)

Lemma fopen_ab_dependable (w : World) :
  dependable w ->
  fst (fopen_ab w) = Some (Stream None) /\ dependable (snd (fopen_ab w)).
Proof.
  intros Hw. unfold fopen_ab. rewrite (Hw (opens w)). split; [reflexivity | ].
  exact Hw.
Qed.

Lemma end_marker_dependable (c : LoggerContext) (w : World) :
  dependable w ->
  fst (TextLogger_FlushErrMsgToFileStream c w) = TEXTLOGGER_SUCCESS
  /\ dependable (snd (TextLogger_FlushErrMsgToFileStream c w)).
Proof.
  intros Hw. unfold TextLogger_FlushErrMsgToFileStream, fopen_ab.
  rewrite (Hw (opens w)). unfold fwrite. cbv zeta iota beta.
  unfold strlen. rewrite Z.eqb_refl. split; [reflexivity | exact Hw].
Qed.

Lemma flush_dependable (c : LoggerContext) (w : World) :
  dependable w ->
  goes_on (fst (fst (TextLogger_FlushTextToFileStream PTR c w)))
  /\ dependable (snd (TextLogger_FlushTextToFileStream PTR c w)).
Proof.
  intros Hw. unfold TextLogger_FlushTextToFileStream, goes_on.
  destruct (maxFileSize c <=? totalBytesStored c).
  - destruct (fileLimitIsReached c); simpl; [split; [right; reflexivity | exact Hw] | ].
    destruct (end_marker_dependable (set_fileLimitIsReached c true) w Hw)
      as [Hst Hw1].
    destruct (TextLogger_FlushErrMsgToFileStream (set_fileLimitIsReached c true) w)
      as [st w1].
    simpl in Hst, Hw1. subst st. simpl. split; [right; reflexivity | exact Hw1].
  - destruct (0 =? currBytePos c); [split; [left; reflexivity | exact Hw] | ].
    unfold fopen_ab. rewrite (Hw (opens w)).
    destruct (_ >? _); simpl; [split; [right; reflexivity | exact Hw] | ].
    rewrite load_bytes_length.
    rewrite Z2Nat.id by (unfold to_size_t; apply Z.mod_pos_bound; lia).
    rewrite Z.eqb_refl. simpl. split; [left; reflexivity | exact Hw].
Qed.

Lemma flush_then_write_dependable (c : LoggerContext) (w : World) (len : Z)
    (s : cstring) :
  dependable w ->
  goes_on (fst (fst (flush_then_write c w len s)))
  /\ dependable (snd (flush_then_write c w len s)).
Proof.
  intros Hw. unfold flush_then_write.
  destruct (TextLogger_FlushBufferIsNeeded c len);
    [ | split; [left; reflexivity | exact Hw]].
  destruct (flush_dependable c w Hw) as [Hst Hw1].
  destruct (TextLogger_FlushTextToFileStream PTR c w) as [[st c1] w1].
  simpl in Hst, Hw1.
  destruct Hst as [Hst | Hst]; subst st; simpl;
    (split; [ | exact Hw1]); [left | right]; reflexivity.
Qed.

Lemma call_dependable (k : Call) (c : LoggerContext) (w : World) :
  dependable w ->
  goes_on (fst (fst (call k c w))) /\ dependable (snd (call k c w)).
Proof.
  intros Hw.
  assert (Hstamp : goes_on (fst (fst (TextLogger_LogTimeStamp PTR c w)))
                   /\ dependable (snd (TextLogger_LogTimeStamp PTR c w))).
  { rewrite timestamp_unfold. apply flush_then_write_dependable. exact Hw. }
  destruct k as [level text | | ]; unfold call.
  - rewrite log_call_unfold.
    destruct (level_ord level <=? logLevel c);
      [ | split; [left; reflexivity | exact Hw]].
    rewrite write_unfold.
    destruct (TextLogger_LogTimeStamp PTR c w) as [[st c1] w1].
    simpl in Hstamp. destruct Hstamp as [[Hst | Hst] Hw1]; subst st; simpl.
    + apply flush_then_write_dependable. exact Hw1.
    + split; [right; reflexivity | exact Hw1].
  - exact Hstamp.
  - apply flush_dependable. exact Hw.
Qed.

Lemma run_dependable (ks : list Call) (c : LoggerContext) (w : World) :
  dependable w ->
  Forall goes_on (fst (fst (run ks c w))) /\ dependable (snd (run ks c w)).
Proof.
  revert c w. induction ks as [ | k ks IH]; intros c w Hw; simpl.
  - split; [constructor | exact Hw].
  - destruct (call_dependable k c w Hw) as [Hst Hw1].
    destruct (call k c w) as [[st c1] w1]. simpl in Hst, Hw1.
    specialize (IH c1 w1 Hw1).
    destruct (run ks c1 w1) as [[sts c2] w2]. simpl in *.
    destruct IH as [Hsts Hw2]. split; [constructor; assumption | exact Hw2].
Qed.

Lemma diagnostic_dependable (c : LoggerContext) (w : World) :
  dependable w ->
  fst (fst (fst (TextLogger_PrintCurrFileSize PTR c w))) = TEXTLOGGER_SUCCESS
  /\ dependable (snd (TextLogger_PrintCurrFileSize PTR c w)).
Proof.
  intros Hw. unfold TextLogger_PrintCurrFileSize, fopen_ab.
  rewrite (Hw (opens w)). cbv iota beta zeta. simpl os. simpl opens.
  rewrite (Hw (S (opens w))). split; [reflexivity | exact Hw].
Qed.

Lemma diagnostic_frame (c : LoggerContext) (w : World) :
  snd (fst (TextLogger_PrintCurrFileSize PTR c w)) = c
  /\ same_file w (snd (TextLogger_PrintCurrFileSize PTR c w)).
Proof.
  unfold TextLogger_PrintCurrFileSize, fopen_ab.
  destruct (os w (opens w)); simpl;
    try destruct (os w (S (opens w))); simpl;
    (split; [reflexivity | split; reflexivity]).
Qed.

(** X16.  When every [fopen] succeeds and every [fwrite] takes all its
    bytes, no call of a sequence returns FILE_ERROR or INVALID_INPUT: every
    status is SUCCESS or INSUFFICIENT_FILE_SPACE, whatever the context and
    the texts. *)
Theorem healthy_layer_never_file_error (ks : list Call) (c : LoggerContext)
    (w : World) :
  dependable w ->
  Forall goes_on (fst (fst (run ks c w))).
Proof. intros Hw. apply (run_dependable ks c w Hw). Qed.

Lemma healthy_layer_never_file_error_witness :
  Forall goes_on
         (fst (fst (run [CallLog LOG_LEVEL_INFO forty; CallFlush] fresh
                        (calm [])))).
Proof.
  apply (healthy_layer_never_file_error
           [CallLog LOG_LEVEL_INFO forty; CallFlush] fresh (calm [])).
  intros n. reflexivity.
Defined.

(** * The driver *)

(** What [TextLogger_Create] returns when it does return a context. *)
Lemma create_returns (path msg : cstring) (level cap budget : Z) (w : World)
    (c : LoggerContext) :
  int_range (budget - (strlen msg + 1)) ->
  TextLogger_Create (Some path) (Some msg) level cap budget w = Some c ->
  c = mk_LoggerContext (repeat NUL (Z.to_nat (to_size_t cap)))
        path msg level cap (budget - (strlen msg + 1)) 0 0 false
  /\ 0 < budget - (strlen msg + 1)
  /\ grants w path msg cap.
Proof.
  intros Hr Hcreate.
  assert (Hpos : 0 < budget - (strlen msg + 1) /\ grants w path msg cap).
  { unfold TextLogger_Create in Hcreate.
    rewrite (effective_budget msg budget Hr) in Hcreate. unfold grants.
    destruct (malloc_ok w sizeof_LoggerContext); [ | discriminate].
    simpl in Hcreate.
    destruct (Z.geb_spec 0 (budget - (strlen msg + 1))); [discriminate | ].
    destruct (malloc_ok w (to_size_t (strlen path + 1))); [ | discriminate].
    destruct (malloc_ok w (to_size_t cap)); [ | discriminate].
    destruct (malloc_ok w (to_size_t (strlen msg + 1))); [ | discriminate].
    repeat split. lia. }
  destruct Hpos as [Hpos Hgrants].
  rewrite (create_accepts path msg level cap budget w Hr Hpos Hgrants)
    in Hcreate.
  injection Hcreate as Hc. split; [symmetry; exact Hc | ]. split; assumption.
Qed.

Lemma driver_budget_in_range :
  int_range (App.MAX_FILE_SIZE - (strlen App.spFileLimitErrMsg + 1)).
Proof. unfold int_range, int_min, int_max. simpl. lia. Qed.

(** One turn of the loop of [main]. *)
Lemma polling_cons (key : ascii) (keys : list ascii) (status : Z)
    (c : LoggerContext) (w : World) :
  App.polling (key :: keys) status c w =
  let '(r, s1, c1, w1) := App.key_pressed key status c w in
  if 3 =? s1 then
    if r then App.polling keys s1 c1 w1 else App.stopped c1 w1
  else if 1 =? s1 then (App.Returned (-1), Some c1, w1)
  else if r then App.polling keys s1 c1 w1 else App.stopped c1 w1.
Proof. reflexivity. Qed.

Section DriverInvariant.

Variable Inv : LoggerContext -> World -> Prop.

Hypothesis Hcall : forall k c w,
  In k App.bound_calls ->
  Inv c w -> Inv (snd (fst (call k c w))) (snd (call k c w)).

Hypothesis Hfile : forall c w w1, Inv c w -> same_file w w1 -> Inv c w1.

Lemma key_pressed_keeps (key : ascii) (status : Z) (c : LoggerContext)
    (w : World) :
  Inv c w ->
  Inv (snd (fst (App.key_pressed key status c w)))
    (snd (App.key_pressed key status c w)).
Proof.
  intros HI. unfold App.key_pressed.
  destruct (Ascii.eqb key "q"); [exact HI | ].
  destruct (Ascii.eqb key "1").
  { assert (Hin : In (CallLog LOG_LEVEL_ERROR (lit "Error statement"%string))
                     App.bound_calls) by (simpl; tauto).
    pose proof (Hcall _ c w Hin HI) as H. unfold call, log_call in H.
    destruct (TextLogger_LogError PTR _ c w) as [[st c1] w1]. exact H. }
  destruct (Ascii.eqb key "2").
  { assert (Hin : In (CallLog LOG_LEVEL_WARN (lit "Warn statement"%string))
                     App.bound_calls) by (simpl; tauto).
    pose proof (Hcall _ c w Hin HI) as H. unfold call, log_call in H.
    destruct (TextLogger_LogWarn PTR _ c w) as [[st c1] w1]. exact H. }
  destruct (Ascii.eqb key "3").
  { assert (Hin : In (CallLog LOG_LEVEL_INFO (lit "Info statement"%string))
                     App.bound_calls) by (simpl; tauto).
    pose proof (Hcall _ c w Hin HI) as H. unfold call, log_call in H.
    destruct (TextLogger_LogInfo PTR _ c w) as [[st c1] w1]. exact H. }
  destruct (Ascii.eqb key "4").
  { assert (Hin : In (CallLog LOG_LEVEL_DEBUG (lit "Debug statement"%string))
                     App.bound_calls) by (simpl; tauto).
    pose proof (Hcall _ c w Hin HI) as H. unfold call, log_call in H.
    destruct (TextLogger_LogDebug PTR _ c w) as [[st c1] w1]. exact H. }
  destruct (Ascii.eqb key "5").
  { assert (Hin : In (CallLog LOG_LEVEL_VERBOSE
                        (lit "Verbose statement"%string))
                     App.bound_calls) by (simpl; tauto).
    pose proof (Hcall _ c w Hin HI) as H. unfold call, log_call in H.
    destruct (TextLogger_LogVerbose PTR _ c w) as [[st c1] w1]. exact H. }
  destruct (Ascii.eqb key "f").
  { assert (Hin : In CallFlush App.bound_calls) by (simpl; tauto).
    pose proof (Hcall _ c w Hin HI) as H. unfold call in H.
    destruct (TextLogger_FlushTextToFileStream PTR c w) as [[st c1] w1].
    exact H. }
  destruct (Ascii.eqb key "o"); [ | exact HI].
  destruct (diagnostic_frame c w) as [Hc Hw].
  destruct (TextLogger_PrintCurrFileSize PTR c w) as [[[st out] c1] w1].
  simpl in Hc, Hw. subst c1. simpl. apply (Hfile c w w1 HI Hw).
Qed.

(** Where [main] stands after any keys: with a context that satisfies the
    invariant, or past the final flush of such a context. *)
Lemma polling_keeps (keys : list ascii) (status : Z) (c : LoggerContext)
    (w : World) :
  Inv c w ->
  match App.polling keys status c w with
  | (_, Some c', w') => Inv c' w'
  | (_, None, w') =>
    exists c0 w0,
      Inv c0 w0 /\ w' = snd (TextLogger_FlushTextToFileStream PTR c0 w0)
  end.
Proof.
  revert status c w. induction keys as [ | key keys IH]; intros status c w HI.
  - exact HI.
  - rewrite polling_cons.
    pose proof (key_pressed_keeps key status c w HI) as H1.
    destruct (App.key_pressed key status c w) as [[[r s1] c1] w1].
    simpl in H1.
    assert (Hstop : match App.stopped c1 w1 with
                    | (_, Some c', w') => Inv c' w'
                    | (_, None, w') =>
                      exists c0 w0,
                        Inv c0 w0
                        /\ w' = snd (TextLogger_FlushTextToFileStream PTR c0 w0)
                    end).
    { unfold App.stopped, TextLogger_Destroy.
      destruct (TextLogger_FlushTextToFileStream PTR c1 w1) as [[st c2] w2] eqn:Hf.
      exists c1, w1. split; [exact H1 | ]. rewrite Hf. reflexivity. }
    destruct (3 =? s1).
    + destruct r; [apply IH; exact H1 | exact Hstop].
    + destruct (1 =? s1); [exact H1 | ].
      destruct r; [apply IH; exact H1 | exact Hstop].
Qed.

End DriverInvariant.

(** The calls that [main] makes fit the capacity it asks for, and their
    length bounds are far from the top of [int]. *)
Lemma bound_calls_fit (k : Call) (c : LoggerContext) (w : World) :
  In k App.bound_calls ->
  maxBufferByteSize c = App.MAX_STR_BYTE_SIZE ->
  fits k c w.
Proof.
  intros Hin Hcap.
  pose proof (format_timestamp_length (clock w (ticks w))) as Hstamp.
  unfold App.bound_calls in Hin. simpl in Hin.
  destruct Hin as [<- | [<- | [<- | [<- | [<- | [<- | []]]]]]];
    unfold fits, next_timestamp; try exact I; rewrite Hcap;
    unfold App.MAX_STR_BYTE_SIZE;
    (split; [lia | vm_compute; reflexivity]).
Qed.

Lemma bound_calls_bound (k : Call) :
  In k App.bound_calls -> call_bound k <= 127.
Proof.
  unfold App.bound_calls. simpl.
  intros [<- | [<- | [<- | [<- | [<- | [<- | []]]]]]];
    vm_compute; discriminate.
Qed.

(** ** The driver and the capacity *)

(** X17.  [main] never takes the cursor past the capacity it asked for.
    Whatever the keys pressed, the answers of the file layer and the value
    that [status] held at the start, the context that [main] holds is tidy
    and has the capacity 1024: its scratch buffer has 1024 bytes and its
    cursor is between 0 and 1024. *)
Theorem driver_cursor_within_capacity (garbage : Z) (keys : list ascii)
    (w : World) (c' : LoggerContext) :
  snd (fst (App.main garbage keys w)) = Some c' ->
  tidy c'
  /\ maxBufferByteSize c' = App.MAX_STR_BYTE_SIZE
  /\ 0 <= currBytePos c' <= App.MAX_STR_BYTE_SIZE.
Proof.
  unfold App.main.
  destruct (TextLogger_Create _ _ _ _ _ w) as [c | ] eqn:Hcreate;
    [ | discriminate].
  intros Hheld.
  destruct (create_returns _ _ _ _ _ _ _ driver_budget_in_range Hcreate)
    as [Hc _].
  assert (Hcap0 : 0 <= App.MAX_STR_BYTE_SIZE <= int_max)
    by (unfold App.MAX_STR_BYTE_SIZE, int_max; lia).
  destruct (create_sound_and_tidy _ _ _ _ _ _ _ Hcap0 Hcreate) as [_ Htidy].
  pose proof (polling_keeps
                (fun c _ => tidy c
                            /\ maxBufferByteSize c = App.MAX_STR_BYTE_SIZE))
    as Hkeeps.
  cbv beta in Hkeeps.
  specialize (Hkeeps
    ltac:(intros k c0 w0 Hin [Ht Hcap];
          pose proof (call_configuration k c0 w0) as [Hconf _];
          cbv zeta in Hconf;
          destruct Hconf as (_ & _ & _ & Hcap' & _);
          split; [apply call_keeps_tidy;
                  [exact Ht | apply bound_calls_fit; assumption]
                 | rewrite Hcap'; exact Hcap])
    ltac:(intros c0 w0 w1 H _; exact H)
    keys garbage c w
    ltac:(split; [exact Htidy | rewrite Hc; reflexivity])).
  destruct (App.polling keys garbage c w) as [[e oc] w'].
  simpl in Hheld. subst oc. destruct Hkeeps as [Ht Hcap].
  split; [exact Ht | ]. split; [exact Hcap | ]. rewrite <- Hcap. apply Ht.
Qed.

Lemma driver_cursor_within_capacity_witness :
  tidy (write_at_cursor
          (write_at_cursor
             (mk_LoggerContext (repeat NUL 1024) App.spFileName
                App.spFileLimitErrMsg 5 1024 2035 0 0 false)
             (format_timestamp noon))
          (tagged_line LOG_LEVEL_ERROR (lit "Error statement"%string)))
  /\ maxBufferByteSize
       (write_at_cursor
          (write_at_cursor
             (mk_LoggerContext (repeat NUL 1024) App.spFileName
                App.spFileLimitErrMsg 5 1024 2035 0 0 false)
             (format_timestamp noon))
          (tagged_line LOG_LEVEL_ERROR (lit "Error statement"%string)))
     = App.MAX_STR_BYTE_SIZE
  /\ 0 <= currBytePos
            (write_at_cursor
               (write_at_cursor
                  (mk_LoggerContext (repeat NUL 1024) App.spFileName
                     App.spFileLimitErrMsg 5 1024 2035 0 0 false)
                  (format_timestamp noon))
               (tagged_line LOG_LEVEL_ERROR (lit "Error statement"%string)))
     <= App.MAX_STR_BYTE_SIZE.
Proof.
  apply (driver_cursor_within_capacity 0 ["1"%char] (calm [])).
  vm_compute. reflexivity.
Defined.

(** ** The driver and the size of the file *)

(** X18.  The file of [main] stays below the limit that [main] asks for.
    When the file starts with at most 2035 bytes (the limit of 2048 less the
    end-marker and its NUL), then whatever the keys pressed, the answers of
    the file layer and the value that [status] held at the start, the file
    has fewer than 2048 bytes wherever [main] stands and after it returns. *)
Theorem driver_file_below_limit (garbage : Z) (keys : list ascii) (w : World) :
  ftell_end w <= App.MAX_FILE_SIZE - (strlen App.spFileLimitErrMsg + 1) ->
  ftell_end (snd (App.main garbage keys w)) < App.MAX_FILE_SIZE.
Proof.
  intros Hstart.
  assert (Hmsg : strlen App.spFileLimitErrMsg = 12) by reflexivity.
  rewrite Hmsg in Hstart. unfold App.MAX_FILE_SIZE in *.
  unfold App.main.
  destruct (TextLogger_Create _ _ _ _ _ w) as [c | ] eqn:Hcreate;
    [ | simpl; lia].
  destruct (create_returns _ _ _ _ _ _ _ driver_budget_in_range Hcreate)
    as [Hc _].
  assert (Hcap0 : 0 <= App.MAX_STR_BYTE_SIZE <= int_max)
    by (unfold App.MAX_STR_BYTE_SIZE, int_max; lia).
  destruct (create_sound_and_tidy _ _ _ _ _ _ _ Hcap0 Hcreate) as [Hsound _].
  pose proof (polling_keeps
                (fun c w => sound c /\ maxFileSize c = 2035
                            /\ strlen (pErrMsg c) = 12
                            /\ within_budget c w))
    as Hkeeps.
  cbv beta in Hkeeps.
  assert (Hcall : forall k c0 w0,
            In k App.bound_calls ->
            sound c0 /\ maxFileSize c0 = 2035 /\ strlen (pErrMsg c0) = 12
            /\ within_budget c0 w0 ->
            sound (snd (fst (call k c0 w0)))
            /\ maxFileSize (snd (fst (call k c0 w0))) = 2035
            /\ strlen (pErrMsg (snd (fst (call k c0 w0)))) = 12
            /\ within_budget (snd (fst (call k c0 w0))) (snd (call k c0 w0))).
  { intros k c0 w0 Hin (Hs & Hb & Hm & Hw).
    pose proof (bound_calls_bound k Hin) as Hk.
    assert (Hroom : call_bound k + maxFileSize c0 <= int_max)
      by (rewrite Hb; unfold int_max; lia).
    pose proof (call_configuration k c0 w0) as [Hconf _].
    cbv zeta in Hconf. destruct Hconf as (_ & Hm' & _ & _ & Hb' & _).
    split; [apply call_keeps_sound; assumption | ].
    split; [rewrite Hb'; exact Hb | ].
    split; [rewrite Hm'; exact Hm | ].
    apply call_within_budget; assumption. }
  assert (Hfile : forall c0 w0 w1,
            sound c0 /\ maxFileSize c0 = 2035 /\ strlen (pErrMsg c0) = 12
            /\ within_budget c0 w0 ->
            same_file w0 w1 ->
            sound c0 /\ maxFileSize c0 = 2035 /\ strlen (pErrMsg c0) = 12
            /\ within_budget c0 w1).
  { intros c0 w0 w1 (Hs & Hb & Hm & Hw) Hsame.
    repeat (split; [assumption | ]).
    unfold within_budget in *. rewrite (ftell_same_file w0 w1 Hsame).
    exact Hw. }
  specialize (Hkeeps Hcall Hfile keys garbage c w).
  assert (Hinit : sound c /\ maxFileSize c = 2035 /\ strlen (pErrMsg c) = 12
                  /\ within_budget c w).
  { split; [exact Hsound | ]. rewrite Hc. unfold within_budget. simpl.
    rewrite Hmsg. repeat split; lia. }
  specialize (Hkeeps Hinit).
  assert (Hend : forall c0 w0,
            sound c0 /\ maxFileSize c0 = 2035 /\ strlen (pErrMsg c0) = 12
            /\ within_budget c0 w0 ->
            ftell_end w0 < 2048).
  { intros c0 w0 (_ & Hb & Hm & Hw). unfold within_budget in Hw.
    rewrite Hb, Hm in Hw. destruct (fileLimitIsReached c0); lia. }
  destruct (App.polling keys garbage c w) as [[e [c1 | ]] w'];
    simpl snd.
  - apply (Hend c1 w'). exact Hkeeps.
  - destruct Hkeeps as (c0 & w0 & (Hs & Hb & Hm & Hw) & ->).
    pose proof (flush_configuration PTR c0 w0) as [Hconf _].
    cbv zeta in Hconf. destruct Hconf as (_ & Hm' & _ & _ & Hb' & _).
    apply (Hend (snd (fst (TextLogger_FlushTextToFileStream PTR c0 w0)))).
    split; [apply flush_keeps_sound; exact Hs | ].
    split; [rewrite Hb'; exact Hb | ].
    split; [rewrite Hm'; exact Hm | ].
    apply flush_within_budget; assumption.
Qed.

Lemma driver_file_below_limit_witness :
  ftell_end (snd (App.main 0 (lit "15f3oq"%string) (calm (repeat "x"%char 2000))))
  < App.MAX_FILE_SIZE.
Proof.
  apply (driver_file_below_limit 0 (lit "15f3oq"%string)
           (calm (repeat "x"%char 2000))).
  vm_compute. discriminate.
Defined.

(** ** How the driver ends *)

(** Only the key [q] stops the loop. *)
Lemma key_pressed_running (key : ascii) (status : Z) (c : LoggerContext)
    (w : World) :
  fst (fst (fst (App.key_pressed key status c w)))
  = negb (Ascii.eqb key "q").
Proof.
  unfold App.key_pressed.
  destruct (Ascii.eqb key "q"); [reflexivity | ].
  destruct (Ascii.eqb key "1");
    [destruct (TextLogger_LogError PTR _ c w) as [[st c1] w1]; reflexivity | ].
  destruct (Ascii.eqb key "2");
    [destruct (TextLogger_LogWarn PTR _ c w) as [[st c1] w1]; reflexivity | ].
  destruct (Ascii.eqb key "3");
    [destruct (TextLogger_LogInfo PTR _ c w) as [[st c1] w1]; reflexivity | ].
  destruct (Ascii.eqb key "4");
    [destruct (TextLogger_LogDebug PTR _ c w) as [[st c1] w1]; reflexivity | ].
  destruct (Ascii.eqb key "5");
    [destruct (TextLogger_LogVerbose PTR _ c w) as [[st c1] w1]; reflexivity | ].
  destruct (Ascii.eqb key "f");
    [destruct (TextLogger_FlushTextToFileStream PTR c w) as [[st c1] w1];
     reflexivity | ].
  destruct (Ascii.eqb key "o"); [ | reflexivity].
  destruct (TextLogger_PrintCurrFileSize PTR c w) as [[[st out] c1] w1].
  reflexivity.
Qed.

Lemma stopped_returns (c : LoggerContext) (w : World) :
  fst (App.stopped c w) = (App.Returned 0, None).
Proof.
  unfold App.stopped, TextLogger_Destroy.
  destruct (TextLogger_FlushTextToFileStream PTR c w) as [[st c1] w1].
  reflexivity.
Qed.

Lemma polling_ends (keys : list ascii) (status : Z) (c : LoggerContext)
    (w : World) :
  let '(e, held, _) := App.polling keys status c w in
  (e = App.Returned 0 /\ held = None /\ In "q"%char keys)
  \/ (e = App.Returned (-1) /\ held <> None)
  \/ (e = App.Polling /\ held <> None /\ ~ In "q"%char keys).
Proof.
  revert status c w. induction keys as [ | key keys IH]; intros status c w.
  - simpl. right. right. split; [reflexivity | ].
    split; [discriminate | intros []].
  - rewrite polling_cons.
    pose proof (key_pressed_running key status c w) as Hr.
    destruct (App.key_pressed key status c w) as [[[r s1] c1] w1].
    simpl in Hr.
    assert (Hgo : r = true ->
              let '(e, held, _) := App.polling keys s1 c1 w1 in
              (e = App.Returned 0 /\ held = None /\ In "q"%char (key :: keys))
              \/ (e = App.Returned (-1) /\ held <> None)
              \/ (e = App.Polling /\ held <> None
                  /\ ~ In "q"%char (key :: keys))).
    { intros ->. specialize (IH s1 c1 w1).
      destruct (App.polling keys s1 c1 w1) as [[e held] w2].
      destruct IH as [(He & Hh & Hq) | [(He & Hh) | (He & Hh & Hq)]].
      - left. repeat split; try assumption. right. exact Hq.
      - right. left. split; assumption.
      - right. right. repeat split; try assumption.
        intros [Hk | Hin]; [ | exact (Hq Hin)].
        subst key. discriminate. }
    assert (Hstop : r = false ->
              let '(e, held, _) := App.stopped c1 w1 in
              (e = App.Returned 0 /\ held = None /\ In "q"%char (key :: keys))
              \/ (e = App.Returned (-1) /\ held <> None)
              \/ (e = App.Polling /\ held <> None
                  /\ ~ In "q"%char (key :: keys))).
    { intros Hfalse.
      assert (Hq : key = "q"%char).
      { apply Ascii.eqb_eq. rewrite Hfalse in Hr.
        destruct (Ascii.eqb key "q"); [reflexivity | discriminate]. }
      pose proof (stopped_returns c1 w1) as Hs.
      destruct (App.stopped c1 w1) as [[e held] w2]. simpl in Hs.
      injection Hs as -> ->. left.
      split; [reflexivity | ]. split; [reflexivity | ]. left. exact Hq. }
    destruct (3 =? s1).
    + destruct r; [apply Hgo | apply Hstop]; reflexivity.
    + destruct (1 =? s1).
      * right. left. split; [reflexivity | discriminate].
      * destruct r; [apply Hgo | apply Hstop]; reflexivity.
Qed.

(** X19.  How [main] ends.  It returns 1 exactly when an allocation of
    [TextLogger_Create] is refused, and then it has touched nothing.  It
    returns 0 only after the key [q], and then the context is destroyed.
    When it returns -1 the context is not destroyed.  While it has not
    returned, it holds the context and no [q] was pressed. *)
Theorem driver_exit_protocol (garbage : Z) (keys : list ascii) (w : World) :
  let '(e, held, w') := App.main garbage keys w in
  (e = App.Returned 1
   <-> ~ grants w App.spFileName App.spFileLimitErrMsg App.MAX_STR_BYTE_SIZE)
  /\ (e = App.Returned 1 -> held = None /\ w' = w)
  /\ (e = App.Returned 0 -> held = None /\ In "q"%char keys)
  /\ (e = App.Returned (-1) -> held <> None)
  /\ (e = App.Polling -> held <> None /\ ~ In "q"%char keys)
  /\ (e = App.Returned 1 \/ e = App.Returned 0 \/ e = App.Returned (-1)
      \/ e = App.Polling).
Proof.
  unfold App.main.
  destruct (TextLogger_Create _ _ _ _ _ w) as [c | ] eqn:Hcreate.
  - destruct (create_returns _ _ _ _ _ _ _ driver_budget_in_range Hcreate)
      as (_ & _ & Hgrants).
    pose proof (polling_ends keys garbage c w) as Hends.
    destruct (App.polling keys garbage c w) as [[e held] w'].
    destruct Hends as [(-> & -> & Hq) | [(-> & Hh) | (-> & Hh & Hq)]].
    + split; [split; [discriminate | intros Hno; elim (Hno Hgrants)] | ].
      split; [discriminate | ].
      split; [intros _; split; [reflexivity | exact Hq] | ].
      split; [discriminate | ].
      split; [discriminate | ]. right. left. reflexivity.
    + split; [split; [discriminate | intros Hno; elim (Hno Hgrants)] | ].
      split; [discriminate | ].
      split; [discriminate | ].
      split; [intros _; exact Hh | ].
      split; [discriminate | ]. right. right. left. reflexivity.
    + split; [split; [discriminate | intros Hno; elim (Hno Hgrants)] | ].
      split; [discriminate | ].
      split; [discriminate | ].
      split; [discriminate | ].
      split; [intros _; split; assumption | ]. right. right. right.
      reflexivity.
  - split.
    { split; [ | reflexivity]. intros _ Hgrants.
      assert (Hpos : 0 < App.MAX_FILE_SIZE - (strlen App.spFileLimitErrMsg + 1))
        by (vm_compute; reflexivity).
      rewrite (create_accepts _ _ _ _ _ _ driver_budget_in_range Hpos Hgrants)
        in Hcreate.
      discriminate. }
    split; [intros _; split; reflexivity | ].
    split; [discriminate | ].
    split; [discriminate | ].
    split; [discriminate | ]. left. reflexivity.
Qed.

(** ** The driver on a file layer that never fails *)

Lemma key_pressed_dependable (key : ascii) (status : Z) (c : LoggerContext)
    (w : World) :
  dependable w ->
  status <> 1 ->
  snd (fst (fst (App.key_pressed key status c w))) <> 1
  /\ dependable (snd (App.key_pressed key status c w)).
Proof.
  intros Hw Hs.
  assert (Hcode : forall st, goes_on st -> App.status_code st <> 1).
  { intros st [-> | ->]; discriminate. }
  unfold App.key_pressed.
  destruct (Ascii.eqb key "q"); [split; assumption | ].
  destruct (Ascii.eqb key "1").
  { pose proof (call_dependable
                  (CallLog LOG_LEVEL_ERROR (lit "Error statement"%string))
                  c w Hw) as [Hst Hw1].
    unfold call, log_call in Hst, Hw1.
    destruct (TextLogger_LogError PTR _ c w) as [[st c1] w1].
    split; [apply Hcode; exact Hst | exact Hw1]. }
  destruct (Ascii.eqb key "2").
  { pose proof (call_dependable
                  (CallLog LOG_LEVEL_WARN (lit "Warn statement"%string))
                  c w Hw) as [Hst Hw1].
    unfold call, log_call in Hst, Hw1.
    destruct (TextLogger_LogWarn PTR _ c w) as [[st c1] w1].
    split; [apply Hcode; exact Hst | exact Hw1]. }
  destruct (Ascii.eqb key "3").
  { pose proof (call_dependable
                  (CallLog LOG_LEVEL_INFO (lit "Info statement"%string))
                  c w Hw) as [Hst Hw1].
    unfold call, log_call in Hst, Hw1.
    destruct (TextLogger_LogInfo PTR _ c w) as [[st c1] w1].
    split; [apply Hcode; exact Hst | exact Hw1]. }
  destruct (Ascii.eqb key "4").
  { pose proof (call_dependable
                  (CallLog LOG_LEVEL_DEBUG (lit "Debug statement"%string))
                  c w Hw) as [Hst Hw1].
    unfold call, log_call in Hst, Hw1.
    destruct (TextLogger_LogDebug PTR _ c w) as [[st c1] w1].
    split; [apply Hcode; exact Hst | exact Hw1]. }
  destruct (Ascii.eqb key "5").
  { pose proof (call_dependable
                  (CallLog LOG_LEVEL_VERBOSE (lit "Verbose statement"%string))
                  c w Hw) as [Hst Hw1].
    unfold call, log_call in Hst, Hw1.
    destruct (TextLogger_LogVerbose PTR _ c w) as [[st c1] w1].
    split; [apply Hcode; exact Hst | exact Hw1]. }
  destruct (Ascii.eqb key "f").
  { pose proof (call_dependable CallFlush c w Hw) as [Hst Hw1].
    unfold call in Hst, Hw1.
    destruct (TextLogger_FlushTextToFileStream PTR c w) as [[st c1] w1].
    split; [apply Hcode; exact Hst | exact Hw1]. }
  destruct (Ascii.eqb key "o"); [ | split; assumption].
  destruct (diagnostic_dependable c w Hw) as [Hst Hw1].
  destruct (TextLogger_PrintCurrFileSize PTR c w) as [[[st out] c1] w1].
  simpl in Hst, Hw1. subst st. split; [discriminate | exact Hw1].
Qed.

Lemma polling_dependable (keys : list ascii) (status : Z) (c : LoggerContext)
    (w : World) :
  dependable w ->
  status <> 1 ->
  fst (fst (App.polling keys status c w))
  = if existsb (fun key => Ascii.eqb key "q") keys
    then App.Returned 0 else App.Polling.
Proof.
  revert status c w. induction keys as [ | key keys IH];
    intros status c w Hw Hs.
  - reflexivity.
  - rewrite polling_cons.
    pose proof (key_pressed_running key status c w) as Hr.
    pose proof (key_pressed_dependable key status c w Hw Hs) as [Hs1 Hw1].
    destruct (App.key_pressed key status c w) as [[[r s1] c1] w1].
    simpl in Hr, Hs1, Hw1. simpl existsb.
    assert (Hone : (1 =? s1) = false) by (apply Z.eqb_neq; lia).
    rewrite Hone.
    assert (Hboth : fst (fst (if r then App.polling keys s1 c1 w1
                              else App.stopped c1 w1))
                    = if Ascii.eqb key "q" || existsb (fun key => Ascii.eqb key "q") keys
                      then App.Returned 0 else App.Polling).
    { subst r. destruct (Ascii.eqb key "q"); simpl.
      - rewrite stopped_returns. reflexivity.
      - apply IH; assumption. }
    destruct (3 =? s1); exact Hboth.
Qed.

(** X20.  On a file layer that never fails, when the allocations are
    granted and [status] did not start as the value of FILE_ERROR, [main]
    returns 0 at the first [q] and never returns -1: the keys before the
    [q] cannot stop it, also those that are answered with
    INSUFFICIENT_FILE_SPACE.  Without a [q] it keeps polling. *)
Theorem driver_runs_until_quit (garbage : Z) (keys : list ascii) (w : World) :
  dependable w ->
  grants w App.spFileName App.spFileLimitErrMsg App.MAX_STR_BYTE_SIZE ->
  garbage <> App.status_code TEXTLOGGER_ERR_FILE_ERROR ->
  fst (fst (App.main garbage keys w))
  = if existsb (fun key => Ascii.eqb key "q") keys
    then App.Returned 0 else App.Polling.
Proof.
  intros Hw Hgrants Hg. unfold App.main.
  assert (Hpos : 0 < App.MAX_FILE_SIZE - (strlen App.spFileLimitErrMsg + 1))
    by (vm_compute; reflexivity).
  rewrite (create_accepts _ _ _ _ _ _ driver_budget_in_range Hpos Hgrants).
  apply polling_dependable; assumption.
Qed.

Lemma driver_runs_until_quit_witness :
  fst (fst (App.main 0 (lit "12f3q5"%string) (calm [])))
  = if existsb (fun key => Ascii.eqb key "q") (lit "12f3q5"%string)
    then App.Returned 0 else App.Polling.
Proof.
  apply (driver_runs_until_quit 0 (lit "12f3q5"%string) (calm [])).
  - intros n. reflexivity.
  - repeat split.
  - simpl. discriminate.
Defined.

(** X21.  [main] reads [status] before it has set it.  When the first key
    is not bound to a call of the logger ([q] or any key outside
    [12345fo]) and [status] happens to hold the value of FILE_ERROR, [main]
    returns -1 at once: no file was opened, nothing was written, and the
    context is not destroyed. *)
Theorem driver_reads_unset_status (key : ascii) (keys : list ascii)
    (w : World) (c : LoggerContext) :
  TextLogger_Create (Some App.spFileName) (Some App.spFileLimitErrMsg)
                    (level_ord LOG_LEVEL_VERBOSE)
                    App.MAX_STR_BYTE_SIZE App.MAX_FILE_SIZE w = Some c ->
  ~ In key App.bound_keys ->
  App.main (App.status_code TEXTLOGGER_ERR_FILE_ERROR) (key :: keys) w
  = (App.Returned (-1), Some c, w).
Proof.
  intros Hcreate Hfree. unfold App.main. rewrite Hcreate.
  rewrite polling_cons.
  assert (Hkey : exists r,
            App.key_pressed key (App.status_code TEXTLOGGER_ERR_FILE_ERROR) c w
            = (r, 1, c, w)).
  { unfold App.key_pressed.
    destruct (Ascii.eqb key "q"); [eexists; reflexivity | ].
    unfold App.bound_keys in Hfree. simpl in Hfree.
    destruct (Ascii.eqb_spec key "1");
      [subst key; exfalso; apply Hfree; auto 10 | ].
    destruct (Ascii.eqb_spec key "2");
      [subst key; exfalso; apply Hfree; auto 10 | ].
    destruct (Ascii.eqb_spec key "3");
      [subst key; exfalso; apply Hfree; auto 10 | ].
    destruct (Ascii.eqb_spec key "4");
      [subst key; exfalso; apply Hfree; auto 10 | ].
    destruct (Ascii.eqb_spec key "5");
      [subst key; exfalso; apply Hfree; auto 10 | ].
    destruct (Ascii.eqb_spec key "f");
      [subst key; exfalso; apply Hfree; auto 10 | ].
    destruct (Ascii.eqb_spec key "o");
      [subst key; exfalso; apply Hfree; auto 10 | ].
    eexists; reflexivity. }
  destruct Hkey as [r ->]. reflexivity.
Qed.

Lemma driver_reads_unset_status_witness :
  App.main (App.status_code TEXTLOGGER_ERR_FILE_ERROR)
           ("q"%char :: lit "12"%string) (calm [])
  = (App.Returned (-1),
     Some (mk_LoggerContext (repeat NUL 1024) App.spFileName
             App.spFileLimitErrMsg 5 1024 2035 0 0 false),
     calm []).
Proof.
  apply (driver_reads_unset_status "q"%char (lit "12"%string) (calm [])).
  - reflexivity.
  - vm_compute. intuition discriminate.
Defined.
